(** * QIIME 2 archiver: a shallow embedding of [qiime2/core/archive/archiver.py]

    The development follows the layout of the Python module: a small prelude
    with the pieces of the Python runtime the module relies on ([str]
    methods, [pathlib], [os.makedirs], [zipfile]), then the archive backends
    ([_Archive], [_ZipArchive], [_NoOpArchive]), the format registry and the
    [Archiver] class itself.  Stateful code runs in a state-and-exception
    monad over a world made of a file system and the cache's process pool. *)

From Stdlib Require Import String Ascii List Bool Arith Lia.
From stdpp Require Import base option list gmap strings fin_maps fin_sets.

Local Open Scope string_scope.
Local Open Scope list_scope.
Set Warnings "-register-all,-clear-no-such-hyp".

(* ===================================================================== *)
(** ** Python prelude: exceptions and results *)
(* ===================================================================== *)

(** A path is kept as pathlib keeps it: the tuple of its components.  The
    model works with absolute, canonical paths; the empty tuple is the root
    directory. *)
Abbreviation Path := (list string).

(** One constructor per [raise] site of the module, plus the built-in
    exceptions of the runtime operations it calls.  [ExternalError] stands
    for whatever a collaborator (cache, format handler) raises, keyboard
    interrupts included. *)
Inductive Exn : Type :=
  | TypeError_NotAFilepath (path : Path)
  | ValueError_NoVisibleRoot
  | ValueError_MultipleRoots (roots : list string)
  | ValueError_InvalidUUIDRoot (name : string)
  | ValueError_MalformedVersion
  | ValueError_DoesNotExist (path : Path)
  | ValueError_NotAnArchive (path : Path)
  | ValueError_Futuristic (msg : string)
  | ValueError_Unpack
  | ValueError_EmptyFilename
  | KeyError (key : string)
  | AssertionError
  | AttributeError (attr : string)
  | FileExistsError (path : Path)
  | FileNotFoundError (path : Path)
  | NotADirectoryError (path : Path)
  | IsADirectoryError (path : Path)
  | BadZipFile (path : Path)
  | ExternalError (tag : string).

Inductive result (A : Type) : Type :=
  | Ok (a : A)
  | Raise (e : Exn).
Arguments Ok {A} a.
Arguments Raise {A} e.

Definition is_Ok {A} (r : result A) : bool :=
  match r with Ok _ => true | Raise _ => false end.

(* ===================================================================== *)
(** ** Python prelude: [str] *)
(* ===================================================================== *)

Module Str.

(** [s.startswith(pre)] *)
Fixpoint startswith (s pre : string) {struct pre} : bool :=
  match pre with
  | EmptyString => true
  | String c pre' =>
      match s with
      | EmptyString => false
      | String d s' => if Ascii.eqb c d then startswith s' pre' else false
      end
  end.

(** [s.endswith(c)] for a one-character suffix. *)
Fixpoint endswith_char (s : string) (c : ascii) : bool :=
  match s with
  | EmptyString => false
  | String d EmptyString => Ascii.eqb d c
  | String _ s' => endswith_char s' c
  end.

(** [s.split(sep)] for a one-character separator: a string with n
    separators gives n+1 segments, empty ones included. *)
Fixpoint split (sep : ascii) (s : string) : list string :=
  match s with
  | EmptyString => [EmptyString]
  | String c s' =>
      if Ascii.eqb c sep then EmptyString :: split sep s'
      else match split sep s' with
           | [] => [String c EmptyString]
           | hd :: tl => String c hd :: tl
           end
  end.

(** [sep.join(l)] *)
Fixpoint join (sep : string) (l : list string) : string :=
  match l with
  | [] => EmptyString
  | [x] => x
  | x :: l' => x +:+ sep +:+ join sep l'
  end.

(** [c.isspace()] on the code points below 256. *)
Definition isspace (c : ascii) : bool :=
  let n := nat_of_ascii c in
  (((9 <=? n) && (n <=? 13)) || ((28 <=? n) && (n <=? 32))
   || (n =? 133) || (n =? 160))%nat.

Fixpoint lstrip (s : string) : string :=
  match s with
  | EmptyString => EmptyString
  | String c s' => if isspace c then lstrip s' else s
  end.

Fixpoint rstrip (s : string) : string :=
  match s with
  | EmptyString => EmptyString
  | String c s' =>
      match rstrip s' with
      | EmptyString => if isspace c then EmptyString else String c EmptyString
      | r => String c r
      end
  end.

(** [s.strip()] *)
Definition strip (s : string) : string := rstrip (lstrip s).

(** [c in s] *)
Fixpoint contains (c : ascii) (s : string) : bool :=
  match s with
  | EmptyString => false
  | String d s' => Ascii.eqb d c || contains c s'
  end.

(** [s.count(c)] *)
Fixpoint count (c : ascii) (s : string) : nat :=
  match s with
  | EmptyString => 0
  | String d s' => (if Ascii.eqb d c then 1 else 0) + count c s'
  end.

(** [sub in s] *)
Fixpoint substring_of (sub s : string) : bool :=
  startswith s sub ||
  match s with
  | EmptyString => false
  | String _ s' => substring_of sub s'
  end.

Definition hexdigit (n : nat) : ascii :=
  ascii_of_nat (if n <? 10 then 48 + n else 87 + n)%nat.

Definition printable (c : ascii) : bool :=
  let n := nat_of_ascii c in
  (((32 <=? n) && (n <=? 126)) || ((161 <=? n) && negb (n =? 173)))%nat.

(** One character of [repr(s)], for the quote character [q] in use. *)
Definition repr_char (q : ascii) (c : ascii) : string :=
  let n := nat_of_ascii c in
  if Ascii.eqb c q then String "\" (String q EmptyString)
  else if (n =? 92)%nat then "\\"
  else if (n =? 9)%nat then "\t"
  else if (n =? 10)%nat then "\n"
  else if (n =? 13)%nat then "\r"
  else if printable c then String c EmptyString
  else String "\" (String "x" (String (hexdigit (n / 16)%nat)
                   (String (hexdigit (n mod 16)%nat) EmptyString))).

Fixpoint repr_body (q : ascii) (s : string) : string :=
  match s with
  | EmptyString => EmptyString
  | String c s' => repr_char q c +:+ repr_body q s'
  end.

(** [repr(s)], the [%r] conversion: single quotes unless the text holds a
    single quote and no double quote. *)
Definition repr (s : string) : string :=
  let q := if contains "'" s && negb (contains "034" s) then "034"%char
           else "'"%char in
  String q (repr_body q s +:+ String q EmptyString).

End Str.

(* ===================================================================== *)
(** ** A state-and-exception monad *)
(* ===================================================================== *)

(** Python code that mutates the file system or the cache and may raise is
    a function from the state to an outcome and the state reached; a raised
    exception keeps the effects performed before it. *)
Definition St (S A : Type) : Type := S -> result A * S.

Definition ret {S A} (a : A) : St S A := fun s => (Ok a, s).
Definition raise {S A} (e : Exn) : St S A := fun s => (Raise e, s).
Definition bind {S A B} (m : St S A) (k : A -> St S B) : St S B :=
  fun s => match m s with
           | (Ok a, s') => k a s'
           | (Raise e, s') => (Raise e, s')
           end.
Definition get {S} : St S S := fun s => (Ok s, s).
Definition modify {S} (f : S -> S) : St S unit := fun s => (Ok tt, f s).
Definition lift_result {S A} (r : result A) : St S A := fun s => (r, s).

(** [try: body except: handler; raise] -- the bare [except] clause that
    cleans up and re-raises.  An exception raised by the handler itself
    replaces the original one, as in Python. *)
Definition try_except_reraise {S A} (body : St S A) (handler : St S unit)
  : St S A :=
  fun s => match body s with
           | (Ok a, s') => (Ok a, s')
           | (Raise e, s') =>
               match handler s' with
               | (Ok _, s'') => (Raise e, s'')
               | (Raise e', s'') => (Raise e', s'')
               end
           end.

Definition rbind {A B} (r : result A) (k : A -> result B) : result B :=
  match r with Ok a => k a | Raise e => Raise e end.

(** [for x in l: body(x)] *)
Fixpoint for_each {S A} (l : list A) (body : A -> St S unit) : St S unit :=
  match l with
  | [] => ret tt
  | x :: l' => bind (body x) (fun _ => for_each l' body)
  end.

Declare Scope st_scope.
Delimit Scope st_scope with st.
Notation "x <- m ;; k" := (bind m (fun x => k))
  (at level 100, m at next level, right associativity) : st_scope.
Notation "m ;;; k" := (bind m (fun _ => k))
  (at level 100, right associativity) : st_scope.
Notation "x <~ r ;; k" := (rbind r (fun x => k))
  (at level 100, r at next level, right associativity) : st_scope.
Local Open Scope st_scope.

(* ===================================================================== *)
(** ** Python prelude: [pathlib], [os] and the file system *)
(* ===================================================================== *)

Module PosixPath.

(** The root that [PurePosixPath] splits off: one slash, or two when the
    text starts with exactly two. *)
Definition root_of (s : string) : string :=
  match s with
  | String "/" (String "/" (String "/" _)) => "/"
  | String "/" (String "/" _) => "//"
  | String "/" _ => "/"
  | _ => ""
  end.

Definition components (s : string) : list string :=
  filter (fun x => x ∉ [""; "."]) (Str.split "/" s).

(** [PurePosixPath(s).parts] *)
Definition parts (s : string) : list string :=
  (if String.eqb (root_of s) "" then [] else [root_of s]) ++ components s.

(** [str] of a [PurePosixPath] built from already parsed parts. *)
Definition render (ps : list string) : string :=
  match ps with
  | [] => "."
  | r :: rest =>
      if String.eqb r "/" || String.eqb r "//" then r +:+ Str.join "/" rest
      else Str.join "/" ps
  end.

(** [PurePosixPath(a) / b]: an absolute right operand replaces the
    left one. *)
Definition joinpath (a : list string) (b : string) : list string :=
  if String.eqb (root_of b) "" then a ++ parts b else parts b.

End PosixPath.

(** What a path of the file system holds.  A zip container is kept as the
    list of its members (name, bytes) in central-directory order. *)
Inductive Node : Type :=
  | File (data : string)
  | ZipFile (entries : list (string * string))
  | Dir.

Abbreviation FS := (gmap Path Node).

#[global] Instance Node_eq_dec : EqDecision Node.
Proof. solve_decision. Defined.

Module Os.

(** [os.path.split(p)[0]], [Path.parent] *)
Definition dirname (p : Path) : Path := removelast p.

(** [os.path.basename(p)] *)
Definition basename (p : Path) : string := List.last p "".

(** [os.path.join(p, name)] for a name without separator; an empty name
    only adds a trailing slash. *)
Definition join (p : Path) (name : string) : Path :=
  if String.eqb name "" then p else p ++ [name].

(** [str(p)] *)
Definition path_str (p : Path) : string := "/" +:+ Str.join "/" p.

Definition exists_ (fs : FS) (p : Path) : bool :=
  match fs !! p with Some _ => true | None => false end.

Definition isdir (fs : FS) (p : Path) : bool :=
  match fs !! p with Some Dir => true | _ => false end.

(** [os.listdir(p)]: the names directly under [p]. *)
Definition listdir (fs : FS) (p : Path) : list string :=
  omap (fun q => if bool_decide (dirname q = p) && negb (bool_decide (q = []))
                 then Some (basename q) else None)
       (map_to_list fs).*1.

(** [os.mkdir(p)] *)
Definition mkdir (p : Path) : St FS unit := fun fs =>
  match fs !! p with
  | Some _ => (Raise (FileExistsError p), fs)
  | None =>
      match fs !! dirname p with
      | Some Dir => (Ok tt, <[p := Dir]> fs)
      | Some _ => (Raise (NotADirectoryError p), fs)
      | None => (Raise (FileNotFoundError p), fs)
      end
  end.

(** [os.makedirs(p)] with [exist_ok=False], on the reversed path: create
    the missing ancestors first, leaf last. *)
Fixpoint makedirs_rev (rp : list string) : St FS unit :=
  match rp with
  | [] => mkdir []
  | tail :: rhead => fun fs =>
      if exists_ fs (rev rhead) then mkdir (rev rp) fs
      else
        match makedirs_rev rhead fs with
        | (Ok _, fs1) | (Raise (FileExistsError _), fs1) =>
            if String.eqb tail "." then (Ok tt, fs1) else mkdir (rev rp) fs1
        | (Raise e, fs1) => (Raise e, fs1)
        end
  end.

Definition makedirs (p : Path) : St FS unit := makedirs_rev (rev p).

(** Text mode reads translate [\r\n] and [\r] to [\n]. *)
Fixpoint universal_newlines (s : string) : string :=
  match s with
  | EmptyString => EmptyString
  | String "013" (String "010" s') => String "010" (universal_newlines s')
  | String "013" s' => String "010" (universal_newlines s')
  | String c s' => String c (universal_newlines s')
  end.

(** [open(p).read()] *)
Definition read_text (fs : FS) (p : Path) : result string :=
  match fs !! p with
  | Some (File d) => Ok (universal_newlines d)
  | Some (ZipFile _) => Raise (ExternalError "UnicodeDecodeError")
  | Some Dir => Raise (IsADirectoryError p)
  | None => Raise (FileNotFoundError p)
  end.

(** [open(p, 'wb').write(data)]: creates or truncates a regular file.
    [fault] is the operating system refusing the write (read-only
    location, full disk). *)
Definition write_file (fault : Path -> option Exn) (p : Path) (data : string)
  : St FS unit := fun fs =>
  match fault p with
  | Some e => (Raise e, fs)
  | None =>
      match fs !! p with
      | Some Dir => (Raise (IsADirectoryError p), fs)
      | _ =>
          match fs !! dirname p with
          | Some Dir => (Ok tt, <[p := File data]> fs)
          | Some _ => (Raise (NotADirectoryError p), fs)
          | None => (Raise (FileNotFoundError p), fs)
          end
      end
  end.

End Os.

(* ===================================================================== *)
(** ** Python prelude: [zipfile] *)
(* ===================================================================== *)

Module Zipfile.

(** [ZipFile(path, mode='r')]: the members of the container at [p]. *)
Definition open_zip (fs : FS) (p : Path) : result (list (string * string)) :=
  match fs !! p with
  | Some (ZipFile z) => Ok z
  | Some (File _) => Raise (BadZipFile p)
  | Some Dir => Raise (IsADirectoryError p)
  | None => Raise (FileNotFoundError p)
  end.

(** [zipfile.is_zipfile(path)] *)
Definition is_zipfile (fs : FS) (p : Path) : bool :=
  match fs !! p with Some (ZipFile _) => true | _ => false end.

(** [zf.namelist()] *)
Definition namelist (z : list (string * string)) : list string := z.*1.

(** [zf.getinfo(name)]/[zf.read(name)]: the name table keeps the last
    member written under a name. *)
Fixpoint getinfo (z : list (string * string)) (name : string) : result string :=
  match z with
  | [] => Raise (KeyError name)
  | (n, d) :: z' =>
      match getinfo z' name with
      | Ok d' => Ok d'
      | Raise _ => if String.eqb n name then Ok d else Raise (KeyError name)
      end
  end.

(** [_extract_member]: the member name split on the separator, with the
    empty, [.] and [..] components dropped. *)
Definition sanitize (name : string) : list string :=
  filter (fun x => x ∉ [""; "."; ".."]) (Str.split "/" name).

(** [zf.extract(name, path=targetdir)] *)
Definition extract (fault : Path -> option Exn)
    (z : list (string * string)) (name : string) (targetdir : Path)
  : St FS Path :=
  data <- lift_result (getinfo z name) ;;
  let arcname := sanitize name in
  let is_dir := Str.endswith_char name "/" in
  (if bool_decide (arcname = []) && negb is_dir
   then raise ValueError_EmptyFilename else ret tt) ;;;
  let targetpath := targetdir ++ arcname in
  let upperdirs := Os.dirname targetpath in
  fs <- get ;;
  (if Os.exists_ fs upperdirs then ret tt else Os.makedirs upperdirs) ;;;
  if is_dir then
    fs <- get ;;
    (if Os.isdir fs targetpath then ret tt else Os.mkdir targetpath) ;;;
    ret targetpath
  else
    Os.write_file fault targetpath data ;;;
    ret targetpath.

(** [os.path.normpath]: the loop over the components.  [initial_slashes]
    says whether the path is absolute; [acc] holds the components kept so
    far, last one first. *)
Fixpoint normpath_comps (initial_slashes : bool) (acc comps : list string)
  : list string :=
  match comps with
  | [] => rev acc
  | c :: comps' =>
      if bool_decide (c ∈ [""; "."]) then
        normpath_comps initial_slashes acc comps'
      else if String.eqb c ".." then
        match acc with
        | [] =>
            if initial_slashes then normpath_comps initial_slashes [] comps'
            else normpath_comps initial_slashes [c] comps'
        | a :: acc' =>
            if String.eqb a ".."
            then normpath_comps initial_slashes (c :: acc) comps'
            else normpath_comps initial_slashes acc' comps'
        end
      else normpath_comps initial_slashes (c :: acc) comps'
  end.

(** The member name [ZipInfo.from_file] stores for [arcname]: the
    normalised path with its leading separators removed.  Indexing the
    first character of an arcname that normalises to the bare root
    fails. *)
Definition stored_name (arcname : string) : result string :=
  let initial_slashes := Str.startswith arcname "/" in
  match normpath_comps initial_slashes [] (Str.split "/" arcname) with
  | [] => if initial_slashes then Raise (ExternalError "IndexError") else Ok "."
  | ps => Ok (Str.join "/" ps)
  end.

(** [zf.write(filename, arcname=arcname)] for a regular file holding
    [data]. *)
Definition write (z : list (string * string)) (data arcname : string)
  : result (list (string * string)) :=
  match stored_name arcname with
  | Ok n => Ok (z ++ [(n, data)])
  | Raise e => Raise e
  end.

End Zipfile.

(* ===================================================================== *)
(** ** qiime2.core.util *)
(* ===================================================================== *)

Module Util.

Inductive CharClass := Hex | Dash | Four | Variant.

Definition in_class (k : CharClass) (c : ascii) : bool :=
  let n := nat_of_ascii c in
  match k with
  | Hex => (((48 <=? n) && (n <=? 57)) || ((97 <=? n) && (n <=? 102)))%nat
  | Dash => (n =? 45)%nat
  | Four => (n =? 52)%nat
  | Variant => ((n =? 56) || (n =? 57) || (n =? 97) || (n =? 98))%nat
  end.

Fixpoint matches (pat : list CharClass) (s : string) : bool :=
  match pat, s with
  | [], EmptyString => true
  | k :: pat', String c s' => in_class k c && matches pat' s'
  | _, _ => false
  end.

Definition uuid4_pattern : list CharClass :=
  repeat Hex 8 ++ [Dash] ++ repeat Hex 4 ++ [Dash; Four] ++ repeat Hex 3
  ++ [Dash; Variant] ++ repeat Hex 3 ++ [Dash] ++ repeat Hex 12.

(** Modelled from the spec: [qiime2.core.util.is_uuid4] is imported by the
    archiver and not defined in it.  The spec asks for a name that is a
    syntactically valid UUID version 4: the canonical text of 8-4-4-4-12
    lower-case hexadecimal digits whose version digit is 4 and whose
    variant digit is one of 8, 9, a, b. *)
Definition is_uuid4 (uuid_str : string) : bool := matches uuid4_pattern uuid_str.

End Util.

(* ===================================================================== *)
(** ** The archive backends *)
(* ===================================================================== *)

Inductive ArchiveKind := ZipKind | NoOpKind.

(** An instance of [_ZipArchive] or [_NoOpArchive] after [__init__]. *)
Record Archive := mkArchive {
  kind : ArchiveKind;
  path : Path;
  uuid : string;
  version : string;
  framework_version : string
}.

(** The [ArchiveRecord] named tuple. *)
Record ArchiveRecord := mkArchiveRecord {
  root : Path;
  version_fp : Path;
  r_uuid : string;
  r_version : string;
  r_framework_version : string
}.

(** A directory tree as [os.walk] sees it. *)
Inductive Tree : Type :=
  | TFile (data : string)
  | TDir (children : list (string * Tree)).

Module _Archive.

Definition VERSION_FILE : string := "VERSION".

Definition nl : string := String "010" EmptyString.

(** [_VERSION_TEMPLATE % (version, framework_version)] *)
Definition _VERSION_TEMPLATE (version framework_version : string) : string :=
  "QIIME 2" +:+ nl +:+ "archive: " +:+ version +:+ nl
  +:+ "framework: " +:+ framework_version +:+ nl.

Definition setup (fault : Path -> option Exn)
    (uuid : string) (path : Path) (version framework_version : string)
  : St FS ArchiveRecord :=
  let root_dir := path in
  let version_fp := root_dir ++ [VERSION_FILE] in
  Os.write_file fault version_fp (_VERSION_TEMPLATE version framework_version) ;;;
  ret (mkArchiveRecord root_dir version_fp uuid version framework_version).

(** [_Archive._get_uuid]; [iterdir] is what [self.relative_iterdir()]
    yields. *)
Definition _get_uuid (fs : FS) (path : Path) (iterdir : result (list string))
  : result string :=
  if negb (Os.exists_ fs path) then Raise (TypeError_NotAFilepath path)
  else
    names <~ iterdir ;;
    let roots : gset string :=
      list_to_set (filter (fun relpath => Str.startswith relpath "." = false) names) in
    if (size roots =? 0)%nat then Raise ValueError_NoVisibleRoot
    else if (1 <? size roots)%nat then Raise (ValueError_MultipleRoots (elements roots))
    else
      match elements roots with
      | uuid :: _ =>
          if negb (Util.is_uuid4 uuid) then Raise (ValueError_InvalidUUIDRoot uuid)
          else Ok uuid
      | [] => Raise (KeyError "pop from an empty set")
      end.

(** [l[1]] *)
Definition item1 (l : list string) : result string :=
  match l with
  | _ :: x :: _ => Ok x
  | _ => Raise (ExternalError "IndexError")
  end.

(** The [try] block of [_get_versions] on the text read from the VERSION
    file. *)
Definition parse_versions (text : string) : result (string * string) :=
  match Str.split "010" text with
  | [header; version_line; framework_version_line; eof] =>
      if negb (String.eqb (Str.strip header) "QIIME 2")
      then Raise (ExternalError "Exception")
      else
        version <~ item1 (Str.split ":" version_line) ;;
        framework_version <~ item1 (Str.split ":" framework_version_line) ;;
        Ok (Str.strip version, Str.strip framework_version)
  | _ => Raise ValueError_Unpack
  end.

(** [_Archive._get_versions]; [opened] is the outcome of
    [self.open(self.VERSION_FILE)] followed by [read()].  Every exception
    of the block becomes the one malformed-VERSION error. *)
Definition _get_versions (opened : result string) : result (string * string) :=
  match (text <~ opened ;; parse_versions text) with
  | Ok r => Ok r
  | Raise _ => Raise ValueError_MalformedVersion
  end.

End _Archive.

Module _ZipArchive.

Definition is_archive_type (fs : FS) (path : Path) : bool :=
  Zipfile.is_zipfile fs path.

(** [_as_zip_path] of a path given by its parts. *)
Definition _as_zip_path (ps : list string) : string :=
  let path := PosixPath.render ps in
  if String.eqb path "." then "" else path.

Fixpoint iterdir_loop (relpath : string) (seen : gset string)
    (names : list string) : list string :=
  match names with
  | [] => []
  | name :: names' =>
      if Str.startswith name relpath then
        match PosixPath.parts name with
        | result :: _ =>
            if bool_decide (result ∈ seen) then iterdir_loop relpath seen names'
            else result :: iterdir_loop relpath ({[result]} ∪ seen) names'
        | [] => iterdir_loop relpath seen names'
        end
      else iterdir_loop relpath seen names'
  end.

Definition relative_iterdir (fs : FS) (path : Path) (relpath : string)
  : result (list string) :=
  let relpath := _as_zip_path (PosixPath.parts relpath) in
  z <~ Zipfile.open_zip fs path ;;
  Ok (iterdir_loop relpath ∅ (Zipfile.namelist z)).

(** [self.open(relpath).read()] *)
Definition open (fs : FS) (path : Path) (uuid relpath : string) : result string :=
  let relpath := PosixPath.joinpath (PosixPath.parts uuid) relpath in
  z <~ Zipfile.open_zip fs path ;;
  data <~ Zipfile.getinfo z (_as_zip_path relpath) ;;
  Ok (Os.universal_newlines data).

Definition __init__ (fs : FS) (path : Path) : result Archive :=
  uuid <~ _Archive._get_uuid fs path (relative_iterdir fs path "") ;;
  vs <~ _Archive._get_versions (open fs path uuid _Archive.VERSION_FILE) ;;
  Ok (mkArchive ZipKind path uuid vs.1 vs.2).

Definition hidden (name : string) : bool := Str.startswith name ".".

(** [for file in files]: the visible files of one directory, with their
    absolute paths. *)
Definition walk_files (root : Path) (children : list (string * Tree))
  : list (Path * string) :=
  flat_map (fun nc : string * Tree =>
              let '(file, c) := nc in
              match c with
              | TFile data => if hidden file then [] else [(root ++ [file], data)]
              | TDir _ => []
              end) children.

(** The files [os.walk(source)] reaches once hidden directories are pruned
    and hidden files skipped, in walk order: the files of a directory
    first, then its sub-directories.  Each comes with its absolute
    path. *)
Fixpoint walk (root : Path) (t : Tree) : list (Path * string) :=
  match t with
  | TFile _ => []
  | TDir children =>
      walk_files root children
      ++ flat_map (fun nc : string * Tree =>
                     let '(d, c) := nc in
                     match c with
                     | TDir _ => if hidden d then [] else walk (root ++ [d]) c
                     | TFile _ => []
                     end) children
  end.

Fixpoint write_all (parent_dir : Path) (files : list (Path * string))
    (z : list (string * string)) : result (list (string * string)) * list (string * string) :=
  match files with
  | [] => (Ok z, z)
  | (abspath, data) :: files' =>
      let relpath := drop (length parent_dir) abspath in
      match Zipfile.write z data (_as_zip_path relpath) with
      | Ok z' => write_all parent_dir files' z'
      | Raise e => (Raise e, z)
      end
  end.

(** [_ZipArchive.save(source, destination)], where [t] is the directory
    tree found at [source].  The container is created first and holds the
    members written so far when a write fails. *)
Definition save (fault : Path -> option Exn)
    (source : Path) (t : Tree) (destination : Path) : St FS unit :=
  let parent_dir := Os.dirname source in
  Os.write_file fault destination "" ;;;
  let '(r, z) := write_all parent_dir (walk source t) [] in
  modify (fun fs => <[destination := ZipFile z]> fs) ;;;
  lift_result (_ <~ r ;; Ok tt).

Definition extract (fault : Path -> option Exn) (self : Archive) (filepath : Path)
  : St FS Path :=
  (if String.eqb (Os.basename filepath) (uuid self) then ret tt
   else raise AssertionError) ;;;
  fs <- get ;;
  z <- lift_result (Zipfile.open_zip fs (path self)) ;;
  for_each (Zipfile.namelist z) (fun name =>
    if Str.startswith name (uuid self)
    then Zipfile.extract fault z name (Os.dirname filepath) ;;; ret tt
    else ret tt) ;;;
  ret filepath.

Definition mount (fault : Path -> option Exn) (self : Archive) (filepath : Path)
  : St FS ArchiveRecord :=
  fs <- get ;;
  (if negb (Os.exists_ fs (filepath ++ ["VERSION"]))
   then extract fault self filepath ;;; ret tt
   else ret tt) ;;;
  let root := filepath in
  ret (mkArchiveRecord root (root ++ [_Archive.VERSION_FILE])
         (uuid self) (version self) (framework_version self)).

End _ZipArchive.

Module _NoOpArchive.

Definition is_archive_type (fs : FS) (path : Path) : bool := Os.isdir fs path.

Definition _get_uuid (path : Path) : string := Os.basename path.

Fixpoint iterdir_loop (relpath : string) (seen : gset string)
    (names : list string) : list string :=
  match names with
  | [] => []
  | name :: names' =>
      if Str.startswith name relpath && negb (bool_decide (name ∈ seen))
      then name :: iterdir_loop relpath ({[name]} ∪ seen) names'
      else iterdir_loop relpath seen names'
  end.

Definition relative_iterdir (fs : FS) (path : Path) (relpath : string)
  : list string :=
  iterdir_loop relpath ∅ (Os.listdir fs path).

(** [self.open(relpath).read()] *)
Definition open (fs : FS) (path : Path) (relpath : string) : result string :=
  Os.read_text fs (Os.join path relpath).

Definition __init__ (fs : FS) (path : Path) : result Archive :=
  let uuid := _get_uuid path in
  vs <~ _Archive._get_versions (open fs path _Archive.VERSION_FILE) ;;
  Ok (mkArchive NoOpKind path uuid vs.1 vs.2).

Definition mount (self : Archive) (path : Path) : St FS ArchiveRecord :=
  let root := path in
  ret (mkArchiveRecord root (root ++ [_Archive.VERSION_FILE])
         (uuid self) (version self) (framework_version self)).

End _NoOpArchive.

(** The variant the Jupyter handlers use: no [mount], no check of the
    path. *)
Module ArchiveCheck.

(** [self.open(relpath).read()] *)
Definition open (fs : FS) (path : Path) (relpath : string) : result string :=
  let abspath := Os.join path relpath in
  Os.read_text fs abspath.

(** [relative_iterdir]: the name of every entry of the directory; the
    relative path asked for plays no part. *)
Definition relative_iterdir (fs : FS) (path : Path) (relpath : string)
  : list string :=
  Os.listdir fs path.

Definition _get_uuid (path : Path) : string := Os.basename path.

(** [__init__], inherited from [_Archive]: the attributes [path], [uuid],
    [version] and [framework_version] of the instance. *)
Definition __init__ (fs : FS) (path : Path)
  : result (Path * string * string * string) :=
  let uuid := _get_uuid path in
  vs <~ _Archive._get_versions (open fs path _Archive.VERSION_FILE) ;;
  Ok (path, uuid, vs.1, vs.2).

End ArchiveCheck.

(* ===================================================================== *)
(** ** The world: file system, cache and collaborators *)
(* ===================================================================== *)

(** A format handler class, named by its locator (module, class). *)
Abbreviation FormatClass := (string * string)%type.

(** A bound format handler: [Format(rec)]. *)
Record Fmt := mkFmt {
  fmt_class : FormatClass;
  fmt_rec : ArchiveRecord
}.

(** The behaviour of everything the archiver calls and does not define: the
    operating system refusing a write, the cache, the format handlers, the
    UUID generator and the framework version.  A fault is the exception the
    collaborator raises, if it does.  Format handlers read and write the
    file system only. *)
Record Collab := mkCollab {
  io_fault : Path -> option Exn;
  allocate_fault : string -> option Exn;
  allocate_path : string -> Path;
  rename_fault : string -> option Exn;
  rename_alias : string -> string;
  data_path : string -> Path;
  alias_fault : string -> option Exn;
  alias_name : string -> string;
  fmt_init_fault : FormatClass -> ArchiveRecord -> FS -> option Exn;
  fmt_write : FormatClass -> ArchiveRecord -> St FS unit;
  fmt_load_metadata : FormatClass -> Archive -> FS -> result string;
  uuid4 : string;
  qiime2_version : string
}.

(** The process pool maps the name of each allocation (a temporary slot or
    an alias) to the UUID it is held for. *)
Record World := mkWorld {
  fs : FS;
  pool : gmap string string
}.

Definition on_fs {A} (m : St FS A) : St World A := fun w =>
  let (r, fs') := m (fs w) in (r, mkWorld fs' (pool w)).

Definition on_pool (f : gmap string string -> gmap string string) : St World unit :=
  fun w => (Ok tt, mkWorld (fs w) (f (pool w))).

(** The allocations held for [uuid]. *)
Definition allocations_for (uuid : string) (w : World) : gmap string string :=
  filter (fun kv => kv.2 = uuid) (pool w).

(** The cache's allocation count. *)
Definition allocation_count (w : World) : nat := size (pool w).

Module Cache.
Section Cache.
Variable c : Collab.

Definition rebase (src dst p : Path) : Path :=
  if bool_decide (src `prefix_of` p) then dst ++ drop (length src) p else p.

Definition fs_move (src dst : Path) (fs : FS) : FS :=
  filter (fun kv => ¬ src `prefix_of` kv.1) fs
  ∪ list_to_map (prod_map (rebase src dst) id
                   <$> map_to_list (filter (fun kv => src `prefix_of` kv.1) fs)).

(** Modelled from the spec: [cache.process_pool._allocate] belongs to
    [qiime2.core.cache], which the archiver imports.  The spec's
    [allocate(uuid) -> path] hands out a temporary slot keyed by the UUID
    and yields a directory for it. *)
Definition _allocate (uuid : string) : St World Path :=
  match allocate_fault c uuid with
  | Some e => raise e
  | None =>
      let path := allocate_path c uuid in
      on_fs (fs <- get ;; if Os.exists_ fs path then ret tt else Os.makedirs path) ;;;
      on_pool (insert uuid uuid) ;;;
      ret path
  end.

(** Modelled from the spec: [cache._rename_to_data] of
    [qiime2.core.cache].  The spec's [rename_to_stable(uuid, tmp_path) ->
    (alias, stable_path)] renames the temporary slot into a stable slot in
    one step and hands back an alias for it; the temporary slot is no
    more, and content already at the stable path is kept. *)
Definition _rename_to_data (uuid : string) (src : Path) : St World (string * Path) :=
  match rename_fault c uuid with
  | Some e => raise e
  | None =>
      let alias := rename_alias c uuid in
      let dest := data_path c uuid in
      on_fs (modify (fs_move src dest)) ;;;
      on_pool (fun p => <[alias := uuid]> (delete uuid p)) ;;;
      ret (alias, dest)
  end.

(** Modelled from the spec: [cache._alias] of [qiime2.core.cache], the
    spec's [alias_for(existing_name) -> alias]. *)
Definition _alias (uuid : string) : St World string :=
  match alias_fault c uuid with
  | Some e => raise e
  | None =>
      let alias := alias_name c uuid in
      on_pool (insert alias uuid) ;;; ret alias
  end.

(** Modelled from the spec: [cache.process_pool.remove] of
    [qiime2.core.cache], the spec's [remove_from_pool(alias)]: the named
    allocation is dropped from the pool. *)
Definition remove (name : string) : St World unit := on_pool (delete name).

End Cache.
End Cache.

(* ===================================================================== *)
(** ** The Archiver *)
(* ===================================================================== *)

(** A bound handle, the instance [Archiver.__init__] builds. *)
Record Handle := mkHandle {
  h_path : Path;
  process_alias : string;
  _fmt : Fmt
}.

Record ChecksumDiff := mkChecksumDiff {
  added : gmap string string;
  removed : gmap string string;
  changed : gmap string (string * string)
}.

(** The state of a [load] or [from_data] call inside its [try] statement:
    the world, and the local variable [process_alias] once it is bound. *)
Abbreviation Frame := (World * option string)%type.

Definition in_world {A} (m : St World A) : St Frame A := fun f =>
  let (r, w') := m f.1 in (r, (w', f.2)).

(** [process_alias = alias] *)
Definition bind_process_alias (alias : string) : St Frame unit := fun f =>
  (Ok tt, (f.1, Some alias)).

(** ['process_alias' in vars()] *)
Definition process_alias_in_vars : St Frame (option string) := fun f => (Ok f.2, f).

Module Archiver.

Definition CURRENT_FORMAT_VERSION : string := "5".

Definition _FORMAT_REGISTRY : gmap string string :=
  <["0" := "qiime2.core.archive.format.v0:ArchiveFormat"]>
  (<["1" := "qiime2.core.archive.format.v1:ArchiveFormat"]>
  (<["2" := "qiime2.core.archive.format.v2:ArchiveFormat"]>
  (<["3" := "qiime2.core.archive.format.v3:ArchiveFormat"]>
  (<["4" := "qiime2.core.archive.format.v4:ArchiveFormat"]>
  (<["5" := "qiime2.core.archive.format.v5:ArchiveFormat"]> ∅))))).

(** [d[key]] *)
Definition getitem (d : gmap string string) (key : string) : result string :=
  match d !! key with
  | Some v => Ok v
  | None => Raise (KeyError key)
  end.

Definition get_format_class (version : string) : result (option FormatClass) :=
  match (loc <~ getitem _FORMAT_REGISTRY version ;;
         match Str.split ":" loc with
         | [imp; fmt_cls] => Ok (imp, fmt_cls)
         | _ => Raise ValueError_Unpack
         end) with
  | Raise (KeyError _) => Ok None
  | Raise e => Raise e
  | Ok cls => Ok (Some cls)
  end.

Definition get_archive (fs : FS) (filepath : Path) : result Archive :=
  if negb (Os.exists_ fs filepath) then Raise (ValueError_DoesNotExist filepath)
  else if _ZipArchive.is_archive_type fs filepath then _ZipArchive.__init__ fs filepath
  else if _NoOpArchive.is_archive_type fs filepath then _NoOpArchive.__init__ fs filepath
  else Raise (ValueError_NotAnArchive filepath).

Definition futuristic_message (filepath : Path) (archive : Archive) : string :=
  Os.path_str filepath +:+ " was created by 'QIIME "
  +:+ framework_version archive
  +:+ "'. The currently installed framework cannot interpret archive version "
  +:+ Str.repr (version archive) +:+ ".".

Definition _futuristic_archive_error {S A} (filepath : Path) (archive : Archive)
  : St S A :=
  raise (ValueError_Futuristic (futuristic_message filepath archive)).

(** [isinstance(fmt, cls)]: the registered handlers are distinct classes,
    none derived from the newest one. *)
Definition isinstance (fmt : Fmt) (cls : FormatClass) : bool :=
  bool_decide (fmt_class fmt = cls).

Section Archiver.
Variable c : Collab.

Definition _make_temp_path (uuid : string) : St World Path :=
  Cache._allocate c uuid.

Definition _destroy_temp_path (process_alias : string) : St World unit :=
  Cache.remove process_alias.

(** [archive.mount(path)], by the class of the instance. *)
Definition mount (archive : Archive) (path : Path) : St FS ArchiveRecord :=
  match kind archive with
  | ZipKind => _ZipArchive.mount (io_fault c) archive path
  | NoOpKind => _NoOpArchive.mount archive path
  end.

(** [Format(rec)] *)
Definition Format_init (Format : FormatClass) (rec : ArchiveRecord) : St FS Fmt :=
  fs <- get ;;
  match fmt_init_fault c Format rec fs with
  | Some e => raise e
  | None => ret (mkFmt Format rec)
  end.

Definition peek (filepath : Path) : St World string :=
  w <- get ;;
  archive <- lift_result (get_archive (fs w) filepath) ;;
  Format <- lift_result (get_format_class (version archive)) ;;
  (if Format is None then _futuristic_archive_error filepath archive else ret tt) ;;;
  match Format with
  | Some F => w <- get ;; lift_result (fmt_load_metadata c F archive (fs w))
  | None => raise (AttributeError "load_metadata")
  end.

Definition extract (filepath dest : Path) : St World Path :=
  w <- get ;;
  archive <- lift_result (get_archive (fs w) filepath) ;;
  let dest := Os.join dest (uuid archive) in
  on_fs (Os.makedirs dest) ;;;
  match kind archive with
  | ZipKind => on_fs (_ZipArchive.extract (io_fault c) archive dest)
  | NoOpKind => raise (AttributeError "extract")
  end.

(** The [try] block of [load]. *)
Definition load_try (filepath : Path) (archive : Archive) (path : Path)
  : St Frame Handle :=
  Format <- lift_result (get_format_class (version archive)) ;;
  (if Format is None then _futuristic_archive_error filepath archive else ret tt) ;;;
  in_world (on_fs (mount archive path)) ;;;
  r <- in_world (Cache._rename_to_data c (uuid archive) path) ;;
  bind_process_alias r.1 ;;;
  let data_path := r.2 in
  let rec := mkArchiveRecord data_path (data_path ++ [_Archive.VERSION_FILE])
               (uuid archive) (version archive) (framework_version archive) in
  match Format with
  | Some F =>
      fmt <- in_world (on_fs (Format_init F rec)) ;;
      ret (mkHandle data_path r.1 fmt)
  | None => raise (ExternalError "TypeError")
  end.

(** The bare [except] clause shared by [load] and [from_data]; the
    [raise] that ends it is [try_except_reraise]. *)
Definition rollback (uuid : string) : St Frame unit :=
  in_world (_destroy_temp_path uuid) ;;;
  bound <- process_alias_in_vars ;;
  match bound with
  | Some process_alias => in_world (_destroy_temp_path process_alias)
  | None => ret tt
  end.

(** Runs a [try] statement of the call in a fresh frame. *)
Definition with_frame {A} (m : St Frame A) : St World A := fun w =>
  let (r, f) := m (w, None) in (r, f.1).

Definition load (filepath : Path) : St World Handle :=
  w <- get ;;
  archive <- lift_result (get_archive (fs w) filepath) ;;
  path <- _make_temp_path (uuid archive) ;;
  with_frame (try_except_reraise (load_try filepath archive path)
                                 (rollback (uuid archive))).

Definition load_raw (filepath : Path) : St World Handle :=
  w <- get ;;
  archive <- lift_result (get_archive (fs w) filepath) ;;
  process_alias <- Cache._alias c (uuid archive) ;;
  Format <- lift_result (get_format_class (version archive)) ;;
  (if Format is None then _futuristic_archive_error filepath archive else ret tt) ;;;
  let path := filepath in
  rec <- on_fs (mount archive path) ;;
  match Format with
  | Some F =>
      fmt <- on_fs (Format_init F rec) ;;
      ret (mkHandle path process_alias fmt)
  | None => raise (ExternalError "TypeError")
  end.

(** The [try] block of [from_data]. *)
Definition from_data_try (uuid : string) (path : Path) : St Frame Handle :=
  rec <- in_world (on_fs (_Archive.setup (io_fault c) uuid path
                            CURRENT_FORMAT_VERSION (qiime2_version c))) ;;
  Format <- lift_result (get_format_class CURRENT_FORMAT_VERSION) ;;
  match Format with
  | Some F =>
      in_world (on_fs (fmt_write c F rec)) ;;;
      r <- in_world (Cache._rename_to_data c uuid path) ;;
      bind_process_alias r.1 ;;;
      let data_path := r.2 in
      let rec := mkArchiveRecord data_path (data_path ++ [_Archive.VERSION_FILE])
                   uuid CURRENT_FORMAT_VERSION (qiime2_version c) in
      fmt <- in_world (on_fs (Format_init F rec)) ;;
      ret (mkHandle data_path r.1 fmt)
  | None => raise (AttributeError "write")
  end.

Definition from_data : St World Handle :=
  let uuid := uuid4 c in
  path <- _make_temp_path uuid ;;
  with_frame (try_except_reraise (from_data_try uuid path) (rollback uuid)).

(** [Archiver.save]; [t] is the tree found at the handle's path. *)
Definition save (self : Handle) (t : Tree) (filepath : Path) : St FS unit :=
  _ZipArchive.save (io_fault c) (h_path self) t filepath.

End Archiver.

(** [dict(pairs)]: later pairs replace earlier ones. *)
Definition dict_of_pairs (pairs : list (string * string)) : gmap string string :=
  foldl (fun d kv => <[kv.1 := kv.2]> d) ∅ pairs.

(** [validate_checksums].  [checksum_file] is [self._fmt.CHECKSUM_FILE],
    [md5sums] what [md5sum_directory(str(self.root_dir))] returns and
    [manifest] the pairs [from_checksum_format] reads from the lines of
    the manifest. *)
Definition validate_checksums (self : Handle) (checksum_file : string)
    (md5sums : gmap string string) (manifest : list (string * string))
  : result ChecksumDiff :=
  v5 <~ get_format_class "5" ;;
  match v5 with
  | None => Raise (ExternalError "TypeError")
  | Some cls =>
      if negb (isinstance (_fmt self) cls) then Ok (mkChecksumDiff ∅ ∅ ∅)
      else
        let obs : gmap string string :=
          filter (fun x => x.1 ≠ checksum_file) md5sums in
        let exp := dict_of_pairs manifest in
        let obs_keys : gset string := dom obs in
        let exp_keys : gset string := dom exp in
        let added : gmap string string :=
          set_to_map (fun x => (x, obs !!! x)) (obs_keys ∖ exp_keys) in
        let removed : gmap string string :=
          set_to_map (fun x => (x, exp !!! x)) (exp_keys ∖ obs_keys) in
        let changed : gmap string (string * string) :=
          set_to_map (fun x => (x, (exp !!! x, obs !!! x)))
            (filter (fun x => exp !!! x ≠ obs !!! x) (exp_keys ∩ obs_keys)) in
        Ok (mkChecksumDiff added removed changed)
  end.

End Archiver.

(* ===================================================================== *)
(** ** Words of the specification *)
(* ===================================================================== *)

Module Spec.

(** The exact VERSION template of the specification: the literal header
    line, [archive: <version>], [framework: <framework_version>] and a
    trailing empty segment when the text is split on newline. *)
Definition exact_template (text : string) : Prop :=
  exists version framework_version,
    Str.split "010" text =
      ["QIIME 2"; "archive: " +:+ version;
       "framework: " +:+ framework_version; ""].

(** The first path component of every member of a container. *)
Definition top_level_entries (z : list (string * string)) : gset string :=
  list_to_set (omap (fun name => head (PosixPath.parts name)) (Zipfile.namelist z)).

(** The visible (not dot-prefixed) top-level entries. *)
Definition visible_roots (z : list (string * string)) : gset string :=
  filter (fun r => Str.startswith r "." = false) (top_level_entries z).

(** [p] lies strictly below the directory [d] and reaches it without a
    parent-directory segment. *)
Definition inside (d p : Path) : Prop :=
  exists rest, p = d ++ rest /\ rest <> [] /\ ".." ∉ rest.

(** A version string the template renders and the parser reads back
    unchanged: no newline, no colon, no surrounding white space. *)
Definition plain (s : string) : Prop :=
  Str.contains "010" s = false /\ Str.contains ":" s = false /\ Str.strip s = s.

(** Names a directory listing can hold. *)
Definition valid_name (n : string) : Prop :=
  n <> "" /\ n <> "." /\ n <> ".." /\ Str.contains "/" n = false.

(** The entry of a directory listing called [n]. *)
Fixpoint child (children : list (string * Tree)) (n : string) : option Tree :=
  match children with
  | [] => None
  | (m, c) :: children' => if String.eqb m n then Some c else child children' n
  end.

(** A tree whose listings hold valid, pairwise distinct names. *)
Fixpoint wf_tree (t : Tree) : Prop :=
  match t with
  | TFile _ => True
  | TDir children =>
      NoDup children.*1 /\
      (fix all (l : list (string * Tree)) : Prop :=
         match l with
         | [] => True
         | (n, c) :: l' => valid_name n /\ wf_tree c /\ all l'
         end) children
  end.

(** What the tree [t] holds at the relative path [q] once hidden entries
    are left out: the bytes of a file, if any. *)
Fixpoint visible_file (t : Tree) (q : list string) {struct q} : option string :=
  match q with
  | [] => match t with TFile data => Some data | TDir _ => None end
  | n :: q' =>
      match t with
      | TDir children =>
          if _ZipArchive.hidden n then None
          else match child children n with
               | Some c => visible_file c q'
               | None => None
               end
      | TFile _ => None
      end
  end.

(** A destination with nothing below [d/u], where [d/u] itself is absent
    or an empty directory. *)
Definition fresh_below (d : Path) (u : string) (fs : FS) : Prop :=
  map_Forall (fun (p : Path) (n : Node) =>
                (d ++ [u]) `prefix_of` p -> p = d ++ [u] /\ n = Dir) fs.

(** The members save writes for the files [(A, data)], [A] being the
    components of the member name. *)
Definition members_of (files : list (Path * string)) : list (string * string) :=
  map (fun Ad : Path * string => (Str.join "/" Ad.1, Ad.2)) files.

(** Below [d], under the root [u], the file system holds only what
    [files] holds: its files with their content, and directories that lead
    to them. *)
Definition agrees (d : Path) (u : string) (files : list (Path * string))
    (fs : FS) : Prop :=
  fs !! d = Some Dir
  /\ forall A n, head A = Some u -> fs !! (d ++ A) = Some n ->
       (n = Dir /\ exists r data, r <> [] /\ (A ++ r, data) ∈ files)
       \/ (exists data, n = File data /\ (A, data) ∈ files).

(** The frame a [try] block of [load] or [from_data] leaves behind: either
    [process_alias] is not bound and the pool is as the allocation left it,
    or the rename took place and [process_alias] names the alias it
    made. *)
Definition frame_ok (c : Collab) (u : string) (w1 : World) (f : Frame) : Prop :=
  (f.2 = None /\ pool f.1 = pool w1)
  \/ (f.2 = Some (rename_alias c u)
      /\ pool f.1 = <[rename_alias c u := u]> (delete u (pool w1))).

End Spec.

(* ===================================================================== *)
(** ** Sample inputs *)
(* ===================================================================== *)

Module Sample.

Definition U : string := "770509e6-85f4-432c-9663-cdc04eb07db2".

Definition version_text : string := _Archive._VERSION_TEMPLATE "5" "2023.2.0".

(** A VERSION text that is not the template: other keys, a fourth segment
    that is not empty. *)
Definition loose_text : string :=
  "QIIME 2" +:+ _Archive.nl +:+ "foo: 5" +:+ _Archive.nl
  +:+ "bar: 2023.2.0" +:+ _Archive.nl +:+ "junk".

Definition future_text : string := _Archive._VERSION_TEMPLATE "99" "2031.1.0".

(** A container with a member that points above its root. *)
Definition members : list (string * string) :=
  [(U +:+ "/VERSION", version_text);
   (U +:+ "/data/x.txt", "hello");
   (U +:+ "/../../evil", "boo")].

Definition future_members : list (string * string) :=
  [(U +:+ "/VERSION", future_text)].

Definition disk : FS :=
  <[ ["in"; "a.qza"] := ZipFile members ]>
  (<[ ["in"; "future.qza"] := ZipFile future_members ]>
  (<[ ["in"] := Dir ]>
  (<[ ["out"] := Dir ]>
  (<[ ["out"; U] := Dir ]>
  (<[ ["pool"] := Dir ]>
  (<[ ["pool"; "not-a-uuid"] := Dir ]>
  (<[ ["pool"; "not-a-uuid"; "VERSION"] := File version_text ]>
  (<[ ["pool"; "not-a-uuid"; "a"] := Dir ]>
  (<[ ["pool"; "not-a-uuid"; "b"] := File "" ]>
  (<[ [] := Dir ]> ∅)))))))))).

Definition world : World := mkWorld disk ∅.

(** Collaborators that never fail. *)
Definition calm : Collab :=
  mkCollab (fun _ => None)
    (fun _ => None) (fun u => ["cache"; "proc"; u])
    (fun _ => None) (fun u => "alias-" +:+ u) (fun u => ["cache"; "data"; u])
    (fun _ => None) (fun u => "alias-" +:+ u)
    (fun _ _ _ => None) (fun _ _ => ret tt) (fun _ _ _ => Ok "metadata")
    U "2023.2.0".

(** The format handler constructor fails: the failure comes after the
    rename. *)
Definition late_failure : Collab :=
  mkCollab (fun _ => None)
    (fun _ => None) (fun u => ["cache"; "proc"; u])
    (fun _ => None) (fun u => "alias-" +:+ u) (fun u => ["cache"; "data"; u])
    (fun _ => None) (fun u => "alias-" +:+ u)
    (fun _ _ _ => Some (ExternalError "KeyboardInterrupt"))
    (fun _ _ => ret tt) (fun _ _ _ => Ok "metadata")
    U "2023.2.0".

Definition v5_handle : Handle :=
  mkHandle ["cache"; "data"; U] ("alias-" +:+ U)
    (mkFmt ("qiime2.core.archive.format.v5", "ArchiveFormat")
       (mkArchiveRecord ["cache"; "data"; U] ["cache"; "data"; U; "VERSION"]
          U "5" "2023.2.0")).

Definition archive_a : Archive :=
  mkArchive ZipKind ["in"; "a.qza"] U "5" "2023.2.0".

Definition archive_future : Archive :=
  mkArchive ZipKind ["in"; "future.qza"] U "99" "2031.1.0".

Definition slot : Path := ["cache"; "proc"; U].

(** The world once the temporary slot is allocated, and the frame in
    which the [try] block of [load] stops when the handler constructor
    is interrupted. *)
Definition world_allocated : World :=
  (Archiver._make_temp_path late_failure U world).2.

Definition frame_interrupted : Frame :=
  (Archiver.load_try late_failure ["in"; "a.qza"] archive_a slot
     (world_allocated, None)).2.

(** The outcome of extracting the sample container into [out/<uuid>], and
    of mounting it into the slot. *)
Definition extracted : result Path * FS :=
  _ZipArchive.extract (fun _ => None) archive_a ["out"; U] disk.

Definition mounted : result ArchiveRecord * FS :=
  Archiver.mount calm archive_a slot disk.

Definition source_tree : Tree :=
  TDir [("VERSION", TFile version_text);
        (".DS_Store", TFile "junk");
        ("data", TDir [("x.txt", TFile "hello"); (".hidden", TFile "h")]);
        (".git", TDir [("config", TFile "c")])].

End Sample.

(* ===================================================================== *)
(** ** Lemmas on the prelude *)
(* ===================================================================== *)

Section StrLemmas.

Lemma split_nonempty sep s : Str.split sep s <> [].
Proof.
  destruct s as [|c s]; simpl; [discriminate|].
  destruct (Ascii.eqb c sep); [discriminate|].
  destruct (Str.split sep s); discriminate.
Qed.

Lemma split_length sep s : length (Str.split sep s) = S (Str.count sep s).
Proof.
  induction s as [|c s IH]; simpl; [reflexivity|].
  destruct (Ascii.eqb c sep); simpl; [now rewrite IH|].
  destruct (Str.split sep s) eqn:E; simpl in *; [discriminate|exact IH].
Qed.

Lemma count_contains sep s :
  Str.contains sep s = true <-> (0 < Str.count sep s)%nat.
Proof.
  induction s as [|c s IH]; simpl; [split; [discriminate|lia]|].
  destruct (Ascii.eqb c sep); simpl; [split; [lia|reflexivity]|].
  exact IH.
Qed.

Lemma split_no_sep sep s : Str.contains sep s = false -> Str.split sep s = [s].
Proof.
  induction s as [|c s IH]; simpl; [reflexivity|].
  destruct (Ascii.eqb c sep); simpl; [discriminate|].
  intros H. now rewrite (IH H).
Qed.

Lemma split_app_sep sep a b :
  Str.contains sep a = false ->
  Str.split sep (a +:+ String sep b) = a :: Str.split sep b.
Proof.
  induction a as [|c a IH]; simpl.
  - intros _. now rewrite Ascii.eqb_refl.
  - destruct (Ascii.eqb c sep); simpl; [discriminate|].
    intros H. now rewrite (IH H).
Qed.

Lemma contains_app sep a b :
  Str.contains sep (a +:+ b) = Str.contains sep a || Str.contains sep b.
Proof.
  induction a as [|c a IH]; simpl; [reflexivity|].
  rewrite IH. now rewrite orb_assoc.
Qed.

Lemma app_cons x (a b : string) : String x a +:+ b = String x (a +:+ b).
Proof. reflexivity. Qed.

Lemma app_assoc_str (a b c : string) : (a +:+ b) +:+ c = a +:+ (b +:+ c).
Proof.
  induction a as [|x a IH]; [reflexivity|].
  rewrite !app_cons. now rewrite IH.
Qed.

Lemma split_join sep (l : list string) :
  l <> [] ->
  Forall (fun x => Str.contains sep x = false) l ->
  Str.split sep (Str.join (String sep EmptyString) l) = l.
Proof.
  induction l as [|x l IH]; [congruence|].
  intros _ Hall. inversion Hall as [|? ? Hx Hl]; subst.
  destruct l as [|y l].
  - simpl. now apply split_no_sep.
  - change (Str.join (String sep "") (x :: y :: l))
      with (x +:+ String sep "" +:+ Str.join (String sep "") (y :: l)).
    change (String sep "" +:+ Str.join (String sep "") (y :: l))
      with (String sep (Str.join (String sep "") (y :: l))).
    rewrite split_app_sep by assumption.
    f_equal. apply IH; [discriminate|assumption].
Qed.

Lemma startswith_app s b : Str.startswith (s +:+ b) s = true.
Proof.
  induction s as [|c s IH]; simpl; [reflexivity|].
  now rewrite Ascii.eqb_refl.
Qed.

Lemma substring_of_start sub s :
  Str.startswith s sub = true -> Str.substring_of sub s = true.
Proof. intros H. destruct s; simpl; rewrite H; reflexivity. Qed.

Lemma substring_of_app sub a b :
  Str.substring_of sub (a +:+ sub +:+ b) = true.
Proof.
  induction a as [|c a IH].
  - change ("" +:+ sub +:+ b) with (sub +:+ b).
    apply substring_of_start, startswith_app.
  - rewrite app_cons. simpl. rewrite IH. apply orb_true_r.
Qed.

Lemma item1_split sep s :
  is_Ok (_Archive.item1 (Str.split sep s)) = Str.contains sep s.
Proof.
  pose proof (split_length sep s) as HL.
  pose proof (count_contains sep s) as HC.
  destruct (Str.split sep s) as [|a [|b l]]; simpl in *.
  - discriminate.
  - destruct (Str.contains sep s); [|reflexivity].
    assert (0 < Str.count sep s)%nat by now apply HC. lia.
  - symmetry. apply HC. lia.
Qed.

Lemma item1_nth l :
  is_Ok (_Archive.item1 l) = true -> _Archive.item1 l = Ok (nth 1 l "").
Proof. destruct l as [|a [|b l]]; simpl; intros; congruence. Qed.

Lemma item1_fail l :
  is_Ok (_Archive.item1 l) = false ->
  _Archive.item1 l = Raise (ExternalError "IndexError").
Proof. destruct l as [|a [|b l]]; simpl; intros; congruence. Qed.

Lemma strip_plain_after_space s :
  Str.strip s = s -> Str.strip (String " " s) = s.
Proof. intros H. unfold Str.strip in *. simpl. exact H. Qed.

End StrLemmas.

(* ===================================================================== *)
(** ** The VERSION parser *)
(* ===================================================================== *)

Section VersionParser.

Lemma nl_app (x : string) : _Archive.nl +:+ x = String "010" x.
Proof. reflexivity. Qed.

Lemma template_lines v fv :
  Str.contains "010" v = false -> Str.contains "010" fv = false ->
  Str.split "010" (_Archive._VERSION_TEMPLATE v fv)
  = ["QIIME 2"; "archive: " +:+ v; "framework: " +:+ fv; ""].
Proof.
  intros Hv Hf. unfold _Archive._VERSION_TEMPLATE.
  rewrite !nl_app.
  rewrite split_app_sep by reflexivity.
  rewrite <- (app_assoc_str "archive: " v).
  rewrite split_app_sep; [|rewrite contains_app, Hv; reflexivity].
  change _Archive.nl with (String "010" "").
  rewrite <- (app_assoc_str "framework: " fv).
  rewrite split_app_sep; [|rewrite contains_app, Hf; reflexivity].
  reflexivity.
Qed.

Lemma field_of_line (key v : string) :
  Str.contains ":" key = false -> Spec.plain v ->
  (x <~ _Archive.item1 (Str.split ":" (key +:+ ": " +:+ v)) ;; Ok (Str.strip x))
  = Ok v.
Proof.
  intros Hk (_ & Hc & Hs).
  change (key +:+ ": " +:+ v) with (key +:+ String ":" (String " " v)).
  rewrite split_app_sep by assumption.
  rewrite split_no_sep by (simpl; exact Hc).
  simpl. now rewrite strip_plain_after_space.
Qed.

Lemma parse_template v fv :
  Spec.plain v -> Spec.plain fv ->
  _Archive.parse_versions (_Archive._VERSION_TEMPLATE v fv) = Ok (v, fv).
Proof.
  intros Hv Hf. unfold _Archive.parse_versions.
  rewrite template_lines by (apply Hv || apply Hf).
  change (negb (String.eqb (Str.strip "QIIME 2") "QIIME 2")) with false.
  cbv iota.
  pose proof (field_of_line "archive" v eq_refl Hv) as H1.
  pose proof (field_of_line "framework" fv eq_refl Hf) as H2.
  change ("archive" +:+ ": " +:+ v) with ("archive: " +:+ v) in H1.
  change ("framework" +:+ ": " +:+ fv) with ("framework: " +:+ fv) in H2.
  destruct (_Archive.item1 (Str.split ":" ("archive: " +:+ v))) as [x|e];
    simpl in H1; [|discriminate].
  destruct (_Archive.item1 (Str.split ":" ("framework: " +:+ fv))) as [y|e];
    simpl in H2; [|discriminate].
  simpl. congruence.
Qed.

Lemma get_versions_single_error opened :
  (exists r, _Archive._get_versions opened = Ok r)
  \/ _Archive._get_versions opened = Raise ValueError_MalformedVersion.
Proof.
  unfold _Archive._get_versions.
  destruct (rbind opened _) as [r|e]; [left; eauto|right; reflexivity].
Qed.

End VersionParser.

(** C4, as amended.  The parser accepts a text exactly when it has three
    newlines, its first line is [QIIME 2] up to surrounding white space and
    its second and third lines each hold a colon; it then returns, for each
    of the two lines, the stripped text between the first and the second
    colon.  Every other text, and every failure to open the file, gives the
    one malformed-VERSION error.  A text rendered from the template with
    plain version strings parses to those strings. *)
Theorem get_versions_characterised (text : string) :
  let lines := Str.split "010" text in
  let accepted :=
    Str.count "010" text = 3
    /\ Str.strip (nth 0 lines "") = "QIIME 2"
    /\ Str.contains ":" (nth 1 lines "") = true
    /\ Str.contains ":" (nth 2 lines "") = true in
  (accepted ->
   _Archive._get_versions (Ok text)
   = Ok (Str.strip (nth 1 (Str.split ":" (nth 1 lines "")) ""),
         Str.strip (nth 1 (Str.split ":" (nth 2 lines "")) "")))
  /\ (~ accepted ->
      _Archive._get_versions (Ok text) = Raise ValueError_MalformedVersion)
  /\ (forall e, _Archive._get_versions (Raise e) = Raise ValueError_MalformedVersion)
  /\ (forall v fv, Spec.plain v -> Spec.plain fv ->
        text = _Archive._VERSION_TEMPLATE v fv ->
        _Archive._get_versions (Ok text) = Ok (v, fv)).
Proof.
  intros lines accepted.
  pose proof (split_length "010" text) as HL. fold lines in HL.
  assert (Hparse : _Archive._get_versions (Ok text) =
     match lines with
     | [h; l2; l3; _] =>
         if negb (String.eqb (Str.strip h) "QIIME 2")
         then Raise ValueError_MalformedVersion
         else match _Archive.item1 (Str.split ":" l2),
                    _Archive.item1 (Str.split ":" l3) with
              | Ok a, Ok b => Ok (Str.strip a, Str.strip b)
              | _, _ => Raise ValueError_MalformedVersion
              end
     | _ => Raise ValueError_MalformedVersion
     end).
  { unfold _Archive._get_versions, _Archive.parse_versions. simpl rbind.
    fold lines.
    destruct lines as [|h [|l2 [|l3 [|eof [|x l]]]]]; try reflexivity.
    destruct (negb _); [reflexivity|].
    destruct (_Archive.item1 (Str.split ":" l2)); simpl; [|reflexivity].
    destruct (_Archive.item1 (Str.split ":" l3)); reflexivity. }
  split; [|split; [|split]].
  - intros (Hc & Hh & H2 & H3). rewrite Hparse.
    destruct lines as [|h [|l2 [|l3 [|eof [|x l]]]]]; simpl in HL; try lia.
    simpl in Hh, H2, H3. simpl nth. rewrite Hh. simpl negb. cbv iota.
    rewrite !item1_nth by (rewrite item1_split; assumption). reflexivity.
  - intros Hna. rewrite Hparse.
    destruct lines as [|h [|l2 [|l3 [|eof [|x l]]]]]; try reflexivity.
    destruct (String.eqb (Str.strip h) "QIIME 2") eqn:Eh; [|reflexivity].
    apply String.eqb_eq in Eh. simpl negb. cbv iota.
    pose proof (item1_split ":" l2) as I2.
    pose proof (item1_split ":" l3) as I3.
    destruct (_Archive.item1 (Str.split ":" l2)); [|reflexivity].
    destruct (_Archive.item1 (Str.split ":" l3)); [|reflexivity].
    exfalso. apply Hna. simpl in HL. simpl in I2, I3.
    repeat split; simpl; congruence || lia.
  - intros e. reflexivity.
  - intros v fv Hv Hf ->. unfold _Archive._get_versions. simpl rbind.
    now rewrite parse_template.
Qed.

(** The example of the specification, read through the theorem. *)
Lemma get_versions_characterised_witness :
  _Archive._get_versions (Ok Sample.version_text) = Ok ("5", "2023.2.0").
Proof.
  refine (proj2 (proj2 (proj2 (get_versions_characterised Sample.version_text)))
            "5" "2023.2.0" _ _ eq_refl);
    repeat split; reflexivity.
Defined.

(** C4, as stated, fails: a text with other keys and a fourth segment that
    is not empty is not the exact template, and it parses. *)
Lemma get_versions_accepts_non_template :
  ~ Spec.exact_template Sample.loose_text
  /\ _Archive._get_versions (Ok Sample.loose_text) = Ok ("5", "2023.2.0").
Proof.
  split; [|reflexivity].
  intros (v & fv & H). vm_compute in H. discriminate H.
Qed.

(* ===================================================================== *)
(** ** The format registry and the lifecycle operations *)
(* ===================================================================== *)

Ltac run_st :=
  cbv beta iota delta
    [bind ret raise get modify lift_result try_except_reraise
     in_world on_fs on_pool bind_process_alias process_alias_in_vars
     Archiver.with_frame Archiver._futuristic_archive_error
     Archiver.rollback Archiver._destroy_temp_path Cache.remove
     fst snd].

(** Closes [m = (r, s)] when [s] is the state [m] computes and [r] its
    outcome, without writing the state out. *)
Ltac by_outcome :=
  match goal with
  | |- ?m = (_, _) =>
      transitivity (m.1, m.2);
      [apply surjective_pairing
      |apply f_equal2; [vm_compute; reflexivity|reflexivity]]
  end.

Ltac solve_pool :=
  apply map_subseteq_spec; intros ? ?;
  repeat (rewrite lookup_delete_Some || rewrite lookup_insert_Some);
  intuition congruence.

Section Lifecycle.
Variable c : Collab.

Lemma get_format_class_absent version :
  Archiver._FORMAT_REGISTRY !! version = None ->
  Archiver.get_format_class version = Ok None.
Proof.
  intros H. unfold Archiver.get_format_class, Archiver.getitem.
  rewrite H. reflexivity.
Qed.

Lemma get_format_class_never_raises version :
  exists o, Archiver.get_format_class version = Ok o.
Proof.
  destruct (Archiver._FORMAT_REGISTRY !! version) as [loc|] eqn:E.
  - unfold Archiver.get_format_class, Archiver.getitem. rewrite E.
    unfold Archiver._FORMAT_REGISTRY in E.
    repeat (apply lookup_insert_Some in E;
            destruct E as [[_ <-]|[_ E]]; [vm_compute; eauto|]).
    rewrite lookup_empty in E. discriminate.
  - rewrite get_format_class_absent by assumption. eauto.
Qed.

Lemma on_fs_pool {A} (m : St FS A) w : pool (on_fs m w).2 = pool w.
Proof. unfold on_fs. destruct (m (fs w)). reflexivity. Qed.

Lemma on_fs_run {A} (m : St FS A) w r w' :
  on_fs m w = (r, w') -> pool w' = pool w.
Proof. intros H. pose proof (on_fs_pool m w) as P. now rewrite H in P. Qed.

Lemma allocate_pool u w path w1 :
  Cache._allocate c u w = (Ok path, w1) -> pool w1 = <[u := u]> (pool w).
Proof.
  unfold Cache._allocate. destruct (allocate_fault c u); [discriminate|].
  unfold bind at 1.
  destruct (on_fs _ w) as [[[]|e] wa] eqn:E; [|discriminate].
  apply on_fs_run in E. run_st. intros [= _ <-]. simpl. now rewrite E.
Qed.


Lemma rename_run u src w r w' :
  Cache._rename_to_data c u src w = (r, w') ->
  (exists e, r = Raise e /\ w' = w)
  \/ (r = Ok (rename_alias c u, data_path c u)
      /\ pool w' = <[rename_alias c u := u]> (delete u (pool w))).
Proof.
  unfold Cache._rename_to_data. destruct (rename_fault c u) as [e|].
  - intros [= <- <-]. left. eauto.
  - run_st. intros [= <- <-]. right. split; reflexivity.
Qed.

Local Abbreviation frame_ok := (Spec.frame_ok c).

Lemma tail_frame_ok u F rec (h : Fmt -> Handle) (w1 w2 : World)
    (r : result Handle) f :
  pool w2 = <[rename_alias c u := u]> (delete u (pool w1)) ->
  bind (in_world (on_fs (Archiver.Format_init c F rec)))
       (fun fmt : Fmt => ret (h fmt))
       (w2, Some (rename_alias c u)) = (r, f) ->
  frame_ok u w1 f.
Proof.
  intros Hp. unfold bind, in_world. simpl fst. simpl snd.
  destruct (on_fs (Archiver.Format_init c F rec) w2) as [[fmt|e] w3] eqn:E;
    apply on_fs_run in E; intros [= _ <-]; right; simpl; split;
    congruence.
Qed.

Lemma load_try_frame filepath a path w1 (r : result Handle) f :
  Archiver.load_try c filepath a path (w1, None) = (r, f) ->
  frame_ok (uuid a) w1 f.
Proof.
  unfold Archiver.load_try.
  destruct (get_format_class_never_raises (version a)) as [o ->].
  unfold bind at 1. unfold lift_result at 1.
  unfold bind at 1.
  destruct o as [F|].
  2:{ run_st. intros [= _ <-]. left. split; reflexivity. }
  unfold ret at 1. unfold bind at 1. unfold in_world at 1. simpl fst. simpl snd.
  destruct (on_fs (Archiver.mount c a path) w1) as [[rec|e] w2] eqn:Em;
    apply on_fs_run in Em.
  2:{ intros [= _ <-]. left. simpl. split; [reflexivity|assumption]. }
  unfold bind at 1. unfold in_world at 1. simpl fst. simpl snd.
  destruct (Cache._rename_to_data c (uuid a) path w2) as [rr w3] eqn:Er.
  apply rename_run in Er. destruct Er as [(e & -> & ->)|[-> Hp]].
  { intros [= _ <-]. left. simpl. split; [reflexivity|assumption]. }
  unfold bind at 1. unfold bind_process_alias at 1. simpl fst. simpl snd.
  apply tail_frame_ok. congruence.
Qed.

Lemma from_data_try_frame u path w1 (r : result Handle) f :
  Archiver.from_data_try c u path (w1, None) = (r, f) ->
  frame_ok u w1 f.
Proof.
  unfold Archiver.from_data_try.
  unfold bind at 1. unfold in_world at 1. simpl fst. simpl snd.
  destruct (on_fs _ w1) as [[rec|e] w2] eqn:Es; apply on_fs_run in Es.
  2:{ intros [= _ <-]. left. simpl. split; [reflexivity|assumption]. }
  change (Archiver.get_format_class Archiver.CURRENT_FORMAT_VERSION)
    with (@Ok (option FormatClass)
            (Some ("qiime2.core.archive.format.v5", "ArchiveFormat"))).
  unfold bind at 1. unfold lift_result at 1.
  unfold bind at 1. unfold in_world at 1. simpl fst. simpl snd.
  destruct (on_fs (fmt_write c _ rec) w2) as [[[]|e] w3] eqn:Ew;
    apply on_fs_run in Ew.
  2:{ intros [= _ <-]. left. simpl. split; [reflexivity|congruence]. }
  unfold bind at 1. unfold in_world at 1. simpl fst. simpl snd.
  destruct (Cache._rename_to_data c u path w3) as [rr w4] eqn:Er.
  apply rename_run in Er. destruct Er as [(e & -> & ->)|[-> Hp]].
  { intros [= _ <-]. left. simpl. split; [reflexivity|congruence]. }
  unfold bind at 1. unfold bind_process_alias at 1. simpl fst. simpl snd.
  apply tail_frame_ok. congruence.
Qed.

(** What the [except] clause leaves of a frame that raised. *)
Lemma rolled_back {A} u (body : St Frame A) w w1 e f :
  pool w1 = <[u := u]> (pool w) ->
  body (w1, None) = (Raise e, f) ->
  frame_ok u w1 f ->
  exists w',
    Archiver.with_frame (try_except_reraise body (Archiver.rollback u)) w1
    = (Raise e, w')
    /\ pool w' ⊆ pool w
    /\ pool w' !! u = None
    /\ (forall alias, f.2 = Some alias -> pool w' !! alias = None)
    /\ (allocations_for u w = ∅ -> allocations_for u w' = ∅).
Proof.
  intros Hw1 Hbody Hf.
  assert (exists w', Archiver.with_frame
              (try_except_reraise body (Archiver.rollback u)) w1 = (Raise e, w')
            /\ pool w' ⊆ pool w /\ pool w' !! u = None
            /\ (forall alias, f.2 = Some alias -> pool w' !! alias = None))
    as (w' & Hrun & Hsub & Hu & Ha).
  { unfold Archiver.with_frame, try_except_reraise. rewrite Hbody.
    destruct f as [w2 l]. destruct Hf as [[Hl Hp]|[Hl Hp]];
      simpl in Hl, Hp; subst l; run_st; eexists; (split; [reflexivity|]);
      simpl; rewrite Hp, Hw1.
    - split; [solve_pool|]. split; [apply lookup_delete_eq|]. discriminate.
    - split; [solve_pool|]. split.
      + destruct (decide (rename_alias c u = u)) as [->|Hne].
        * apply lookup_delete_eq.
        * rewrite lookup_delete_ne by assumption. apply lookup_delete_eq.
      + intros alias [= <-]. apply lookup_delete_eq. }
  exists w'. repeat split; try assumption.
  unfold allocations_for. intros H0.
  apply map_eq. intros i. rewrite lookup_empty.
  apply map_lookup_filter_None. right. intros x Hx Hx2.
  assert (filter (fun kv : string * string => kv.2 = u) (pool w) !! i = Some x) as Hin.
  { apply map_lookup_filter_Some. split; [|assumption].
    eapply lookup_weaken; eassumption. }
  rewrite H0, lookup_empty in Hin. discriminate.
Qed.

End Lifecycle.

(** C1.  When the [try] block of [load] or of [from_data] raises [e] after
    the temporary slot was allocated, the call raises that same [e], every
    allocation it made is gone from the pool -- the slot named by the UUID
    and, when the rename had bound [process_alias], the alias too -- the
    pool holds nothing it did not hold before the call, and a pool without
    allocation for the UUID before the call has none after it. *)
Theorem rollback_releases_allocations (c : Collab) :
  (forall filepath w a path w1 e f,
     Archiver.get_archive (fs w) filepath = Ok a ->
     Archiver._make_temp_path c (uuid a) w = (Ok path, w1) ->
     Archiver.load_try c filepath a path (w1, None) = (Raise e, f) ->
     exists w',
       Archiver.load c filepath w = (Raise e, w')
       /\ pool w' ⊆ pool w
       /\ pool w' !! uuid a = None
       /\ (forall alias, f.2 = Some alias -> pool w' !! alias = None)
       /\ (allocations_for (uuid a) w = ∅ -> allocations_for (uuid a) w' = ∅))
  /\ (forall w path w1 e f,
     Archiver._make_temp_path c (uuid4 c) w = (Ok path, w1) ->
     Archiver.from_data_try c (uuid4 c) path (w1, None) = (Raise e, f) ->
     exists w',
       Archiver.from_data c w = (Raise e, w')
       /\ pool w' ⊆ pool w
       /\ pool w' !! uuid4 c = None
       /\ (forall alias, f.2 = Some alias -> pool w' !! alias = None)
       /\ (allocations_for (uuid4 c) w = ∅ -> allocations_for (uuid4 c) w' = ∅)).
Proof.
  split.
  - intros filepath w a path w1 e f Hga Halloc Htry.
    destruct (rolled_back c (uuid a) (Archiver.load_try c filepath a path)
                w w1 e f) as (w' & Hrun & H);
      [eapply allocate_pool; exact Halloc | exact Htry
      | eapply load_try_frame; exact Htry |].
    exists w'. split; [|exact H].
    unfold Archiver.load. cbv beta iota delta [bind get lift_result].
    rewrite Hga. cbv beta iota. rewrite Halloc. exact Hrun.
  - intros w path w1 e f Halloc Htry.
    destruct (rolled_back c (uuid4 c) (Archiver.from_data_try c (uuid4 c) path)
                w w1 e f) as (w' & Hrun & H);
      [eapply allocate_pool; exact Halloc | exact Htry
      | eapply from_data_try_frame; exact Htry |].
    exists w'. split; [|exact H].
    unfold Archiver.from_data. cbv beta iota delta [bind].
    rewrite Halloc. exact Hrun.
Qed.

(** A load interrupted after the rename: the interrupt comes back and the
    pool is empty again. *)
Lemma rollback_releases_allocations_witness :
  exists w',
    Archiver.load Sample.late_failure ["in"; "a.qza"] Sample.world
    = (Raise (ExternalError "KeyboardInterrupt"), w')
    /\ pool w' ⊆ pool Sample.world
    /\ pool w' !! Sample.U = None
    /\ (forall alias, Sample.frame_interrupted.2 = Some alias -> pool w' !! alias = None)
    /\ (allocations_for Sample.U Sample.world = ∅ -> allocations_for Sample.U w' = ∅).
Proof.
  apply (proj1 (rollback_releases_allocations Sample.late_failure)
           ["in"; "a.qza"] Sample.world Sample.archive_a Sample.slot
           Sample.world_allocated (ExternalError "KeyboardInterrupt")
           Sample.frame_interrupted).
  - vm_compute. reflexivity.
  - by_outcome.
  - by_outcome.
Defined.

(** C5.  The registry never raises and answers [None] for a tag it does not
    hold; for an archive that declares such a tag, [peek], [load] (once its
    slot is allocated) and [load_raw] (once its alias is made) raise the
    incompatible-version error, whose message holds the framework version
    the archive declares. *)
Theorem unregistered_version_is_futuristic (c : Collab) :
  (forall version, exists o, Archiver.get_format_class version = Ok o)
  /\ (forall version, Archiver._FORMAT_REGISTRY !! version = None ->
        Archiver.get_format_class version = Ok None)
  /\ (forall filepath w a,
        Archiver.get_archive (fs w) filepath = Ok a ->
        Archiver._FORMAT_REGISTRY !! version a = None ->
        let msg := Archiver.futuristic_message filepath a in
        Str.substring_of (framework_version a) msg = true
        /\ (Archiver.peek c filepath w).1 = Raise (ValueError_Futuristic msg)
        /\ (is_Ok (Archiver._make_temp_path c (uuid a) w).1 = true ->
            (Archiver.load c filepath w).1 = Raise (ValueError_Futuristic msg))
        /\ (alias_fault c (uuid a) = None ->
            (Archiver.load_raw c filepath w).1 = Raise (ValueError_Futuristic msg))).
Proof.
  split; [apply get_format_class_never_raises|].
  split; [apply get_format_class_absent|].
  intros filepath w a Hga Hreg msg.
  pose proof (get_format_class_absent _ Hreg) as Hgf.
  split; [|split; [|split]].
  - unfold msg, Archiver.futuristic_message.
    rewrite <- (app_assoc_str (Os.path_str filepath) " was created by 'QIIME ").
    apply substring_of_app.
  - unfold Archiver.peek. cbv beta iota delta [bind get lift_result].
    rewrite Hga. cbv beta iota. rewrite Hgf. reflexivity.
  - intros Halloc. unfold Archiver.load.
    cbv beta iota delta [bind get lift_result]. rewrite Hga. cbv beta iota.
    destruct (Archiver._make_temp_path c (uuid a) w) as [[path|e] w1];
      [|discriminate].
    unfold Archiver.load_try. rewrite Hgf. reflexivity.
  - intros Halias. unfold Archiver.load_raw.
    cbv beta iota delta [bind get lift_result]. rewrite Hga. cbv beta iota.
    unfold Cache._alias. rewrite Halias, Hgf. reflexivity.
Qed.

(** An archive that declares version 99. *)
Lemma unregistered_version_is_futuristic_witness :
  let msg := Archiver.futuristic_message ["in"; "future.qza"] Sample.archive_future in
  Str.substring_of "2031.1.0" msg = true
  /\ (Archiver.peek Sample.calm ["in"; "future.qza"] Sample.world).1
     = Raise (ValueError_Futuristic msg)
  /\ (is_Ok (Archiver._make_temp_path Sample.calm Sample.U Sample.world).1 = true ->
      (Archiver.load Sample.calm ["in"; "future.qza"] Sample.world).1
      = Raise (ValueError_Futuristic msg))
  /\ (alias_fault Sample.calm Sample.U = None ->
      (Archiver.load_raw Sample.calm ["in"; "future.qza"] Sample.world).1
      = Raise (ValueError_Futuristic msg)).
Proof.
  apply (proj2 (proj2 (unregistered_version_is_futuristic Sample.calm))
           ["in"; "future.qza"] Sample.world Sample.archive_future);
    vm_compute; reflexivity.
Defined.

(** C6.  [peek] leaves the world as it found it, so the allocation count
    after the call is the count before it, whatever the outcome; for an
    archive whose declared version is not registered it raises the
    incompatible-version error. *)
Theorem peek_allocates_nothing (c : Collab) (filepath : Path) (w : World) :
  (Archiver.peek c filepath w).2 = w
  /\ allocation_count (Archiver.peek c filepath w).2 = allocation_count w
  /\ (forall a,
        Archiver.get_archive (fs w) filepath = Ok a ->
        Archiver._FORMAT_REGISTRY !! version a = None ->
        Archiver.peek c filepath w
        = (Raise (ValueError_Futuristic (Archiver.futuristic_message filepath a)), w)).
Proof.
  assert (H : (Archiver.peek c filepath w).2 = w).
  { unfold Archiver.peek. cbv beta iota delta [bind get lift_result].
    destruct (Archiver.get_archive (fs w) filepath) as [a|e]; [|reflexivity].
    destruct (Archiver.get_format_class (version a)) as [[F|]|e]; reflexivity. }
  split; [exact H|]. split; [now rewrite H|].
  intros a Hga Hreg. unfold Archiver.peek.
  cbv beta iota delta [bind get lift_result]. rewrite Hga. cbv beta iota.
  rewrite (get_format_class_absent _ Hreg). reflexivity.
Qed.

(** [peek] on a version-99 archive. *)
Lemma peek_allocates_nothing_witness :
  Archiver.peek Sample.calm ["in"; "future.qza"] Sample.world
  = (Raise (ValueError_Futuristic
              (Archiver.futuristic_message ["in"; "future.qza"] Sample.archive_future)),
     Sample.world).
Proof.
  apply (proj2 (proj2 (peek_allocates_nothing Sample.calm
                         ["in"; "future.qza"] Sample.world)));
    vm_compute; reflexivity.
Defined.

(* ===================================================================== *)
(** ** The checksum diff *)
(* ===================================================================== *)

Section Checksums.

Lemma total_of_lookup (m : gmap string string) k x :
  m !! k = Some x -> m !!! k = x.
Proof. apply lookup_total_correct. Qed.

Lemma lookup_keyed {V} (g : string -> V) (X : gset string) k x :
  (set_to_map (fun y => (y, g y)) X : gmap string V) !! k = Some x
  <-> k ∈ X /\ g k = x.
Proof.
  rewrite lookup_set_to_map by (intros y y' _ _ E; exact E).
  split.
  - intros (y & Hy & [= -> <-]). split; [assumption|reflexivity].
  - intros [Hk <-]. exists k. split; [assumption|reflexivity].
Qed.

Lemma keyed_empty {V} (g : string -> V) (X : gset string) :
  X = ∅ -> (set_to_map (fun y => (y, g y)) X : gmap string V) = ∅.
Proof.
  intros ->. apply map_eq. intros k. rewrite lookup_empty.
  destruct (set_to_map _ _ !! k) eqn:E; [|reflexivity].
  apply lookup_keyed in E. destruct E as [E _]. set_solver.
Qed.

End Checksums.

(** C7.  For a handle bound to the checksum-recording format (version 5),
    [validate_checksums] returns the three-way diff of the observed digests
    -- those of every file but the manifest -- against the entries of the
    manifest: [added] holds the observed paths the manifest lacks,
    [removed] the manifest paths not observed, [changed] the (expected,
    observed) pairs of the paths in both whose digests differ; equal
    observed and recorded entries give three empty maps.  A handle bound to
    any other format gets the empty diff. *)
Theorem validate_checksums_three_way_diff
    (self : Handle) (checksum_file : string)
    (md5sums : gmap string string) (manifest : list (string * string)) :
  let v5 : FormatClass := ("qiime2.core.archive.format.v5", "ArchiveFormat") in
  let obs : gmap string string := filter (fun x => x.1 ≠ checksum_file) md5sums in
  let exp := Archiver.dict_of_pairs manifest in
  (forall k x, obs !! k = Some x <-> md5sums !! k = Some x /\ k ≠ checksum_file)
  /\ (fmt_class (_fmt self) ≠ v5 ->
      Archiver.validate_checksums self checksum_file md5sums manifest
      = Ok (mkChecksumDiff ∅ ∅ ∅))
  /\ (fmt_class (_fmt self) = v5 ->
      exists d,
        Archiver.validate_checksums self checksum_file md5sums manifest = Ok d
        /\ (forall k x, added d !! k = Some x <-> obs !! k = Some x /\ exp !! k = None)
        /\ (forall k x, removed d !! k = Some x <-> exp !! k = Some x /\ obs !! k = None)
        /\ (forall k e o, changed d !! k = Some (e, o)
                          <-> exp !! k = Some e /\ obs !! k = Some o /\ e ≠ o)
        /\ (obs = exp -> d = mkChecksumDiff ∅ ∅ ∅)).
Proof.
  intros v5 obs exp.
  assert (Hv5 : Archiver.get_format_class "5" = Ok (Some v5)) by reflexivity.
  split; [|split].
  - intros k x. unfold obs. rewrite map_lookup_filter_Some. reflexivity.
  - intros Hne. unfold Archiver.validate_checksums. rewrite Hv5. simpl rbind.
    unfold Archiver.isinstance. rewrite bool_decide_eq_false_2 by exact Hne.
    reflexivity.
  - intros He. unfold Archiver.validate_checksums. rewrite Hv5. simpl rbind.
    unfold Archiver.isinstance. rewrite bool_decide_eq_true_2 by exact He.
    simpl negb. cbv iota. fold obs. fold exp.
    eexists. split; [reflexivity|]. simpl added. simpl removed. simpl changed.
    split; [|split; [|split]].
    + intros k x. rewrite lookup_keyed, elem_of_difference, elem_of_dom,
        not_elem_of_dom.
      split.
      * intros [[[y Hy] Hn] Ht]. rewrite (total_of_lookup _ _ _ Hy) in Ht.
        subst. split; assumption.
      * intros [Ho Hn]. split; [split; [eauto|assumption]|].
        now apply total_of_lookup.
    + intros k x. rewrite lookup_keyed, elem_of_difference, elem_of_dom,
        not_elem_of_dom.
      split.
      * intros [[[y Hy] Hn] Ht]. rewrite (total_of_lookup _ _ _ Hy) in Ht.
        subst. split; assumption.
      * intros [Ho Hn]. split; [split; [eauto|assumption]|].
        now apply total_of_lookup.
    + intros k e o. rewrite lookup_keyed, elem_of_filter, elem_of_intersection,
        !elem_of_dom.
      split.
      * intros [[Hd [[e' He'] [o' Ho']]] Ht].
        rewrite (total_of_lookup _ _ _ He'), (total_of_lookup _ _ _ Ho') in Ht, Hd.
        injection Ht as <- <-. repeat split; assumption.
      * intros (He' & Ho' & Hd).
        rewrite (total_of_lookup _ _ _ He'), (total_of_lookup _ _ _ Ho').
        repeat split; eauto.
    + intros Heq. f_equal.
      * apply keyed_empty. rewrite Heq. set_solver.
      * apply keyed_empty. rewrite Heq. set_solver.
      * apply keyed_empty. rewrite Heq. apply set_eq. intros k.
        rewrite elem_of_filter. set_solver.
Qed.

(** One file changed, one added, one deleted. *)
Lemma validate_checksums_three_way_diff_witness :
  exists d,
    Archiver.validate_checksums Sample.v5_handle "checksums.md5"
      (<["checksums.md5" := "m"]> (<["data/x.txt" := "new"]> (<["extra" := "e"]> ∅)))
      [("data/x.txt", "old"); ("gone", "g")] = Ok d
    /\ d = mkChecksumDiff {["extra" := "e"]} {["gone" := "g"]}
             {["data/x.txt" := ("old", "new")]}.
Proof.
  destruct (proj2 (proj2 (validate_checksums_three_way_diff Sample.v5_handle
              "checksums.md5"
              (<["checksums.md5" := "m"]> (<["data/x.txt" := "new"]> (<["extra" := "e"]> ∅)))
              [("data/x.txt", "old"); ("gone", "g")])) eq_refl) as (d & Hd & _).
  exists d. split; [exact Hd|].
  vm_compute in Hd. injection Hd as <-. vm_compute. reflexivity.
Defined.

(* ===================================================================== *)
(** ** Root discovery *)
(* ===================================================================== *)

Section Roots.

Lemma zip_iterdir_elem names (seen : gset string) x :
  x ∈ _ZipArchive.iterdir_loop "" seen names
  <-> ((x ∉ seen) /\ x ∈ omap (fun name => head (PosixPath.parts name)) names).
Proof.
  revert seen. induction names as [|name names IH]; intros seen.
  - simpl. split; [intros H; inversion H|intros [_ H]; inversion H].
  - cbn [_ZipArchive.iterdir_loop omap list_omap]. simpl Str.startswith.
    destruct (PosixPath.parts name) as [|r rest]; simpl head.
    + apply IH.
    + change (head (r :: rest)) with (Some r). cbv iota.
      destruct (bool_decide_reflect (r ∈ seen)) as [Hin|Hout].
      * rewrite IH, elem_of_cons. split; [tauto|].
        intros [Hx [->|H]]; [contradiction|tauto].
      * rewrite !elem_of_cons, IH, elem_of_union, elem_of_singleton.
        destruct (decide (x = r)) as [->|Hne]; tauto.
Qed.

Lemma zip_roots z :
  (list_to_set
     (filter (fun relpath => Str.startswith relpath "." = false)
        (_ZipArchive.iterdir_loop "" ∅ (Zipfile.namelist z))) : gset string)
  = Spec.visible_roots z.
Proof.
  apply set_eq. intros x. unfold Spec.visible_roots, Spec.top_level_entries.
  rewrite elem_of_list_to_set, list_elem_of_filter, elem_of_filter,
    elem_of_list_to_set, zip_iterdir_elem.
  set_solver.
Qed.

Lemma zip_get_uuid fs path z :
  fs !! path = Some (ZipFile z) ->
  _Archive._get_uuid fs path (_ZipArchive.relative_iterdir fs path "")
  = let roots := Spec.visible_roots z in
    if (size roots =? 0)%nat then Raise ValueError_NoVisibleRoot
    else if (1 <? size roots)%nat
         then Raise (ValueError_MultipleRoots (elements roots))
         else match elements roots with
              | u :: _ => if negb (Util.is_uuid4 u)
                          then Raise (ValueError_InvalidUUIDRoot u) else Ok u
              | [] => Raise (KeyError "pop from an empty set")
              end.
Proof.
  intros H. unfold _Archive._get_uuid, _ZipArchive.relative_iterdir,
    Os.exists_, Zipfile.open_zip.
  rewrite H. simpl negb. cbv iota. simpl rbind.
  change (_ZipArchive._as_zip_path (PosixPath.parts "")) with "".
  rewrite zip_roots. reflexivity.
Qed.

Lemma zip_init_uuid fs path a :
  _ZipArchive.__init__ fs path = Ok a ->
  _Archive._get_uuid fs path (_ZipArchive.relative_iterdir fs path "")
  = Ok (uuid a).
Proof.
  unfold _ZipArchive.__init__.
  destruct (_Archive._get_uuid _ _ _) as [u|e]; simpl; [|discriminate].
  destruct (_Archive._get_versions _) as [vs|e]; simpl; [|discriminate].
  intros [= <-]. reflexivity.
Qed.

Lemma singleton_size_elements (X : gset string) :
  size X = 1 -> exists u, X = {[u]} /\ elements X = [u].
Proof.
  intros H. apply size_1_elem_of in H as [u Hu].
  apply leibniz_equiv in Hu. exists u. split; [assumption|].
  rewrite Hu. apply elements_singleton.
Qed.

End Roots.

(** C3, as amended.  A container backend is built only when the container
    has exactly one visible top-level entry and that entry is a version-4
    UUID, which becomes its [uuid]; no visible entry, several of them, or a
    single one that is no UUID each fail the construction with their own
    error.  A directory backend makes no such check: its [uuid] is the base
    name of the directory, and its construction fails only on the VERSION
    file. *)
Theorem archive_root_invariant :
  (forall fs path z,
     fs !! path = Some (ZipFile z) ->
     let roots := Spec.visible_roots z in
     (size roots = 0 ->
      _ZipArchive.__init__ fs path = Raise ValueError_NoVisibleRoot)
     /\ (1 < size roots ->
         _ZipArchive.__init__ fs path
         = Raise (ValueError_MultipleRoots (elements roots)))
     /\ (forall u, roots = {[u]} -> Util.is_uuid4 u = false ->
           _ZipArchive.__init__ fs path = Raise (ValueError_InvalidUUIDRoot u))
     /\ (forall a, _ZipArchive.__init__ fs path = Ok a ->
           roots = {[uuid a]} /\ Util.is_uuid4 (uuid a) = true))
  /\ (forall fs path,
        _NoOpArchive.__init__ fs path
        = match _Archive._get_versions
                  (Os.read_text fs (Os.join path _Archive.VERSION_FILE)) with
          | Ok vs => Ok (mkArchive NoOpKind path (Os.basename path) vs.1 vs.2)
          | Raise _ => Raise ValueError_MalformedVersion
          end).
Proof.
  split.
  - intros fs path z Hz roots.
    pose proof (zip_get_uuid fs path z Hz) as Hu. cbv zeta in Hu. fold roots in Hu.
    split; [|split; [|split]].
    + intros H0. unfold _ZipArchive.__init__. rewrite Hu, H0. reflexivity.
    + intros H1. unfold _ZipArchive.__init__. rewrite Hu.
      destruct (size roots) as [|[|n]] eqn:E; [lia|lia|]. reflexivity.
    + intros u Hr Hbad. unfold _ZipArchive.__init__. rewrite Hu, Hr.
      rewrite size_singleton, elements_singleton. simpl. rewrite Hbad.
      reflexivity.
    + intros a Ha. apply zip_init_uuid in Ha. rewrite Hu in Ha.
      destruct (size roots) as [|[|n]] eqn:E; simpl in Ha; try discriminate.
      destruct (singleton_size_elements roots E) as (u & Hr & He).
      rewrite He in Ha.
      destruct (Util.is_uuid4 u) eqn:Ev; simpl in Ha; [|discriminate].
      injection Ha as <-. split; assumption.
  - intros fs path. unfold _NoOpArchive.__init__, _NoOpArchive.open, _NoOpArchive._get_uuid.
    destruct (_Archive._get_versions _) as [vs|e] eqn:E; simpl; [reflexivity|].
    destruct (get_versions_single_error
                (Os.read_text fs (Os.join path _Archive.VERSION_FILE)))
      as [[r Hr]|Hr]; congruence.
Qed.

(** The container of the samples has one visible root, a UUID. *)
Lemma archive_root_invariant_witness :
  Spec.visible_roots Sample.members = {[Sample.U]}
  /\ Util.is_uuid4 Sample.U = true.
Proof.
  apply (proj2 (proj2 (proj2 (proj1 archive_root_invariant
           Sample.disk ["in"; "a.qza"] Sample.members eq_refl)))
           Sample.archive_a).
  vm_compute. reflexivity.
Defined.

(** C3, as stated, fails for the directory variant: a directory with three
    visible entries and a name that is no UUID is a backend all the same. *)
Lemma directory_backend_skips_root_check :
  length (filter (fun name => Str.startswith name "." = false)
            (_NoOpArchive.relative_iterdir Sample.disk ["pool"; "not-a-uuid"] ""))
  = 3
  /\ Util.is_uuid4 "not-a-uuid" = false
  /\ Archiver.get_archive Sample.disk ["pool"; "not-a-uuid"]
     = Ok (mkArchive NoOpKind ["pool"; "not-a-uuid"] "not-a-uuid" "5" "2023.2.0").
Proof. vm_compute. repeat split. Qed.

(* ===================================================================== *)
(** ** Extraction into an existing destination *)
(* ===================================================================== *)

Section ExistingDestination.

Lemma removelast_snoc (l : list string) x : removelast (l ++ [x]) = l.
Proof. apply removelast_last. Qed.

Lemma makedirs_exists (fs : FS) p :
  is_Some (fs !! p) -> is_Some (fs !! Os.dirname p) ->
  Os.makedirs p fs = (Raise (FileExistsError p), fs).
Proof.
  intros [n Hp] [d Hd]. unfold Os.makedirs.
  destruct (rev p) as [|tail rhead] eqn:E.
  - assert (p = []) as -> by (rewrite <- (rev_involutive p), E; reflexivity).
    simpl. unfold Os.mkdir. rewrite Hp. reflexivity.
  - assert (Hpe : p = rev rhead ++ [tail])
      by (rewrite <- (rev_involutive p), E; reflexivity).
    cbn [Os.makedirs_rev]. unfold Os.exists_.
    replace (rev rhead) with (Os.dirname p)
      by (rewrite Hpe; apply removelast_snoc).
    rewrite Hd.
    replace (rev (tail :: rhead)) with p by (rewrite Hpe; reflexivity).
    unfold Os.mkdir. rewrite Hp. reflexivity.
Qed.

End ExistingDestination.

(** C10.  When the destination directory already holds an entry named after
    the UUID of the artifact, [Archiver.extract] raises the failure of
    creating [destination/<uuid>] and leaves the file system as it was: no
    member of the container is copied. *)
Theorem extract_refuses_existing_destination
    (c : Collab) (filepath dest : Path) (w : World) (a : Archive) :
  Archiver.get_archive (fs w) filepath = Ok a ->
  uuid a <> "" ->
  fs w !! dest = Some Dir ->
  is_Some (fs w !! (dest ++ [uuid a])) ->
  Archiver.extract c filepath dest w
  = (Raise (FileExistsError (dest ++ [uuid a])), w).
Proof.
  intros Hga Hne Hd He. unfold Archiver.extract.
  cbv beta iota delta [bind get lift_result]. rewrite Hga. cbv beta iota zeta.
  unfold Os.join. apply String.eqb_neq in Hne. rewrite Hne.
  unfold on_fs. rewrite makedirs_exists; [destruct w; reflexivity|assumption|].
  unfold Os.dirname. rewrite removelast_snoc. rewrite Hd. eauto.
Qed.

(** Extracting the sample container where [out/<uuid>] already exists. *)
Lemma extract_refuses_existing_destination_witness :
  Archiver.extract Sample.calm ["in"; "a.qza"] ["out"] Sample.world
  = (Raise (FileExistsError ["out"; Sample.U]), Sample.world).
Proof.
  apply (extract_refuses_existing_destination Sample.calm ["in"; "a.qza"] ["out"]
           Sample.world Sample.archive_a);
    vm_compute; (reflexivity || discriminate || eauto).
Defined.

(* ===================================================================== *)
(** ** File-system lemmas *)
(* ===================================================================== *)

Section FileSystem.

Lemma prefix_snoc_cases (e l : Path) x :
  e `prefix_of` l ++ [x] -> e `prefix_of` l \/ e = l ++ [x].
Proof.
  intros [k Hk]. destruct (rev k) as [|y rk] eqn:E.
  - right. assert (k = []) as -> by (rewrite <- (rev_involutive k), E; reflexivity).
    now rewrite app_nil_r in Hk.
  - left. assert (k = rev rk ++ [y]) as ->
      by (rewrite <- (rev_involutive k), E; reflexivity).
    rewrite app_assoc in Hk. apply app_inj_tail in Hk as [-> _].
    now exists (rev rk).
Qed.

Lemma prefix_app_cases (q d l : Path) :
  q `prefix_of` d ++ l ->
  q `prefix_of` d \/ exists rest, rest <> [] /\ q = d ++ rest /\ rest `prefix_of` l.
Proof.
  revert q. induction l as [|x l IH] using rev_ind; intros q H.
  - left. now rewrite app_nil_r in H.
  - rewrite app_assoc in H. apply prefix_snoc_cases in H as [H| ->].
    + apply IH in H as [H|(rest & Hne & -> & Hp)]; [now left|right].
      exists rest. split; [assumption|]. split; [reflexivity|].
      now apply prefix_app_r.
    + right. exists (l ++ [x]). split; [|split].
      * intros E. apply (f_equal length) in E. rewrite length_app in E.
        simpl in E. lia.
      * now rewrite app_assoc.
      * reflexivity.
Qed.

Lemma prefix_not_elem (rest l : Path) x :
  rest `prefix_of` l -> x ∉ l -> x ∉ rest.
Proof.
  intros [k ->] H Hin. apply H. apply elem_of_app. now left.
Qed.

Lemma rev_snoc_eq (p : Path) tail rhead :
  rev p = tail :: rhead -> p = rev rhead ++ [tail].
Proof. intros E. rewrite <- (rev_involutive p), E. reflexivity. Qed.

(** [mkdir] touches its own path only, and only when nothing is there. *)
Lemma mkdir_frame (p : Path) (fs : FS) r fs' :
  Os.mkdir p fs = (r, fs') ->
  fs' = fs \/ (fs !! p = None /\ fs' = <[p := Dir]> fs).
Proof.
  unfold Os.mkdir. destruct (fs !! p) eqn:Ep.
  - intros [= _ <-]. now left.
  - destruct (fs !! Os.dirname p) as [[]|]; intros [= _ <-]; auto.
Qed.

Lemma mkdir_ok (p : Path) (fs : FS) fs' :
  Os.mkdir p fs = (Ok tt, fs') -> fs' = <[p := Dir]> fs.
Proof.
  unfold Os.mkdir. destruct (fs !! p); [discriminate|].
  destruct (fs !! Os.dirname p) as [[]|]; try discriminate.
  intros [= <-]. reflexivity.
Qed.

Lemma mkdir_other (p : Path) (fs : FS) r fs' q :
  Os.mkdir p fs = (r, fs') -> q <> p -> fs' !! q = fs !! q.
Proof.
  intros H Hq. apply mkdir_frame in H as [->|[_ ->]]; [reflexivity|].
  now rewrite lookup_insert_ne.
Qed.

Lemma mkdir_mono (p : Path) (fs : FS) r fs' q :
  Os.mkdir p fs = (r, fs') -> is_Some (fs !! q) -> is_Some (fs' !! q).
Proof.
  intros H Hq. apply mkdir_frame in H as [->|[Hn ->]]; [assumption|].
  destruct (decide (p = q)) as [->|Hne].
  - rewrite lookup_insert_eq. eauto.
  - now rewrite lookup_insert_ne.
Qed.

(** [makedirs p], called where [p] does not exist, changes only prefixes
    of [p] that lie below every existing prefix of [p]. *)
Lemma makedirs_rev_frame rp :
  forall (fs : FS) r fs' q,
    fs !! rev rp = None ->
    Os.makedirs_rev rp fs = (r, fs') ->
    (~ q `prefix_of` rev rp
     \/ exists e, q `prefix_of` e /\ e `prefix_of` rev rp /\ is_Some (fs !! e)) ->
    fs' !! q = fs !! q.
Proof.
  induction rp as [|tail rhead IH]; intros fs r fs' q Hnone Hrun Hq.
  - simpl in *. eapply mkdir_other; [exact Hrun|].
    intros ->. destruct Hq as [Hq|(e & _ & He & [n Hn])].
    + apply Hq. reflexivity.
    + apply prefix_nil_inv in He. subst e. congruence.
  - assert (Hqp : q <> rev (tail :: rhead)).
    { intros ->. destruct Hq as [Hq|(e & H1 & H2 & [n Hn])].
      - apply Hq. reflexivity.
      - assert (e = rev (tail :: rhead)) as ->
          by (apply (anti_symm prefix); assumption).
        congruence. }
    cbn [Os.makedirs_rev] in Hrun.
    destruct (Os.exists_ fs (rev rhead)) eqn:Ex.
    + eapply mkdir_other; eassumption.
    + assert (Hhead : fs !! rev rhead = None).
      { unfold Os.exists_ in Ex. destruct (fs !! rev rhead); [discriminate|reflexivity]. }
      destruct (Os.makedirs_rev rhead fs) as [r1 fs1] eqn:E1.
      assert (H1 : fs1 !! q = fs !! q).
      { eapply IH; [exact Hhead|exact E1|].
        destruct Hq as [Hq|(e & Hqe & Hep & He)].
        - left. intros Hp. apply Hq. simpl. now apply prefix_app_r.
        - right. exists e. split; [assumption|]. split; [|assumption].
          simpl in Hep. apply prefix_snoc_cases in Hep as [Hep| ->]; [assumption|].
          destruct He as [n Hn]. simpl in Hnone. congruence. }
      assert (Hstep : forall r2 fs2,
                 (if String.eqb tail "." then (Ok tt, fs1)
                  else Os.mkdir (rev (tail :: rhead)) fs1) = (r2, fs2) ->
                 fs2 !! q = fs !! q).
      { intros r2 fs2 H2. destruct (String.eqb tail ".").
        - injection H2 as _ <-. exact H1.
        - rewrite <- H1. eapply mkdir_other; eassumption. }
      destruct r1 as [[]|e1].
      * eapply Hstep; exact Hrun.
      * destruct e1; try (injection Hrun as _ <-; exact H1).
        eapply Hstep; exact Hrun.
Qed.

Lemma makedirs_rev_mono rp :
  forall (fs : FS) r fs' q,
    Os.makedirs_rev rp fs = (r, fs') -> is_Some (fs !! q) -> is_Some (fs' !! q).
Proof.
  induction rp as [|tail rhead IH]; intros fs r fs' q Hrun Hq.
  - simpl in Hrun. eapply mkdir_mono; eassumption.
  - cbn [Os.makedirs_rev] in Hrun.
    destruct (Os.exists_ fs (rev rhead)).
    + eapply mkdir_mono; eassumption.
    + destruct (Os.makedirs_rev rhead fs) as [r1 fs1] eqn:E1.
      assert (H1 : is_Some (fs1 !! q)) by (eapply IH; eassumption).
      assert (Hstep : forall r2 fs2,
                 (if String.eqb tail "." then (Ok tt, fs1)
                  else Os.mkdir (rev (tail :: rhead)) fs1) = (r2, fs2) ->
                 is_Some (fs2 !! q)).
      { intros r2 fs2 H2. destruct (String.eqb tail ".").
        - injection H2 as _ <-. exact H1.
        - eapply mkdir_mono; eassumption. }
      destruct r1 as [[]|e1].
      * eapply Hstep; exact Hrun.
      * destruct e1; try (injection Hrun as _ <-; exact H1).
        eapply Hstep; exact Hrun.
Qed.

Lemma write_file_frame (fault : Path -> option Exn) (p : Path) (data : string) (fs : FS) r fs' :
  Os.write_file fault p data fs = (r, fs') ->
  (fs' = fs /\ is_Ok r = false) \/ (r = Ok tt /\ fs' = <[p := File data]> fs).
Proof.
  unfold Os.write_file. destruct (fault p); [intros [= <- <-]; now left|].
  destruct (fs !! p) as [[]|]; destruct (fs !! Os.dirname p) as [[]|];
    intros [= <- <-]; auto.
Qed.

Lemma write_file_mono (fault : Path -> option Exn) (p : Path) (data : string) (fs : FS) r fs' q :
  Os.write_file fault p data fs = (r, fs') ->
  is_Some (fs !! q) -> is_Some (fs' !! q).
Proof.
  intros H Hq. apply write_file_frame in H as [[-> _]|[_ ->]]; [assumption|].
  destruct (decide (p = q)) as [->|Hne].
  - rewrite lookup_insert_eq. eauto.
  - now rewrite lookup_insert_ne.
Qed.

End FileSystem.

(* ===================================================================== *)
(** ** Extraction *)
(* ===================================================================== *)

Section Extraction.

Lemma uuid4_first u :
  Util.is_uuid4 u = true ->
  exists c u', u = String c u' /\ Util.in_class Util.Hex c = true.
Proof.
  unfold Util.is_uuid4, Util.uuid4_pattern. simpl app.
  destruct u as [|c u']; simpl; [discriminate|].
  intros H. apply andb_true_iff in H as [H _]. eauto.
Qed.

Lemma matches_excludes (c : ascii) pat :
  (forall k, Util.in_class k c = false) ->
  forall s, Util.matches pat s = true -> Str.contains c s = false.
Proof.
  intros Hc. induction pat as [|k pat IH]; intros [|d s]; simpl;
    try discriminate; [reflexivity|].
  intros H. apply andb_true_iff in H as [Hk Hs].
  rewrite (IH _ Hs), orb_false_r.
  destruct (Ascii.eqb_spec d c) as [->|]; [|reflexivity].
  rewrite Hc in Hk. discriminate.
Qed.

Lemma uuid4_no_slash u : Util.is_uuid4 u = true -> Str.contains "/" u = false.
Proof.
  apply matches_excludes. intros []; reflexivity.
Qed.

Lemma hex_not_slash c : Util.in_class Util.Hex c = true -> Ascii.eqb c "/" = false.
Proof.
  intros H. destruct (Ascii.eqb_spec c "/") as [->|]; [|reflexivity].
  discriminate H.
Qed.

Lemma hex_not_dot c : Util.in_class Util.Hex c = true -> c <> "."%char.
Proof. intros H ->. discriminate H. Qed.

Lemma startswith_cons_inv name c u :
  Str.startswith name (String c u) = true ->
  exists n', name = String c n' /\ Str.startswith n' u = true.
Proof.
  destruct name as [|d n']; simpl; [discriminate|].
  destruct (Ascii.eqb_spec c d) as [->|]; [eauto|discriminate].
Qed.

(** A member whose name starts with a UUID keeps at least one component. *)
Lemma sanitize_nonempty u name :
  Util.is_uuid4 u = true -> Str.startswith name u = true ->
  Zipfile.sanitize name <> [].
Proof.
  intros Hu Hs. destruct (uuid4_first u Hu) as (c & u' & -> & Hc).
  destruct (startswith_cons_inv _ _ _ Hs) as (n' & -> & _).
  unfold Zipfile.sanitize. simpl Str.split. rewrite (hex_not_slash c Hc).
  pose proof (hex_not_dot c Hc) as Hd.
  destruct (Str.split "/" n') as [|hd tl]; rewrite filter_cons_True;
    try discriminate;
    rewrite !elem_of_cons, elem_of_nil; intros [E|[E|[E|[]]]];
    inversion E; congruence.
Qed.

Lemma sanitize_no_dotdot name : ".." ∉ Zipfile.sanitize name.
Proof.
  unfold Zipfile.sanitize. rewrite list_elem_of_filter. intros [H _].
  apply H. rewrite !elem_of_cons. auto.
Qed.

Lemma removelast_prefix (l : Path) : removelast l `prefix_of` l.
Proof.
  destruct l as [|x l] using rev_ind; [reflexivity|].
  rewrite removelast_snoc. now exists [x].
Qed.

Lemma dirname_app (d arc : Path) :
  arc <> [] -> Os.dirname (d ++ arc) = d ++ removelast arc.
Proof. intros H. unfold Os.dirname. now apply removelast_app. Qed.

Lemma inside_app (d arc : Path) : arc <> [] -> ".." ∉ arc -> Spec.inside d (d ++ arc).
Proof. intros H1 H2. exists arc. auto. Qed.

Lemma not_inside_self (d : Path) : ~ Spec.inside d d.
Proof.
  intros (rest & H & Hne & _). apply Hne.
  rewrite <- (app_nil_r d) in H at 1. now apply app_inv_head in H.
Qed.

(** Creating the directories above a target below [d] stays below [d]. *)
Lemma upperdirs_frame (d arc : Path) (fs : FS) r fs1 q :
  is_Some (fs !! d) -> ".." ∉ arc ->
  (if Os.exists_ fs (d ++ arc) then ret tt else Os.makedirs (d ++ arc)) fs
  = (r, fs1) ->
  ~ Spec.inside d q -> fs1 !! q = fs !! q.
Proof.
  intros Hd Harc Hrun Hq. destruct (Os.exists_ fs (d ++ arc)) eqn:Ex.
  - injection Hrun as _ <-. reflexivity.
  - unfold Os.makedirs in Hrun.
    eapply makedirs_rev_frame; [|exact Hrun|]; rewrite rev_involutive.
    + unfold Os.exists_ in Ex. destruct (fs !! (d ++ arc)); [discriminate|reflexivity].
    + destruct (decide (q `prefix_of` d ++ arc)) as [Hp|Hn]; [|now left].
      apply prefix_app_cases in Hp as [Hp|(rest & Hne & -> & Hp)].
      * right. exists d. repeat split; [assumption| |assumption].
        now apply prefix_app_r.
      * exfalso. apply Hq. apply inside_app; [assumption|].
        eapply prefix_not_elem; eassumption.
Qed.

Lemma bind_run {S A B} (m : St S A) (k : A -> St S B) s r s' :
  bind m k s = (r, s') ->
  (exists x s1, m s = (Ok x, s1) /\ k x s1 = (r, s'))
  \/ (exists e, m s = (Raise e, s') /\ r = Raise e).
Proof.
  unfold bind. destruct (m s) as [[x|e] s1]; [eauto|].
  intros [= <- <-]. eauto.
Qed.

Lemma zip_extract_frame (fault : Path -> option Exn)
    (z : list (string * string)) (name : string) (d : Path)
    (fs : FS) r fs' q :
  is_Some (fs !! d) -> Zipfile.sanitize name <> [] ->
  Zipfile.extract fault z name d fs = (r, fs') ->
  ~ Spec.inside d q -> fs' !! q = fs !! q.
Proof.
  intros Hd Hne Hrun Hq.
  pose proof (sanitize_no_dotdot name) as Hdd.
  assert (Htarget : q <> d ++ Zipfile.sanitize name).
  { intros ->. apply Hq. now apply inside_app. }
  unfold Zipfile.extract in Hrun.
  apply bind_run in Hrun as [(data & s1 & [= _ <-] & Hrun)|(e & [= _ <-] & _)];
    [|reflexivity].
  apply bind_run in Hrun as [([] & s1 & H0 & Hrun)|(e & H0 & _)];
    rewrite bool_decide_eq_false_2 in H0 by exact Hne;
    change (false && negb (Str.endswith_char name "/")) with false in H0;
    cbv beta iota delta [ret] in H0; [injection H0 as <-|discriminate H0].
  apply bind_run in Hrun as [(s0 & s1 & [= <- <-] & Hrun)|(e & [=] & _)].
  rewrite dirname_app in Hrun by exact Hne.
  apply bind_run in Hrun as [([] & fs1 & E1 & Hrun)|(e & E1 & _)];
    pose proof (upperdirs_frame d _ fs _ _ q Hd
                  (prefix_not_elem _ _ _ (removelast_prefix _) Hdd) E1 Hq) as H1;
    [|exact H1].
  rewrite <- H1.
  destruct (Str.endswith_char name "/").
  - apply bind_run in Hrun as [(s2 & s3 & [= <- <-] & Hrun)|(e & [=] & _)].
    apply bind_run in Hrun as [([] & fs2 & E2 & [= _ <-])|(e & E2 & _)];
      (destruct (Os.isdir fs1 (d ++ Zipfile.sanitize name));
       [cbv beta delta [ret] in E2;
        first [discriminate E2|injection E2 as <-; reflexivity]
       |eapply mkdir_other; eassumption]).
  - apply bind_run in Hrun as [([] & fs2 & E2 & [= _ <-])|(e & E2 & _)];
      (apply write_file_frame in E2 as [[-> _]|[_ ->]]; [reflexivity|];
       now rewrite lookup_insert_ne).
Qed.

(** A loop whose body keeps an invariant and a set of paths keeps them. *)
Lemma for_each_frame {A : Type} (I : FS -> Prop) (P : Path -> Prop)
    (body : A -> St FS unit) (l : list A) :
  (forall x fs r fs', x ∈ l -> I fs -> body x fs = (r, fs') ->
     I fs' /\ forall q, P q -> fs' !! q = fs !! q) ->
  forall fs r fs', I fs -> for_each l body fs = (r, fs') ->
     I fs' /\ forall q, P q -> fs' !! q = fs !! q.
Proof.
  induction l as [|x l IH]; intros Hbody fs r fs' HI Hrun.
  - injection Hrun as _ <-. auto.
  - simpl in Hrun. unfold bind in Hrun.
    destruct (body x fs) as [r1 fs1] eqn:E1.
    destruct (Hbody x fs r1 fs1 (list_elem_of_here _ _) HI E1) as [HI1 HP1].
    destruct r1 as [[]|e1].
    + destruct (IH (fun y s0 r0 s0' Hy => Hbody y s0 r0 s0' (list_elem_of_further _ _ _ Hy))
                  fs1 r fs' HI1 Hrun) as [HI' HP'].
      split; [assumption|]. intros q Hq. rewrite HP', HP1; auto.
    + injection Hrun as _ <-. auto.
Qed.

Lemma zip_init_uuid4 fs path a :
  _ZipArchive.__init__ fs path = Ok a -> Util.is_uuid4 (uuid a) = true.
Proof.
  intros Ha. apply zip_init_uuid in Ha.
  unfold _Archive._get_uuid in Ha.
  destruct (negb _); [discriminate|].
  destruct (_ZipArchive.relative_iterdir fs path "") as [names|e];
    simpl in Ha; [|discriminate].
  destruct (size _ =? 0)%nat; [discriminate|].
  destruct (1 <? size _)%nat; [discriminate|].
  destruct (elements _) as [|u' l]; [discriminate|].
  destruct (Util.is_uuid4 u') eqn:E; simpl in Ha; [|discriminate].
  injection Ha as <-. exact E.
Qed.

Lemma zip_archive_extract_frame (fault : Path -> option Exn) (a : Archive)
    (filepath : Path) (fs : FS) r fs' :
  Util.is_uuid4 (uuid a) = true ->
  is_Some (fs !! Os.dirname filepath) ->
  _ZipArchive.extract fault a filepath fs = (r, fs') ->
  is_Some (fs' !! Os.dirname filepath)
  /\ forall q, ~ Spec.inside (Os.dirname filepath) q -> fs' !! q = fs !! q.
Proof.
  intros Hu Hd Hrun. unfold _ZipArchive.extract in Hrun.
  cbv beta iota delta [bind get lift_result] in Hrun.
  destruct (String.eqb (Os.basename filepath) (uuid a));
    cbv beta iota delta [ret raise] in Hrun;
    [|injection Hrun as _ <-; auto].
  destruct (Zipfile.open_zip fs (path a)) as [z|e];
    [|injection Hrun as _ <-; auto].
  destruct (for_each (Zipfile.namelist z) _ fs) as [r1 fs1] eqn:E1.
  assert (H1 : is_Some (fs1 !! Os.dirname filepath)
               /\ forall q, ~ Spec.inside (Os.dirname filepath) q ->
                            fs1 !! q = fs !! q).
  { eapply (for_each_frame (fun s => is_Some (s !! Os.dirname filepath)));
      [|exact Hd|exact E1].
    intros name s r2 s2 _ Hs Hbody.
    assert (Hf : forall q, ~ Spec.inside (Os.dirname filepath) q -> s2 !! q = s !! q).
    { intros q Hq. cbv beta in Hbody.
      destruct (Str.startswith name (uuid a)) eqn:Est.
      - unfold bind in Hbody.
        destruct (Zipfile.extract fault z name (Os.dirname filepath) s)
          as [r3 s3] eqn:E3.
        assert (s3 !! q = s !! q).
        { eapply zip_extract_frame; [exact Hs| |exact E3|exact Hq].
          eapply sanitize_nonempty; eassumption. }
        destruct r3; cbv beta iota delta [ret] in Hbody;
          injection Hbody as _ <-; assumption.
      - cbv beta iota delta [ret] in Hbody. injection Hbody as _ <-. reflexivity. }
    split; [|exact Hf]. rewrite Hf; [assumption|apply not_inside_self]. }
  destruct r1 as [[]|e1]; injection Hrun as _ <-; exact H1.
Qed.

End Extraction.

(** C2.  Whatever the members of the container of a backend are called --
    parent-directory segments included -- and whether extraction succeeds
    or stops on an error, every path that does not lie below the parent of
    the destination, or that would be reached through a parent-directory
    segment, holds after the extraction what it held before. *)
Theorem extraction_stays_inside
    (fault : Path -> option Exn) (fs0 : FS) (path0 : Path) (a : Archive)
    (filepath : Path) (fs : FS) (r : result Path) (fs' : FS) (q : Path) :
  _ZipArchive.__init__ fs0 path0 = Ok a ->
  is_Some (fs !! Os.dirname filepath) ->
  _ZipArchive.extract fault a filepath fs = (r, fs') ->
  ~ Spec.inside (Os.dirname filepath) q ->
  fs' !! q = fs !! q.
Proof.
  intros Ha Hd Hrun Hq.
  eapply zip_archive_extract_frame; try eassumption.
  eapply zip_init_uuid4; exact Ha.
Qed.

(** The sample container holds a member named [<uuid>/../../evil]; the
    path [/evil] it points to is left alone. *)
Lemma extraction_stays_inside_witness :
  Sample.extracted.2 !! ["evil"] = Sample.disk !! ["evil"].
Proof.
  apply (extraction_stays_inside (fun _ => None) Sample.disk ["in"; "a.qza"]
           Sample.archive_a ["out"; Sample.U] Sample.disk
           Sample.extracted.1 Sample.extracted.2 ["evil"]).
  - vm_compute. reflexivity.
  - vm_compute. eauto.
  - apply surjective_pairing.
  - intros (rest & H & _). simpl in H. discriminate H.
Defined.

(** Where that member went: below the destination. *)
Example evil_member_lands_inside :
  Sample.extracted.1 = Ok ["out"; Sample.U]
  /\ Sample.extracted.2 !! ["out"; Sample.U; "evil"] = Some (File "boo")
  /\ Sample.extracted.2 !! ["evil"] = None.
Proof. vm_compute. repeat split. Qed.

(* ===================================================================== *)
(** ** Mounting *)
(* ===================================================================== *)

Section Mounting.

Lemma zip_extract_mono (fault : Path -> option Exn)
    (z : list (string * string)) (name : string) (d : Path)
    (fs : FS) r fs' q :
  Zipfile.extract fault z name d fs = (r, fs') ->
  is_Some (fs !! q) -> is_Some (fs' !! q).
Proof.
  intros Hrun Hq. unfold Zipfile.extract in Hrun.
  apply bind_run in Hrun as [(data & s1 & [= _ <-] & Hrun)|(e & [= _ <-] & _)];
    [|assumption].
  apply bind_run in Hrun as [([] & s1 & H0 & Hrun)|(e & H0 & _)].
  2:{ destruct (_ && _); cbv beta delta [raise ret] in H0;
      injection H0 as _ <-; assumption. }
  assert (s1 = fs) as ->.
  { destruct (_ && _); cbv beta delta [raise ret] in H0;
      [discriminate H0|injection H0 as <-; reflexivity]. }
  apply bind_run in Hrun as [(s0 & s1 & [= <- <-] & Hrun)|(e & [=] & _)].
  apply bind_run in Hrun as [([] & fs1 & E1 & Hrun)|(e & E1 & _)].
  2:{ destruct (Os.exists_ fs _); [injection E1 as _ <-; assumption|].
      eapply makedirs_rev_mono; eassumption. }
  assert (H1 : is_Some (fs1 !! q)).
  { destruct (Os.exists_ fs _); [injection E1 as <-; assumption|].
    eapply makedirs_rev_mono; eassumption. }
  destruct (Str.endswith_char name "/").
  - apply bind_run in Hrun as [(s2 & s3 & [= <- <-] & Hrun)|(e & [=] & _)].
    apply bind_run in Hrun as [([] & fs2 & E2 & [= _ <-])|(e & E2 & _)];
      (destruct (Os.isdir fs1 _);
       [cbv beta delta [ret] in E2;
        first [discriminate E2|injection E2 as <-; assumption]
       |eapply mkdir_mono; eassumption]).
  - apply bind_run in Hrun as [([] & fs2 & E2 & [= _ <-])|(e & E2 & _)];
      eapply write_file_mono; eassumption.
Qed.

(** A member that was extracted is there. *)
Lemma zip_extract_ok_exists (fault : Path -> option Exn)
    (z : list (string * string)) (name : string) (d : Path)
    (fs : FS) t fs' :
  Zipfile.extract fault z name d fs = (Ok t, fs') ->
  is_Some (fs' !! (d ++ Zipfile.sanitize name)).
Proof.
  intros Hrun. unfold Zipfile.extract in Hrun.
  apply bind_run in Hrun as [(data & s1 & _ & Hrun)|(e & _ & [=])].
  apply bind_run in Hrun as [([] & s2 & _ & Hrun)|(e & _ & [=])].
  apply bind_run in Hrun as [(s0 & s3 & _ & Hrun)|(e & _ & [=])].
  apply bind_run in Hrun as [([] & fs1 & _ & Hrun)|(e & _ & [=])].
  destruct (Str.endswith_char name "/").
  - apply bind_run in Hrun as [(s4 & s5 & [= <- <-] & Hrun)|(e & _ & [=])].
    apply bind_run in Hrun as [([] & fs2 & E2 & [= _ <-])|(e & _ & [=])].
    destruct (Os.isdir fs1 _) eqn:Ei.
    + injection E2 as <-. unfold Os.isdir in Ei.
      destruct (fs1 !! _); [eauto|discriminate].
    + apply mkdir_ok in E2 as ->. rewrite lookup_insert_eq. eauto.
  - apply bind_run in Hrun as [([] & fs2 & E2 & [= _ <-])|(e & _ & [=])].
    apply write_file_frame in E2 as [[_ [=]]|[_ ->]].
    rewrite lookup_insert_eq. eauto.
Qed.

Lemma for_each_ok_visits {A : Type} (body : A -> St FS unit) (l : list A) :
  (forall y (s : FS) r s' q,
     body y s = (r, s') -> is_Some (s !! q) -> is_Some (s' !! q)) ->
  forall (fs fs' : FS) x,
    for_each l body fs = (Ok tt, fs') -> x ∈ l ->
    exists s s', body x s = (Ok tt, s')
                 /\ forall q, is_Some (s' !! q) -> is_Some (fs' !! q).
Proof.
  intros Hmono. induction l as [|y l IH]; intros fs fs' x Hrun Hx.
  - inversion Hx.
  - simpl in Hrun.
    apply bind_run in Hrun as [([] & s1 & E1 & Hrun)|(e & _ & [=])].
    assert (Hrest : forall q, is_Some (s1 !! q) -> is_Some (fs' !! q)).
    { clear -Hmono Hrun. revert s1 Hrun.
      induction l as [|z l IHl]; intros s1 Hrun q Hq.
      - injection Hrun as <-. assumption.
      - simpl in Hrun.
        apply bind_run in Hrun as [([] & s2 & E2 & Hrun)|(e & _ & [=])].
        eapply IHl; [exact Hrun|]. eapply Hmono; eassumption. }
    apply elem_of_cons in Hx as [->|Hx].
    + exists fs, s1. auto.
    + destruct (IH _ _ _ Hrun Hx) as (s & s' & Hb & Hs). eauto.
Qed.

Lemma getinfo_in z name d :
  Zipfile.getinfo z name = Ok d -> name ∈ Zipfile.namelist z.
Proof.
  revert d. induction z as [|[n d'] z IH]; intros d; simpl; [discriminate|].
  destruct (Zipfile.getinfo z name) as [d0|e].
  - intros _. apply list_elem_of_further. exact (IH d0 eq_refl).
  - destruct (String.eqb_spec n name) as [->|]; [|discriminate].
    intros _. apply list_elem_of_here.
Qed.

Lemma root_of_plain c s :
  Ascii.eqb c "/" = false -> PosixPath.root_of (String c s) = "".
Proof.
  destruct c as [[] [] [] [] [] [] [] []]; simpl; intros H;
    try reflexivity; discriminate H.
Qed.

Lemma uuid4_nonempty_components u :
  Util.is_uuid4 u = true -> (u ∉ [""; "."; ".."]) /\ (u ∉ [""; "."]).
Proof.
  intros Hu. destruct (uuid4_first u Hu) as (c & u' & -> & Hc).
  pose proof (hex_not_dot c Hc).
  split; rewrite ?elem_of_cons, elem_of_nil; intuition congruence.
Qed.

(** The member that holds the VERSION file of a backend with UUID [u]. *)
Lemma version_member_name u :
  Util.is_uuid4 u = true ->
  _ZipArchive._as_zip_path
    (PosixPath.joinpath (PosixPath.parts u) _Archive.VERSION_FILE)
  = u +:+ "/VERSION".
Proof.
  intros Hu. pose proof (uuid4_no_slash u Hu) as Hs.
  destruct (uuid4_nonempty_components u Hu) as [_ Hc].
  destruct (uuid4_first u Hu) as (c & u' & E & Hh).
  pose proof (hex_not_slash c Hh) as Hcs.
  assert (Hparts : PosixPath.parts u = [u]).
  { unfold PosixPath.parts, PosixPath.components.
    rewrite split_no_sep by exact Hs.
    rewrite filter_cons_True by exact Hc. rewrite filter_nil.
    rewrite E, root_of_plain by exact Hcs. reflexivity. }
  rewrite Hparts. unfold PosixPath.joinpath.
  change (String.eqb (PosixPath.root_of _Archive.VERSION_FILE) "") with true.
  cbv iota. change (PosixPath.parts _Archive.VERSION_FILE) with ["VERSION"].
  unfold _ZipArchive._as_zip_path, PosixPath.render. simpl app.
  assert (String.eqb u "/" = false /\ String.eqb u "//" = false) as [-> ->].
  { rewrite E. simpl. rewrite Hcs. auto. }
  simpl orb. cbv iota.
  change (Str.join "/" [u; "VERSION"]) with (u +:+ "/" +:+ "VERSION").
  change (u +:+ "/" +:+ "VERSION") with (u +:+ "/VERSION").
  assert (String.eqb (u +:+ "/VERSION") "." = false) as ->; [|reflexivity].
  rewrite E, app_cons. simpl.
  destruct (Ascii.eqb_spec c "."); [|reflexivity].
  exfalso. eapply hex_not_dot; eassumption.
Qed.

Lemma sanitize_version_member u :
  Util.is_uuid4 u = true ->
  Zipfile.sanitize (u +:+ "/VERSION") = [u; "VERSION"].
Proof.
  intros Hu. destruct (uuid4_nonempty_components u Hu) as [Hc _].
  unfold Zipfile.sanitize.
  change (u +:+ "/VERSION") with (u +:+ String "/" "VERSION").
  rewrite split_app_sep by (apply uuid4_no_slash; exact Hu).
  rewrite filter_cons_True by exact Hc. reflexivity.
Qed.

Lemma endswith_app_nonempty a c b x :
  Str.endswith_char (a +:+ String c b) x = Str.endswith_char (String c b) x.
Proof.
  induction a as [|d a IH]; [reflexivity|].
  rewrite app_cons.
  change (Str.endswith_char (String d (a +:+ String c b)) x)
    with (match a +:+ String c b with
          | EmptyString => Ascii.eqb d x
          | _ => Str.endswith_char (a +:+ String c b) x
          end).
  destruct (a +:+ String c b) eqn:Eab; [|exact IH].
  destruct a; discriminate Eab.
Qed.

Lemma path_of_basename (filepath : Path) u :
  String.eqb (Os.basename filepath) u = true -> u <> "" ->
  filepath = Os.dirname filepath ++ [u].
Proof.
  intros Hb Hu. apply String.eqb_eq in Hb.
  destruct filepath as [|x l] using rev_ind.
  - unfold Os.basename in Hb. simpl in Hb. congruence.
  - unfold Os.basename, Os.dirname in *. rewrite last_last in Hb.
    rewrite removelast_snoc. congruence.
Qed.

(** What the construction of a container backend establishes. *)
Lemma zip_init_facts (fs : FS) (p : Path) a :
  _ZipArchive.__init__ fs p = Ok a ->
  kind a = ZipKind /\ path a = p /\ Util.is_uuid4 (uuid a) = true
  /\ exists z, fs !! p = Some (ZipFile z)
               /\ (uuid a +:+ "/VERSION") ∈ Zipfile.namelist z.
Proof.
  intros Ha. pose proof (zip_init_uuid4 _ _ _ Ha) as Hu.
  unfold _ZipArchive.__init__ in Ha.
  destruct (_Archive._get_uuid _ _ _) as [u|e]; simpl in Ha; [|discriminate].
  destruct (_Archive._get_versions _) as [vs|e] eqn:Ev; simpl in Ha; [|discriminate].
  injection Ha as <-. simpl in *. repeat split; try assumption.
  unfold _Archive._get_versions in Ev.
  destruct (_ZipArchive.open fs p u _Archive.VERSION_FILE) as [text|e] eqn:Eo;
    [|discriminate].
  unfold _ZipArchive.open, Zipfile.open_zip in Eo.
  destruct (fs !! p) as [[d|z|]|]; simpl in Eo; try discriminate.
  exists z. split; [reflexivity|].
  rewrite version_member_name in Eo by exact Hu.
  destruct (Zipfile.getinfo z (u +:+ "/VERSION")) eqn:Eg; [|discriminate].
  eapply getinfo_in; exact Eg.
Qed.

Lemma extract_leaves_version (fault : Path -> option Exn)
    (fs : FS) (p : Path) (a : Archive) (filepath : Path) t fs' :
  _ZipArchive.__init__ fs p = Ok a ->
  _ZipArchive.extract fault a filepath fs = (Ok t, fs') ->
  is_Some (fs' !! (filepath ++ ["VERSION"])).
Proof.
  intros Ha Hrun.
  destruct (zip_init_facts _ _ _ Ha) as (_ & Hp & Hu & z & Hz & Hin).
  unfold _ZipArchive.extract in Hrun.
  apply bind_run in Hrun as [([] & s1 & H0 & Hrun)|(e & _ & [=])].
  destruct (String.eqb (Os.basename filepath) (uuid a)) eqn:Eb;
    [|discriminate H0].
  injection H0 as <-.
  apply bind_run in Hrun as [(s0 & s1 & [= <- <-] & Hrun)|(e & _ & [=])].
  apply bind_run in Hrun as [(z' & s1 & Hz' & Hrun)|(e & _ & [=])].
  unfold lift_result, Zipfile.open_zip in Hz'. rewrite Hp, Hz in Hz'.
  injection Hz' as <- <-.
  apply bind_run in Hrun as [([] & s1 & Hloop & [= _ <-])|(e & _ & [=])].
  eapply for_each_ok_visits in Hloop as (s & s' & Hb & Hs); [|clear|exact Hin].
  - apply Hs. rewrite startswith_app in Hb.
    apply bind_run in Hb as [(t' & s2 & Hx & [= <-])|(e & _ & [=])].
    apply zip_extract_ok_exists in Hx.
    rewrite sanitize_version_member in Hx by exact Hu.
    rewrite (path_of_basename filepath (uuid a) Eb) at 1.
    + rewrite <- app_assoc. exact Hx.
    + destruct (uuid4_first _ Hu) as (c & u' & -> & _). discriminate.
  - intros y s r s' q Hb Hq. destruct (Str.startswith y (uuid a)).
    + apply bind_run in Hb as [(t' & s2 & Hx & [= _ <-])|(e & Hx & _)];
        eapply zip_extract_mono; eassumption.
    + injection Hb as _ <-. assumption.
Qed.

End Mounting.

(** C9.  A mount into a destination that already holds a VERSION file
    extracts nothing: it leaves the file system as it is and returns the
    record of the backend for that destination.  A successful mount of a
    backend leaves such a destination behind, so mounting it there a second
    time changes nothing and returns the record of the first mount. *)
Theorem mount_idempotent (c : Collab) :
  (forall (a : Archive) (filepath : Path) (fs : FS),
     Os.exists_ fs (filepath ++ ["VERSION"]) = true ->
     Archiver.mount c a filepath fs
     = (Ok (mkArchiveRecord filepath (filepath ++ ["VERSION"])
              (uuid a) (version a) (framework_version a)), fs))
  /\ (forall (p : Path) (a : Archive) (filepath : Path) (fs : FS) rec fs',
        Archiver.get_archive fs p = Ok a ->
        Archiver.mount c a filepath fs = (Ok rec, fs') ->
        Archiver.mount c a filepath fs' = (Ok rec, fs')).
Proof.
  assert (Hskip : forall (a : Archive) (filepath : Path) (fs : FS),
     Os.exists_ fs (filepath ++ ["VERSION"]) = true ->
     Archiver.mount c a filepath fs
     = (Ok (mkArchiveRecord filepath (filepath ++ ["VERSION"])
              (uuid a) (version a) (framework_version a)), fs)).
  { intros a filepath fs Hex. unfold Archiver.mount.
    destruct (kind a); [|reflexivity].
    unfold _ZipArchive.mount. cbv beta iota delta [bind get].
    rewrite Hex. reflexivity. }
  split; [exact Hskip|].
  intros p a filepath fs rec fs' Hga Hm.
  unfold Archiver.get_archive in Hga.
  destruct (negb _); [discriminate|].
  destruct (_ZipArchive.is_archive_type fs p).
  - destruct (zip_init_facts _ _ _ Hga) as (Hk & _).
    pose proof Hm as Hm0.
    unfold Archiver.mount in Hm. rewrite Hk in Hm.
    unfold _ZipArchive.mount in Hm.
    apply bind_run in Hm as [(s0 & s1 & [= <- <-] & Hm)|(e & _ & [=])].
    destruct (Os.exists_ fs (filepath ++ ["VERSION"])) eqn:Ex.
    + rewrite (Hskip a filepath fs Ex) in Hm0. injection Hm0 as <- <-.
      now apply Hskip.
    + apply bind_run in Hm as [([] & s1 & Hx & [= <- <-])|(e & _ & [=])].
      simpl negb in Hx. cbv iota in Hx.
      apply bind_run in Hx as [(t & s2 & Hx & [= <-])|(e & _ & [=])].
      apply Hskip. unfold Os.exists_.
      destruct (extract_leaves_version _ _ _ _ _ _ _ Hga Hx) as [n ->].
      reflexivity.
  - destruct (_NoOpArchive.is_archive_type fs p); [|discriminate].
    unfold _NoOpArchive.__init__ in Hga.
    destruct (_Archive._get_versions _); simpl in Hga; [|discriminate].
    injection Hga as <-. unfold Archiver.mount in *. simpl in *.
    unfold _NoOpArchive.mount in *. injection Hm as <- <-. reflexivity.
Qed.

(** Mounting the sample container into the slot twice. *)
Lemma mount_idempotent_witness :
  Archiver.mount Sample.calm Sample.archive_a Sample.slot Sample.mounted.2
  = (Ok (mkArchiveRecord Sample.slot (Sample.slot ++ ["VERSION"])
           Sample.U "5" "2023.2.0"), Sample.mounted.2).
Proof.
  apply (proj2 (mount_idempotent Sample.calm) ["in"; "a.qza"] Sample.archive_a
           Sample.slot Sample.disk).
  - vm_compute. reflexivity.
  - by_outcome.
Defined.

Example first_mount_extracts :
  Sample.disk !! (Sample.slot ++ ["VERSION"]) = None
  /\ Sample.mounted.2 !! (Sample.slot ++ ["VERSION"]) = Some (File Sample.version_text).
Proof. vm_compute. split; reflexivity. Qed.

Example interrupted_after_rename :
  Sample.frame_interrupted.2 = Some ("alias-" +:+ Sample.U).
Proof. vm_compute. reflexivity. Qed.

(* ===================================================================== *)
(** ** Saving and extracting *)
(* ===================================================================== *)

Section MakedirsBelow.

(** [makedirs] below an existing directory [d], where the way down holds
    directories only: it succeeds, and all it does is to create the
    missing directories of the way. *)
Lemma makedirs_below (d : Path) (rest : Path) :
  forall fs : FS,
    fs !! d = Some Dir ->
    (forall r', r' `prefix_of` rest -> r' <> [] ->
                fs !! (d ++ r') = None \/ fs !! (d ++ r') = Some Dir) ->
    fs !! (d ++ rest) = None ->
    "." ∉ rest ->
    exists fs',
      Os.makedirs (d ++ rest) fs = (Ok tt, fs')
      /\ fs' !! (d ++ rest) = Some Dir
      /\ (forall q, fs' !! q = fs !! q
                    \/ (exists r', r' `prefix_of` rest /\ r' <> [] /\ q = d ++ r'
                                   /\ fs !! q = None /\ fs' !! q = Some Dir)).
Proof.
  induction rest as [|x r0 IH] using rev_ind; intros fs Hd Hway Hnone Hdot.
  - rewrite app_nil_r in Hnone. congruence.
  - assert (Hx : String.eqb x "." = false).
    { apply String.eqb_neq. intros ->. apply Hdot, elem_of_app. right. left. }
    assert (Hp : rev (x :: rev (d ++ r0)) = d ++ r0 ++ [x]).
    { simpl. rewrite rev_involutive. now rewrite <- app_assoc. }
    unfold Os.makedirs.
    replace (rev (d ++ r0 ++ [x])) with (x :: rev (d ++ r0))
      by (rewrite (app_assoc d r0 [x]), (rev_app_distr (d ++ r0) [x]);
          reflexivity).
    cbn [Os.makedirs_rev]. rewrite Hp, rev_involutive.
    assert (Hmk : forall fs1 : FS,
               fs1 !! (d ++ r0) = Some Dir -> fs1 !! (d ++ r0 ++ [x]) = None ->
               Os.mkdir (d ++ r0 ++ [x]) fs1
               = (Ok tt, <[d ++ r0 ++ [x] := Dir]> fs1)).
    { intros fs1 H1 H2. unfold Os.mkdir. rewrite H2.
      unfold Os.dirname. rewrite app_assoc, removelast_snoc, H1. reflexivity. }
    unfold Os.exists_. destruct (fs !! (d ++ r0)) as [n|] eqn:E0.
    + assert (n = Dir) as ->.
      { destruct r0 as [|y r0'].
        - rewrite app_nil_r in E0. congruence.
        - destruct (Hway (y :: r0')) as [H|H]; [now apply prefix_app_r|discriminate| |];
            congruence. }
      rewrite Hmk by assumption. eexists. split; [reflexivity|].
      split; [apply lookup_insert_eq|].
      intros q. destruct (decide (q = d ++ r0 ++ [x])) as [->|Hq].
      * right. exists (r0 ++ [x]). rewrite lookup_insert_eq.
        split; [reflexivity|]. split; [|auto].
        intros E. now apply app_nil in E as [_ [=]].
      * left. now rewrite lookup_insert_ne.
    + destruct (IH fs Hd) as (fs1 & Hrun & Hdir & Hch).
      * intros r' Hr' Hne. apply Hway; [now apply prefix_app_r|assumption].
      * assumption.
      * intros Hin. apply Hdot, elem_of_app. now left.
      * unfold Os.makedirs in Hrun. rewrite Hrun.
        assert (H2 : fs1 !! (d ++ r0 ++ [x]) = None).
        { destruct (Hch (d ++ r0 ++ [x])) as [->|(r' & Hr' & _ & Heq & _)];
            [assumption|].
          apply app_inv_head in Heq. subst r'.
          apply prefix_snoc_not in Hr'. contradiction. }
        rewrite Hx, Hmk by assumption. eexists. split; [reflexivity|].
        split; [apply lookup_insert_eq|].
        intros q. destruct (decide (q = d ++ r0 ++ [x])) as [->|Hq].
        -- right. exists (r0 ++ [x]). rewrite lookup_insert_eq.
           split; [reflexivity|]. split; [|auto].
           intros E. now apply app_nil in E as [_ [=]].
        -- rewrite lookup_insert_ne by congruence.
           destruct (Hch q) as [->|(r' & Hr' & Hne & -> & Hn & Hs)]; [now left|].
           right. exists r'. split; [now apply prefix_app_r|auto].
Qed.

End MakedirsBelow.

Section NameLemmas.

Lemma valid_not_special n : Spec.valid_name n -> n ∉ [""; "."; ".."].
Proof.
  intros (H1 & H2 & H3 & _). rewrite !elem_of_cons, elem_of_nil. tauto.
Qed.

Lemma valid_no_slash (A : Path) :
  Forall Spec.valid_name A -> Forall (fun x => Str.contains "/" x = false) A.
Proof.
  intros H. eapply Forall_impl; [exact H|]. intros n (_ & _ & _ & Hn). exact Hn.
Qed.

Lemma filter_all_valid (A : Path) :
  Forall Spec.valid_name A -> filter (fun x => x ∉ [""; "."; ".."]) A = A.
Proof.
  induction 1 as [|n A Hn _ IH]; [reflexivity|].
  rewrite filter_cons_True by (apply valid_not_special; exact Hn).
  now rewrite IH.
Qed.

Lemma sanitize_join (A : Path) :
  A <> [] -> Forall Spec.valid_name A -> Zipfile.sanitize (Str.join "/" A) = A.
Proof.
  intros Hne Hv. unfold Zipfile.sanitize.
  rewrite split_join by (auto using valid_no_slash).
  now apply filter_all_valid.
Qed.

Lemma join_inj (A B : Path) :
  A <> [] -> B <> [] -> Forall Spec.valid_name A -> Forall Spec.valid_name B ->
  Str.join "/" A = Str.join "/" B -> A = B.
Proof.
  intros HA HB VA VB E.
  rewrite <- (sanitize_join A HA VA), <- (sanitize_join B HB VB). now rewrite E.
Qed.

Lemma endswith_contains s c :
  Str.endswith_char s c = true -> Str.contains c s = true.
Proof.
  induction s as [|d s IH]; simpl; [discriminate|].
  destruct s as [|e s'].
  - intros ->. reflexivity.
  - intros H. rewrite (IH H). apply orb_true_r.
Qed.

Lemma join_cons_cons x y (l : Path) :
  Str.join "/" (x :: y :: l) = x +:+ String "/" (Str.join "/" (y :: l)).
Proof. reflexivity. Qed.

Lemma join_not_dir (A : Path) :
  A <> [] -> Forall Spec.valid_name A ->
  Str.endswith_char (Str.join "/" A) "/" = false.
Proof.
  intros Hne Hv. induction Hv as [|n A Hn Hv IH]; [congruence|].
  destruct A as [|m A'].
  - simpl. destruct (Str.endswith_char n "/") eqn:E; [|reflexivity].
    apply endswith_contains in E. destruct Hn as (_ & _ & _ & H). congruence.
  - rewrite join_cons_cons. destruct (Str.join "/" (m :: A')) as [|c b] eqn:Ej.
    + exfalso. inversion Hv as [|? ? Hm _]; subst.
      destruct A' as [|k A'']; simpl in Ej.
      * destruct Hm as (H & _). congruence.
      * destruct m; [destruct Hm as (H & _); congruence|discriminate Ej].
    + rewrite (endswith_app_nonempty n "/" (String c b)).
      change (Str.endswith_char (String c b) "/" = false).
      apply IH. discriminate.
Qed.

Lemma getinfo_found (z : list (string * string)) name :
  name ∈ Zipfile.namelist z ->
  exists data, Zipfile.getinfo z name = Ok data /\ (name, data) ∈ z.
Proof.
  induction z as [|[n d0] z IH]; simpl; intros Hin; [inversion Hin|].
  destruct (decide (name ∈ Zipfile.namelist z)) as [Hz|Hz].
  - destruct (IH Hz) as (data & -> & Hd). exists data. split; [reflexivity|].
    now apply list_elem_of_further.
  - apply elem_of_cons in Hin as [->|Hin]; [|contradiction].
    destruct (Zipfile.getinfo z n) as [d1|e] eqn:Eg.
    + exfalso. apply Hz. eapply getinfo_in; exact Eg.
    + rewrite String.eqb_refl. exists d0. split; [reflexivity|]. left.
Qed.

End NameLemmas.

(** Extraction of a container whose members are the files of a tree rooted
    at [u]: the member named by the components [A] holds [data] for every
    [(A, data)] of [files], no file lies below another one, and the names
    are names of a directory listing. *)
Section ExtractFiles.

Variable d : Path.
Variable u : string.
Variable files : list (Path * string).

Hypothesis files_valid :
  forall A data, (A, data) ∈ files -> head A = Some u /\ Forall Spec.valid_name A.

Hypothesis files_prefix_free :
  forall A r d1 d2, (A, d1) ∈ files -> (A ++ r, d2) ∈ files -> r = [] /\ d1 = d2.

Local Abbreviation members := (Spec.members_of files).
Local Abbreviation agrees := (Spec.agrees d u files).

Lemma head_nonempty (A : Path) : head A = Some u -> A <> [].
Proof. destruct A; [discriminate|discriminate]. Qed.

Lemma head_prefix (A r' : Path) :
  head A = Some u -> r' `prefix_of` A -> r' <> [] -> head r' = Some u.
Proof.
  intros HA [k ->] Hne. destruct r' as [|x r']; [congruence|exact HA].
Qed.

Lemma member_data A data :
  (A, data) ∈ files ->
  Zipfile.getinfo members (Str.join "/" A) = Ok data.
Proof.
  intros Hin.
  assert (Hn : Str.join "/" A ∈ Zipfile.namelist members).
  { unfold Zipfile.namelist, Spec.members_of.
    apply list_elem_of_fmap. exists (Str.join "/" A, data). split; [reflexivity|].
    apply list_elem_of_fmap. exists (A, data). split; [reflexivity|assumption]. }
  destruct (getinfo_found _ _ Hn) as (data' & Hg & Hz).
  rewrite Hg. f_equal.
  unfold Spec.members_of in Hz.
  apply list_elem_of_fmap in Hz as ([B d'] & [= Hj <-] & HB).
  simpl in Hj.
  destruct (files_valid _ _ Hin) as [HA VA].
  destruct (files_valid _ _ HB) as [HB' VB].
  apply join_inj in Hj; try assumption; try (eapply head_nonempty; eassumption).
  subst B.
  destruct (files_prefix_free A [] data' data) as [_ ->];
    rewrite ?app_nil_r; auto.
Qed.

Lemma proper_prefix_rest (A r' : Path) :
  A <> [] -> r' `prefix_of` removelast A -> exists r, r <> [] /\ r' ++ r = A.
Proof.
  intros HA [k Hk]. destruct A as [|x A _] using rev_ind; [congruence|].
  rewrite removelast_snoc in Hk. subst A.
  exists (k ++ [x]). split.
  - intros E. now apply app_nil in E as [_ [=]].
  - now rewrite <- app_assoc.
Qed.

Lemma no_dot (A : Path) : Forall Spec.valid_name A -> "." ∉ A.
Proof.
  intros Hv Hin. rewrite Forall_forall in Hv.
  destruct (Hv _ Hin) as (_ & H & _). congruence.
Qed.

(** One member extracted: it succeeds, the file is there, what was there
    stays, and the file system still agrees with the tree. *)
Lemma extract_member_step (fs : FS) A data :
  agrees fs -> (A, data) ∈ files ->
  exists fs',
    Zipfile.extract (fun _ => None) members (Str.join "/" A) d fs
    = (Ok (d ++ A), fs')
    /\ agrees fs'
    /\ fs' !! (d ++ A) = Some (File data)
    /\ (forall q x, fs !! q = Some (File x) -> fs' !! q = Some (File x))
    /\ (forall q, ~ (exists B, head B = Some u /\ q = d ++ B) -> fs' !! q = fs !! q).
Proof.
  intros [Hd Hag] Hin.
  destruct (files_valid _ _ Hin) as [HAu VA].
  pose proof (head_nonempty A HAu) as HA.
  unfold Zipfile.extract.
  rewrite (member_data _ _ Hin), sanitize_join, join_not_dir by assumption.
  rewrite bool_decide_eq_false_2 by exact HA.
  rewrite dirname_app by exact HA.
  cbv beta iota zeta delta [bind lift_result get ret negb andb].
  (* the directories above the target *)
  match goal with
  | |- context [match ?m with pair _ _ => _ end] => set (up := m)
  end.
  assert (Hup : exists fs1 : FS,
             up = (Ok tt, fs1)
             /\ fs1 !! (d ++ removelast A) = Some Dir
             /\ (forall q, fs1 !! q = fs !! q
                   \/ (exists r', r' `prefix_of` removelast A /\ r' <> []
                          /\ q = d ++ r' /\ fs !! q = None /\ fs1 !! q = Some Dir))).
  { assert (Hway : forall r', r' `prefix_of` removelast A -> r' <> [] ->
               fs !! (d ++ r') = None \/ fs !! (d ++ r') = Some Dir).
    { intros r' Hr' Hne. destruct (fs !! (d ++ r')) as [n|] eqn:E; [|now left].
      right.
      assert (Hr'u : head r' = Some u).
      { eapply head_prefix; [exact HAu| |exact Hne].
        etrans; [exact Hr'|apply removelast_prefix]. }
      destruct (Hag r' n Hr'u E) as [[-> _]|(x & -> & Hx)]; [reflexivity|].
      destruct (proper_prefix_rest A r' HA Hr') as (r & Hr & <-).
      destruct (files_prefix_free r' r x data Hx Hin) as [-> _]. congruence. }
    unfold up, Os.exists_. destruct (fs !! (d ++ removelast A)) as [n|] eqn:E.
    - exists fs. split; [reflexivity|]. split; [|now left].
      destruct (removelast A) as [|y l] eqn:El.
      + rewrite app_nil_r in E |- *. congruence.
      + destruct (Hway (y :: l)) as [H|H]; [reflexivity|discriminate| |]; congruence.
    - destruct (makedirs_below d (removelast A) fs Hd Hway E) as (fs1 & H1 & H2 & H3).
      + intros Hdot. eapply no_dot; [exact VA|].
        destruct (removelast_prefix A) as [k Hk]. rewrite Hk.
        apply elem_of_app. now left.
      + exists fs1. auto. }
  destruct Hup as (fs1 & Hup & Hdir & Hch). rewrite Hup. clear up Hup.
  cbv beta iota.
  (* the target itself *)
  assert (Htgt : forall r', r' `prefix_of` removelast A -> d ++ A <> d ++ r').
  { intros r' [k Hk] E. apply app_inv_head in E. subst r'.
    destruct A as [|x A0 _] using rev_ind; [congruence|].
    rewrite removelast_snoc in Hk. apply (f_equal length) in Hk.
    rewrite !length_app in Hk. simpl in Hk. lia. }
  assert (Hsame : fs1 !! (d ++ A) = fs !! (d ++ A)).
  { destruct (Hch (d ++ A)) as [H|(r' & Hr' & _ & E & _)]; [assumption|].
    exfalso. eapply Htgt; eassumption. }
  assert (Hnd : fs1 !! (d ++ A) <> Some Dir).
  { rewrite Hsame. intros E.
    destruct (Hag A Dir HAu E) as [(_ & r & x & Hr & Hx)|(x & [=] & _)].
    destruct (files_prefix_free A r data x Hin Hx) as [-> _]. congruence. }
  unfold Os.write_file. rewrite dirname_app by exact HA. rewrite Hdir.
  assert (Hw : match fs1 !! (d ++ A) with
               | Some Dir => (Raise (IsADirectoryError (d ++ A)), fs1)
               | _ => (Ok tt, <[d ++ A := File data]> fs1)
               end = (@Ok unit tt, <[d ++ A := File data]> fs1)).
  { destruct (fs1 !! (d ++ A)) as [[]|]; congruence. }
  rewrite Hw. eexists. split; [reflexivity|].
  split; [|split; [|split]].
  - split.
    + rewrite lookup_insert_ne.
      * destruct (Hch d) as [->|(_ & _ & _ & _ & Hn & _)]; congruence.
      * intros E. rewrite <- (app_nil_r d) in E at 2.
        apply app_inv_head in E. congruence.
    + intros B n HB. destruct (decide (d ++ A = d ++ B)) as [E|Hne].
      * apply app_inv_head in E. subst B. rewrite lookup_insert_eq.
        intros [= <-]. right. eauto.
      * rewrite lookup_insert_ne by exact Hne.
        destruct (Hch (d ++ B)) as [->|(r' & Hr' & Hr'ne & E & _ & ->)];
          [now apply Hag|].
        apply app_inv_head in E. subst r'. intros [= <-]. left. split; [reflexivity|].
        destruct (proper_prefix_rest A B HA Hr') as (r & Hr & <-). eauto.
  - apply lookup_insert_eq.
  - intros q x Hq. destruct (decide (d ++ A = q)) as [<-|Hne].
    + rewrite lookup_insert_eq. f_equal. f_equal.
      destruct (Hag A (File x) HAu Hq) as [([=] & _)|(y & [= <-] & Hy)].
      destruct (files_prefix_free A [] data x) as [_ ->];
        rewrite ?app_nil_r; auto.
    + rewrite lookup_insert_ne by exact Hne.
      destruct (Hch q) as [->|(_ & _ & _ & _ & Hn & _)]; congruence.
  - intros q Hq. rewrite lookup_insert_ne.
    + destruct (Hch q) as [->|(r' & Hr' & Hne & -> & _)]; [reflexivity|].
      exfalso. apply Hq. exists r'. split; [|reflexivity].
      eapply head_prefix; [exact HAu| |exact Hne].
      etrans; [exact Hr'|apply removelast_prefix].
    + intros <-. apply Hq. eauto.
Qed.

(** The whole loop of [_ZipArchive.extract] over members of the tree. *)
Lemma extract_all (l : list (Path * string)) :
  (forall A data, (A, data) ∈ l ->
     (A, data) ∈ files /\ Str.startswith (Str.join "/" A) u = true) ->
  forall fs : FS,
    agrees fs ->
    exists fs',
      for_each (Zipfile.namelist (Spec.members_of l))
        (fun name =>
           if Str.startswith name u
           then bind (Zipfile.extract (fun _ => None) members name d)
                     (fun _ => ret tt)
           else ret tt) fs
      = (Ok tt, fs')
      /\ agrees fs'
      /\ (forall A data, (A, data) ∈ l -> fs' !! (d ++ A) = Some (File data))
      /\ (forall q x, fs !! q = Some (File x) -> fs' !! q = Some (File x))
      /\ (forall q, ~ (exists B, head B = Some u /\ q = d ++ B) -> fs' !! q = fs !! q).
Proof.
  induction l as [|[A data] l IH]; intros Hl fs Hag.
  - exists fs. split; [reflexivity|]. split; [assumption|].
    split; [intros A data H; inversion H|auto].
  - destruct (Hl A data (list_elem_of_here _ _)) as [Hin Hst].
    destruct (extract_member_step fs A data Hag Hin)
      as (fs1 & Hrun & Hag1 & Hthere & Hkeep & Hout).
    destruct (IH (fun B x HB => Hl B x (list_elem_of_further _ _ _ HB)) fs1 Hag1)
      as (fs' & Hloop & Hag' & Hall & Hkeep' & Hout').
    exists fs'. split; [|split; [assumption|split; [|split]]].
    + simpl. unfold bind at 1. rewrite Hst. unfold bind at 1. rewrite Hrun.
      unfold ret at 1. exact Hloop.
    + intros B x HB. apply elem_of_cons in HB as [[= -> ->]|HB]; [|now apply Hall].
      now apply Hkeep'.
    + intros q x Hq. apply Hkeep', Hkeep, Hq.
    + intros q Hq. rewrite Hout', Hout; auto.
Qed.

End ExtractFiles.

Section Trees.

Lemma Tree_nested_ind (P : Tree -> Prop) :
  (forall data, P (TFile data)) ->
  (forall ch, Forall (fun nc : string * Tree => P nc.2) ch -> P (TDir ch)) ->
  forall t, P t.
Proof.
  intros Hf Hd. fix IH 1. intros [data|ch]; [apply Hf|].
  apply Hd. induction ch as [|[n c] ch IHch]; constructor; [apply IH|apply IHch].
Qed.

Lemma wf_children ch :
  Spec.wf_tree (TDir ch) ->
  NoDup ch.*1
  /\ forall n c, (n, c) ∈ ch -> Spec.valid_name n /\ Spec.wf_tree c.
Proof.
  simpl. intros [Hnd Hall]. split; [assumption|]. clear Hnd.
  induction ch as [|[m c0] ch IH]; intros n c Hin; [inversion Hin|].
  destruct Hall as (Hv & Hw & Hrest).
  apply elem_of_cons in Hin as [[= -> ->]|Hin]; [auto|].
  now apply IH.
Qed.

Lemma child_Some ch n c : Spec.child ch n = Some c -> (n, c) ∈ ch.
Proof.
  induction ch as [|[m c0] ch IH]; simpl; [discriminate|].
  destruct (String.eqb_spec m n) as [->|].
  - intros [= ->]. left.
  - intros H. right. now apply IH.
Qed.

Lemma child_in ch n c : NoDup ch.*1 -> (n, c) ∈ ch -> Spec.child ch n = Some c.
Proof.
  induction ch as [|[m c0] ch IH]; intros Hnd Hin; [inversion Hin|].
  simpl in Hnd. apply NoDup_cons in Hnd as [Hm Hnd]. simpl.
  apply elem_of_cons in Hin as [[= -> ->]|Hin].
  - now rewrite String.eqb_refl.
  - destruct (String.eqb_spec m n) as [->|]; [|now apply IH].
    exfalso. apply Hm. apply list_elem_of_fmap. exists (n, c). auto.
Qed.

Lemma walk_files_elem root ch p data :
  (p, data) ∈ _ZipArchive.walk_files root ch
  <-> exists n, (n, TFile data) ∈ ch /\ _ZipArchive.hidden n = false
                /\ p = root ++ [n].
Proof.
  unfold _ZipArchive.walk_files. rewrite list_elem_of_In, in_flat_map. split.
  - intros ([n c] & Hin & Hp). apply list_elem_of_In in Hin.
    destruct c as [data'|]; [|inversion Hp].
    destruct (_ZipArchive.hidden n) eqn:Eh; [inversion Hp|].
    destruct Hp as [[= <- <-]|[]]. eauto.
  - intros (n & Hin & Hh & ->). exists (n, TFile data).
    split; [now apply list_elem_of_In|]. rewrite Hh. now left.
Qed.

Lemma walk_dirs_elem root ch p data :
  (p, data) ∈ flat_map (fun nc : string * Tree =>
                          let '(d, c) := nc in
                          match c with
                          | TDir _ => if _ZipArchive.hidden d then []
                                      else _ZipArchive.walk (root ++ [d]) c
                          | TFile _ => []
                          end) ch
  <-> exists n sub, (n, TDir sub) ∈ ch /\ _ZipArchive.hidden n = false
                    /\ (p, data) ∈ _ZipArchive.walk (root ++ [n]) (TDir sub).
Proof.
  rewrite list_elem_of_In, in_flat_map. split.
  - intros ([n c] & Hin & Hp). apply list_elem_of_In in Hin.
    destruct c as [|sub]; [inversion Hp|].
    destruct (_ZipArchive.hidden n) eqn:Eh; [inversion Hp|].
    apply list_elem_of_In in Hp. eauto.
  - intros (n & sub & Hin & Hh & Hp). exists (n, TDir sub).
    split; [now apply list_elem_of_In|]. rewrite Hh. now apply list_elem_of_In.
Qed.

(** [os.walk], with the pruning of [save], reaches exactly the visible
    files of the tree. *)
Lemma walk_spec t :
  Spec.wf_tree t ->
  forall root p data,
    (p, data) ∈ _ZipArchive.walk root t
    <-> exists q, q <> [] /\ p = root ++ q /\ Spec.visible_file t q = Some data.
Proof.
  induction t as [d0|ch IH] using Tree_nested_ind; intros Hwf root p data.
  - simpl. split; [intros H; inversion H|].
    intros ([|n q] & Hne & _ & Hv); [congruence|discriminate Hv].
  - destruct (wf_children ch Hwf) as [Hnd Hch].
    rewrite Forall_forall in IH.
    cbn [_ZipArchive.walk]. rewrite elem_of_app, walk_files_elem, walk_dirs_elem.
    split.
    + intros [(n & Hin & Hh & ->)|(n & sub & Hin & Hh & Hp)].
      * exists [n]. split; [discriminate|]. split; [reflexivity|].
        simpl. rewrite Hh, (child_in _ _ _ Hnd Hin). reflexivity.
      * destruct (Hch _ _ Hin) as [_ Hwsub].
        apply (IH (n, TDir sub) Hin Hwsub) in Hp as (q & Hq & -> & Hv).
        exists (n :: q). split; [discriminate|].
        split; [now rewrite <- app_assoc|].
        simpl. rewrite Hh, (child_in _ _ _ Hnd Hin). exact Hv.
    + intros ([|n q] & Hne & -> & Hv); [congruence|].
      simpl in Hv. destruct (_ZipArchive.hidden n) eqn:Hh; [discriminate|].
      destruct (Spec.child ch n) as [c|] eqn:Ec; [|discriminate].
      apply child_Some in Ec. destruct (Hch _ _ Ec) as [_ Hwc].
      destruct q as [|m q'].
      * destruct c as [data'|]; [|discriminate]. injection Hv as ->.
        left. eauto.
      * destruct c as [|sub]; [discriminate|]. right. exists n, sub.
        split; [assumption|]. split; [assumption|].
        apply (IH (n, TDir sub) Ec Hwc). exists (m :: q').
        split; [discriminate|]. split; [now rewrite <- app_assoc|exact Hv].
Qed.

Lemma visible_file_prefix_free q :
  forall t r d1 d2,
    Spec.visible_file t q = Some d1 -> Spec.visible_file t (q ++ r) = Some d2 ->
    r = [] /\ d1 = d2.
Proof.
  induction q as [|n q IH]; intros t r d1 d2 H1 H2.
  - simpl in *. destruct t as [data|]; [|discriminate]. injection H1 as ->.
    destruct r; [|discriminate]. simpl in H2. split; congruence.
  - simpl in *. destruct t as [|ch]; [discriminate|].
    destruct (_ZipArchive.hidden n); [discriminate|].
    destruct (Spec.child ch n) as [c|]; [|discriminate]. eauto.
Qed.

Lemma visible_file_valid q :
  forall t data,
    Spec.wf_tree t -> Spec.visible_file t q = Some data ->
    Forall Spec.valid_name q.
Proof.
  induction q as [|n q IH]; intros t data Hwf Hv; [constructor|].
  simpl in Hv. destruct t as [|ch]; [discriminate|].
  destruct (_ZipArchive.hidden n); [discriminate|].
  destruct (Spec.child ch n) as [c|] eqn:Ec; [|discriminate].
  apply child_Some in Ec. destruct (wf_children ch Hwf) as [_ Hch].
  destruct (Hch _ _ Ec) as [Hn Hc]. constructor; [assumption|eauto].
Qed.

End Trees.

Section Saving.

Lemma normpath_valid b (comps : Path) :
  Forall Spec.valid_name comps ->
  forall acc, Zipfile.normpath_comps b acc comps = rev acc ++ comps.
Proof.
  induction 1 as [|c comps Hc _ IH]; intros acc; simpl.
  - now rewrite app_nil_r.
  - destruct Hc as (H1 & H2 & H3 & _).
    rewrite bool_decide_eq_false_2
      by (rewrite !elem_of_cons, elem_of_nil; intuition congruence).
    apply String.eqb_neq in H3. rewrite H3, IH. simpl.
    now rewrite <- app_assoc.
Qed.

Lemma valid_first_char n :
  Spec.valid_name n -> exists c n', n = String c n' /\ Ascii.eqb c "/" = false.
Proof.
  intros (H1 & _ & _ & H4). destruct n as [|c n']; [congruence|].
  exists c, n'. split; [reflexivity|]. simpl in H4.
  now apply orb_false_iff in H4 as [H4 _].
Qed.

Lemma join_first_char n (A : Path) c n' :
  n = String c n' -> exists s, Str.join "/" (n :: A) = String c s.
Proof.
  intros ->. destruct A as [|m A]; [simpl; eauto|].
  rewrite join_cons_cons, app_cons. eauto.
Qed.

Lemma stored_name_valid (A : Path) :
  A <> [] -> Forall Spec.valid_name A ->
  Zipfile.stored_name (Str.join "/" A) = Ok (Str.join "/" A).
Proof.
  intros HA VA. unfold Zipfile.stored_name.
  rewrite split_join by (auto using valid_no_slash).
  rewrite normpath_valid by exact VA. simpl rev. simpl app.
  destruct A as [|n A']; [congruence|]. reflexivity.
Qed.

Lemma as_zip_path_valid (A : Path) :
  A <> [] -> Forall Spec.valid_name A ->
  _ZipArchive._as_zip_path A = Str.join "/" A.
Proof.
  intros HA VA. unfold _ZipArchive._as_zip_path, PosixPath.render.
  destruct A as [|n A']; [congruence|].
  inversion VA as [|? ? Hn _]; subst.
  destruct (valid_first_char n Hn) as (c & n' & E & Hc).
  assert (String.eqb n "/" = false /\ String.eqb n "//" = false) as [-> ->].
  { rewrite E. simpl. rewrite Hc. auto. }
  simpl orb. cbv iota.
  destruct (String.eqb_spec (Str.join "/" (n :: A')) ".") as [Ej|]; [|reflexivity].
  exfalso. pose proof (sanitize_join (n :: A') HA VA) as Hs.
  rewrite Ej in Hs. discriminate Hs.
Qed.

Lemma write_all_valid parent (l : list (Path * string)) :
  (forall p data, (p, data) ∈ l ->
     drop (length parent) p <> [] /\ Forall Spec.valid_name (drop (length parent) p)) ->
  forall z0,
    _ZipArchive.write_all parent l z0
    = (Ok (z0 ++ Spec.members_of
                   (map (fun pd : Path * string => (drop (length parent) pd.1, pd.2)) l)),
       z0 ++ Spec.members_of
               (map (fun pd : Path * string => (drop (length parent) pd.1, pd.2)) l)).
Proof.
  induction l as [|[p data] l IH]; intros Hl z0.
  - simpl. now rewrite app_nil_r.
  - destruct (Hl p data (list_elem_of_here _ _)) as [HA VA].
    cbn [_ZipArchive.write_all]. unfold Zipfile.write.
    rewrite as_zip_path_valid, stored_name_valid by assumption.
    rewrite IH by (intros q x Hq; apply (Hl q x); now right).
    simpl. now rewrite <- !app_assoc.
Qed.

(** The files of the tree at [sp/u], named from [u] on. *)
Lemma tree_files (sp : Path) (u : string) (t : Tree) :
  Spec.wf_tree t -> Spec.valid_name u ->
  let files := map (fun pd : Path * string => (drop (length sp) pd.1, pd.2))
                 (_ZipArchive.walk (sp ++ [u]) t) in
  (forall A data, (A, data) ∈ files
     <-> exists q, q <> [] /\ A = u :: q /\ Spec.visible_file t q = Some data)
  /\ (forall A data, (A, data) ∈ files -> head A = Some u /\ Forall Spec.valid_name A)
  /\ (forall A r d1 d2, (A, d1) ∈ files -> (A ++ r, d2) ∈ files -> r = [] /\ d1 = d2).
Proof.
  intros Hwf Hu files.
  assert (Hspec : forall A data, (A, data) ∈ files
     <-> exists q, q <> [] /\ A = u :: q /\ Spec.visible_file t q = Some data).
  { intros A data. unfold files. rewrite list_elem_of_fmap. split.
    - intros ([p x] & [= -> ->] & Hin). simpl.
      apply (walk_spec t Hwf) in Hin as (q & Hq & -> & Hv).
      exists q. split; [assumption|]. split; [|assumption].
      rewrite <- app_assoc. now rewrite drop_app_length.
    - intros (q & Hq & -> & Hv). exists ((sp ++ [u]) ++ q, data). split.
      + simpl. rewrite <- app_assoc. now rewrite drop_app_length.
      + apply (walk_spec t Hwf). eauto. }
  split; [exact Hspec|]. split.
  - intros A data HA. apply Hspec in HA as (q & _ & -> & Hv).
    split; [reflexivity|]. constructor; [assumption|].
    eapply visible_file_valid; eassumption.
  - intros A r d1 d2 H1 H2.
    apply Hspec in H1 as (q1 & _ & -> & Hv1).
    apply Hspec in H2 as (q2 & _ & E & Hv2).
    simpl in E. injection E as <-.
    eapply visible_file_prefix_free; eassumption.
Qed.

Lemma save_spec (sp : Path) (u : string) (t : Tree) (container : Path) (fs : FS) :
  Spec.wf_tree t -> Spec.valid_name u ->
  fs !! Os.dirname container = Some Dir -> fs !! container <> Some Dir ->
  _ZipArchive.save (fun _ => None) (sp ++ [u]) t container fs
  = (Ok tt,
     <[container := ZipFile
         (Spec.members_of
            (map (fun pd : Path * string => (drop (length sp) pd.1, pd.2))
               (_ZipArchive.walk (sp ++ [u]) t)))]> fs).
Proof.
  intros Hwf Hu Hdir Hnd.
  destruct (tree_files sp u t Hwf Hu) as (_ & Hvalid & _).
  unfold _ZipArchive.save. unfold Os.dirname at 1. rewrite removelast_snoc.
  rewrite (write_all_valid sp _) with (z0 := []).
  2:{ intros p data Hin.
      assert (Hf : (drop (length sp) p, data)
                   ∈ map (fun pd : Path * string => (drop (length sp) pd.1, pd.2))
                       (_ZipArchive.walk (sp ++ [u]) t)).
      { apply list_elem_of_fmap. exists (p, data). auto. }
      destruct (Hvalid _ _ Hf) as [Hh Hv]. split; [|assumption].
      destruct (drop (length sp) p); discriminate. }
  simpl app. unfold bind, Os.write_file, modify, lift_result.
  rewrite Hdir.
  assert (Hw : match fs !! container with
               | Some Dir => (Raise (IsADirectoryError container), fs)
               | _ => (Ok tt, <[container := File ""]> fs)
               end = (@Ok unit tt, <[container := File ""]> fs)).
  { destruct (fs !! container) as [[]|]; congruence. }
  rewrite Hw. simpl. now rewrite insert_insert_eq.
Qed.

End Saving.

(* ===================================================================== *)
(** ** What was saved is read back *)
(* ===================================================================== *)

Section SavedContainer.

Lemma uuid4_valid_name u : Util.is_uuid4 u = true -> Spec.valid_name u.
Proof.
  intros Hu. destruct (uuid4_first u Hu) as (c & u' & E & Hc).
  pose proof (hex_not_dot c Hc) as Hd.
  repeat split; try (rewrite E; intros [=]; congruence).
  now apply uuid4_no_slash.
Qed.

Lemma uuid4_visible u : Util.is_uuid4 u = true -> Str.startswith u "." = false.
Proof.
  intros Hu. destruct (uuid4_first u Hu) as (c & u' & -> & Hc).
  change (Str.startswith (String c u') ".")
    with (if Ascii.eqb "." c then true else false).
  destruct (Ascii.eqb_spec "." c) as [<-|]; [discriminate Hc|reflexivity].
Qed.

Lemma filter_components_valid (A : Path) :
  Forall Spec.valid_name A -> filter (fun x => x ∉ [""; "."]) A = A.
Proof.
  induction 1 as [|n A Hn _ IH]; [reflexivity|].
  rewrite filter_cons_True, IH; [reflexivity|].
  destruct Hn as (H1 & H2 & _). rewrite !elem_of_cons, elem_of_nil. tauto.
Qed.

(** The parts of a member name made of valid components are those
    components. *)
Lemma parts_join (A : Path) :
  A <> [] -> Forall Spec.valid_name A -> PosixPath.parts (Str.join "/" A) = A.
Proof.
  intros HA VA. unfold PosixPath.parts, PosixPath.components.
  rewrite split_join by (auto using valid_no_slash).
  rewrite filter_components_valid by exact VA.
  destruct A as [|n A']; [congruence|].
  inversion VA as [|? ? Hn _]; subst.
  destruct (valid_first_char n Hn) as (c & n' & E & Hc).
  destruct (join_first_char n A' c n' E) as [s ->].
  rewrite root_of_plain by exact Hc. reflexivity.
Qed.

Lemma startswith_refl s : Str.startswith s s = true.
Proof. induction s as [|c s IH]; simpl; [reflexivity|now rewrite Ascii.eqb_refl]. Qed.

Lemma member_starts_with_root u (A : Path) :
  head A = Some u -> Str.startswith (Str.join "/" A) u = true.
Proof.
  destruct A as [|n [|m A]]; intros [= ->].
  - apply startswith_refl.
  - rewrite join_cons_cons. apply startswith_app.
Qed.

(** The visible roots of a container whose members all lie under [u]. *)
Lemma members_roots u (files : list (Path * string)) :
  Util.is_uuid4 u = true -> files <> [] ->
  (forall A data, (A, data) ∈ files -> head A = Some u /\ Forall Spec.valid_name A) ->
  Spec.visible_roots (Spec.members_of files) = {[u]}.
Proof.
  intros Hu Hne Hvalid. apply set_eq. intros x.
  unfold Spec.visible_roots, Spec.top_level_entries, Zipfile.namelist, Spec.members_of.
  rewrite elem_of_filter, elem_of_list_to_set, list_elem_of_omap, elem_of_singleton.
  split.
  - intros (_ & name & Hin & Hh).
    apply list_elem_of_fmap in Hin as ([n d0] & -> & Hin).
    apply list_elem_of_fmap in Hin as ([A data] & [= -> ->] & Hin).
    destruct (Hvalid _ _ Hin) as [HA VA]. simpl in Hh.
    rewrite parts_join in Hh; [congruence| |assumption].
    destruct A; discriminate.
  - intros ->. split; [now apply uuid4_visible|].
    destruct files as [|[A data] files']; [congruence|].
    destruct (Hvalid A data (list_elem_of_here _ _)) as [HA VA].
    exists (Str.join "/" A). split; [left|].
    rewrite parts_join; [assumption| |assumption].
    destruct A; discriminate.
Qed.

(** A container made of the files of a tree rooted at a UUID, with a
    VERSION file the parser reads, constructs a backend with that UUID and
    those versions. *)
Lemma zip_init_members (fs : FS) (p : Path) u (files : list (Path * string))
    text v fv :
  fs !! p = Some (ZipFile (Spec.members_of files)) ->
  Util.is_uuid4 u = true ->
  (forall A data, (A, data) ∈ files -> head A = Some u /\ Forall Spec.valid_name A) ->
  (forall A r d1 d2, (A, d1) ∈ files -> (A ++ r, d2) ∈ files -> r = [] /\ d1 = d2) ->
  ([u; "VERSION"], text) ∈ files ->
  _Archive.parse_versions (Os.universal_newlines text) = Ok (v, fv) ->
  _ZipArchive.__init__ fs p = Ok (mkArchive ZipKind p u v fv).
Proof.
  intros Hp Hu Hvalid Hpf Hver Hparse. unfold _ZipArchive.__init__.
  rewrite (zip_get_uuid fs p _ Hp). cbv zeta.
  rewrite (members_roots u files Hu) by (try assumption; intros ->; inversion Hver).
  rewrite size_singleton, elements_singleton. simpl Nat.eqb. simpl Nat.ltb.
  cbv iota. rewrite Hu. simpl negb. cbv iota. simpl rbind.
  unfold _ZipArchive.open. rewrite version_member_name by exact Hu.
  unfold Zipfile.open_zip. rewrite Hp. simpl rbind.
  change (u +:+ "/VERSION") with (Str.join "/" [u; "VERSION"]).
  rewrite (member_data u files Hvalid Hpf _ _ Hver). simpl rbind.
  unfold _Archive._get_versions. simpl rbind. rewrite Hparse. reflexivity.
Qed.

Lemma makedirs_child (fs : FS) (d : Path) (x : string) :
  fs !! d = Some Dir -> fs !! (d ++ [x]) = None ->
  Os.makedirs (d ++ [x]) fs = (Ok tt, <[d ++ [x] := Dir]> fs).
Proof.
  intros Hd Hx. unfold Os.makedirs. rewrite rev_app_distr. simpl rev at 1.
  simpl app. cbn [Os.makedirs_rev]. rewrite rev_involutive.
  unfold Os.exists_. rewrite Hd.
  replace (rev (x :: rev d)) with (d ++ [x])
    by (simpl; now rewrite rev_involutive).
  unfold Os.mkdir. rewrite Hx. unfold Os.dirname. rewrite removelast_snoc, Hd.
  reflexivity.
Qed.

Lemma prefix_snoc_cons (d : Path) (x : string) (q : Path) :
  (d ++ [x]) `prefix_of` (d ++ x :: q).
Proof. exists q. now rewrite <- app_assoc. Qed.

End SavedContainer.

(* ===================================================================== *)
(** ** Every file is walked once *)
(* ===================================================================== *)

Section WalkOnce.

Lemma NoDup_flat_map_keyed (root : Path)
    (h : string * Tree -> list (Path * string)) (ch : list (string * Tree)) :
  NoDup ch.*1 ->
  (forall n c, (n, c) ∈ ch -> NoDup (h (n, c)).*1) ->
  (forall n c p, (n, c) ∈ ch -> p ∈ (h (n, c)).*1 -> exists q, p = root ++ n :: q) ->
  NoDup (flat_map h ch).*1.
Proof.
  induction ch as [|[n c] ch IH]; intros Hnd Hone Hkey; [constructor|].
  simpl in Hnd. apply NoDup_cons in Hnd as [Hn Hnd].
  cbn [flat_map]. rewrite fmap_app. apply NoDup_app. split; [|split].
  - apply Hone. left.
  - intros p Hp Hp'.
    destruct (Hkey n c p (list_elem_of_here _ _) Hp) as [q ->].
    apply list_elem_of_fmap in Hp' as ([p' d'] & Hpe & Hin). simpl in Hpe. subst p'.
    apply list_elem_of_In, in_flat_map in Hin as ([m c'] & Hm & Hin).
    apply list_elem_of_In in Hm. apply list_elem_of_In in Hin.
    destruct (Hkey m c' (root ++ n :: q)) as [q' E]; [now right| |].
    + apply list_elem_of_fmap. exists (root ++ n :: q, d'). auto.
    + apply app_inv_head in E. injection E as -> _.
      apply Hn. apply list_elem_of_fmap. exists (m, c'). auto.
  - apply IH; [assumption| |].
    + intros m c' Hm. apply Hone. now right.
    + intros m c' p Hm. apply Hkey. now right.
Qed.

Lemma walk_nodup t :
  Spec.wf_tree t -> forall root, NoDup (_ZipArchive.walk root t).*1.
Proof.
  induction t as [d0|ch IH] using Tree_nested_ind; intros Hwf root; [constructor|].
  destruct (wf_children ch Hwf) as [Hnd Hch]. rewrite Forall_forall in IH.
  cbn [_ZipArchive.walk]. rewrite fmap_app. apply NoDup_app. split; [|split].
  - unfold _ZipArchive.walk_files.
    apply (NoDup_flat_map_keyed root); [assumption| |].
    + intros n c _. destruct c as [data|sub]; [|constructor].
      destruct (_ZipArchive.hidden n); [constructor|apply NoDup_singleton].
    + intros n c p _ Hp. destruct c as [data|sub]; [|inversion Hp].
      destruct (_ZipArchive.hidden n); [inversion Hp|].
      apply list_elem_of_singleton in Hp. exists []. exact Hp.
  - intros p Hp Hp'.
    apply list_elem_of_fmap in Hp as ([p1 d1] & E1 & H1). simpl in E1. subst p1.
    apply list_elem_of_fmap in Hp' as ([p2 d2] & E2 & H2). simpl in E2. subst p2.
    apply walk_files_elem in H1 as (n & _ & _ & E).
    apply walk_dirs_elem in H2 as (m & sub & Hin & _ & Hw).
    destruct (Hch _ _ Hin) as [_ Hwsub].
    apply (walk_spec _ Hwsub) in Hw as (q & Hq & E' & _).
    rewrite E', <- app_assoc in E. apply app_inv_head in E.
    destruct q; [congruence|discriminate E].
  - apply (NoDup_flat_map_keyed root); [assumption| |].
    + intros n c Hin. destruct c as [data|sub]; [constructor|].
      destruct (_ZipArchive.hidden n); [constructor|].
      destruct (Hch _ _ Hin) as [_ Hwsub].
      apply (IH (n, TDir sub) Hin Hwsub).
    + intros n c p Hin Hp. destruct c as [data|sub]; [inversion Hp|].
      destruct (_ZipArchive.hidden n); [inversion Hp|].
      destruct (Hch _ _ Hin) as [_ Hwsub].
      apply list_elem_of_fmap in Hp as ([p' d'] & E & Hw). simpl in E. subst p'.
      apply (walk_spec _ Hwsub) in Hw as (q & _ & -> & _).
      exists q. now rewrite <- app_assoc.
Qed.

(** The members written for the files walked below [sp/u] bear pairwise
    distinct names. *)
Lemma members_nodup (sp : Path) (u : string) (t : Tree) :
  Spec.wf_tree t -> Spec.valid_name u ->
  NoDup (Spec.members_of
           (map (fun pd : Path * string => (drop (length sp) pd.1, pd.2))
              (_ZipArchive.walk (sp ++ [u]) t))).*1.
Proof.
  intros Hwf Hu.
  destruct (tree_files sp u t Hwf Hu) as (_ & Hvalid & _).
  unfold Spec.members_of.
  rewrite <- !list_fmap_compose.
  apply NoDup_fmap_2_strong.
  - intros [p1 d1] [p2 d2] H1 H2 E. simpl in E.
    assert (Hf : forall p d0, (p, d0) ∈ _ZipArchive.walk (sp ++ [u]) t ->
                   exists q, p = sp ++ u :: q
                             /\ Forall Spec.valid_name (u :: q)).
    { intros p d0 Hin.
      destruct (Hvalid (drop (length sp) p) d0) as [_ Hv].
      { apply list_elem_of_fmap. exists (p, d0). auto. }
      apply (walk_spec t Hwf) in Hin as (q & _ & -> & _).
      exists q. rewrite <- app_assoc in *. rewrite drop_app_length in Hv. auto. }
    destruct (Hf _ _ H1) as (q1 & -> & V1).
    destruct (Hf _ _ H2) as (q2 & -> & V2).
    rewrite !drop_app_length in E.
    apply join_inj in E; try assumption; try discriminate.
    injection E as ->.
    f_equal.
    apply (walk_spec t Hwf) in H1 as (qx & _ & Ex & Hvx).
    apply (walk_spec t Hwf) in H2 as (qy & _ & Ey & Hvy).
    rewrite Ex in Ey. apply app_inv_head in Ey. subst qy. congruence.
  - apply NoDup_fmap_1 with (f := fst). apply walk_nodup. exact Hwf.
Qed.

End WalkOnce.





Ltac by_decide := apply (bool_decide_unpack _); vm_compute; exact I.

Ltac solve_wf_tree :=
  cbn [Spec.wf_tree fmap list_fmap fst];
  repeat split; try discriminate; try reflexivity; try by_decide.





(* ===================================================================== *)
(** ** Dispatch *)
(* ===================================================================== *)



(* ===================================================================== *)
(** ** The VERSION file of a new archive *)
(* ===================================================================== *)

Section Setup.

Lemma write_file_ok (fault : Path -> option Exn) (p : Path) (data : string)
    (fs fs' : FS) :
  Os.write_file fault p data fs = (Ok tt, fs') ->
  fs !! Os.dirname p = Some Dir /\ fs' = <[p := File data]> fs.
Proof.
  unfold Os.write_file. destruct (fault p); [discriminate|].
  destruct (fs !! p) as [[]|]; destruct (fs !! Os.dirname p) as [[]|];
    intros [= <-]; auto.
Qed.

(** Text without carriage return reads in text mode as it is. *)
Lemma universal_newlines_id s :
  Str.contains "013" s = false -> Os.universal_newlines s = s.
Proof.
  induction s as [|c s IH]; [reflexivity|].
  intros H. cbn [Str.contains] in H. apply orb_false_iff in H as [Hc Hs].
  specialize (IH Hs).
  destruct c as [[] [] [] [] [] [] [] []];
    try discriminate Hc; cbn [Os.universal_newlines]; now rewrite IH.
Qed.

Lemma template_no_cr v fv :
  Str.contains "013" v = false -> Str.contains "013" fv = false ->
  Str.contains "013" (_Archive._VERSION_TEMPLATE v fv) = false.
Proof.
  intros Hv Hf. unfold _Archive._VERSION_TEMPLATE.
  rewrite !contains_app, Hv, Hf. reflexivity.
Qed.

End Setup.

(** The VERSION file [setup] writes is the one a backend reads: after a
    successful [setup] with plain version strings, [get_archive] on the
    directory gives a directory backend with those versions.  The UUID of
    that backend is the name of the directory. *)
Theorem setup_is_read_back (fault : Path -> option Exn) (u : string) (p : Path)
    (v fv : string) (fs fs' : FS) (rec : ArchiveRecord) :
  Spec.plain v -> Spec.plain fv ->
  Str.contains "013" v = false -> Str.contains "013" fv = false ->
  _Archive.setup fault u p v fv fs = (Ok rec, fs') ->
  rec = mkArchiveRecord p (p ++ ["VERSION"]) u v fv
  /\ fs' = <[p ++ ["VERSION"] := File (_Archive._VERSION_TEMPLATE v fv)]> fs
  /\ Archiver.get_archive fs' p
     = Ok (mkArchive NoOpKind p (Os.basename p) v fv).
Proof.
  intros Hv Hf Hcv Hcf Hrun. unfold _Archive.setup in Hrun.
  apply bind_run in Hrun as [([] & fs1 & Hw & [= <- <-])|(e & _ & [=])].
  apply write_file_ok in Hw as [Hd ->].
  unfold Os.dirname in Hd. rewrite removelast_snoc in Hd.
  split; [reflexivity|]. split; [reflexivity|].
  assert (Hne : p ++ ["VERSION"] <> p).
  { intros E. apply (f_equal length) in E. rewrite length_app in E. simpl in E. lia. }
  unfold Archiver.get_archive, Os.exists_, _ZipArchive.is_archive_type,
    _NoOpArchive.is_archive_type, Zipfile.is_zipfile, Os.isdir.
  rewrite lookup_insert_ne, Hd by exact Hne. simpl negb. cbv iota.
  unfold _NoOpArchive.__init__, _NoOpArchive.open, Os.join, Os.read_text.
  change (String.eqb _Archive.VERSION_FILE "") with false. cbv iota.
  change [_Archive.VERSION_FILE] with ["VERSION"].
  rewrite lookup_insert_eq.
  rewrite universal_newlines_id by (now apply template_no_cr).
  unfold _Archive._get_versions. simpl rbind.
  rewrite parse_template by assumption. reflexivity.
Qed.

(** A version-5 VERSION file written into the directory [pool]. *)
Lemma setup_is_read_back_witness :
  let run := _Archive.setup (fun _ => None) Sample.U ["pool"] "5" "2023.2.0"
               Sample.disk in
  run.1 = Ok (mkArchiveRecord ["pool"] (["pool"] ++ ["VERSION"]) Sample.U "5" "2023.2.0")
  /\ Archiver.get_archive run.2 ["pool"]
     = Ok (mkArchive NoOpKind ["pool"] (Os.basename ["pool"]) "5" "2023.2.0").
Proof.
  intros run.
  destruct (setup_is_read_back (fun _ => None) Sample.U ["pool"] "5" "2023.2.0"
              Sample.disk run.2
              (mkArchiveRecord ["pool"] ["pool"; "VERSION"] Sample.U "5" "2023.2.0"))
    as (_ & _ & Hga).
  - repeat split; reflexivity.
  - repeat split; reflexivity.
  - reflexivity.
  - reflexivity.
  - unfold run. by_outcome.
  - split; [vm_compute; reflexivity|exact Hga].
Defined.

(* ===================================================================== *)
(** ** Listing the entries of an archive *)
(* ===================================================================== *)

Section Listing.

Lemma zip_iterdir_spec relpath names (seen : gset string) x :
  x ∈ _ZipArchive.iterdir_loop relpath seen names
  <-> ((x ∉ seen)
       /\ exists name, name ∈ names /\ Str.startswith name relpath = true
                       /\ head (PosixPath.parts name) = Some x).
Proof.
  revert seen. induction names as [|name names IH]; intros seen.
  - simpl. split; [intros H; inversion H|intros (_ & n & H & _); inversion H].
  - cbn [_ZipArchive.iterdir_loop].
    destruct (Str.startswith name relpath) eqn:Es.
    + destruct (PosixPath.parts name) as [|r rest] eqn:Ep.
      * rewrite IH. split; intros (Hx & n & Hn & Hs & Hh).
        -- split; [assumption|]. exists n. split; [now right|auto].
        -- split; [assumption|]. apply elem_of_cons in Hn as [->|Hn].
           ++ rewrite Ep in Hh. discriminate.
           ++ eauto.
      * destruct (bool_decide_reflect (r ∈ seen)) as [Hin|Hout].
        -- rewrite IH. split; intros (Hx & n & Hn & Hs & Hh).
           ++ split; [assumption|]. exists n. split; [now right|auto].
           ++ split; [assumption|]. apply elem_of_cons in Hn as [->|Hn].
              ** rewrite Ep in Hh. injection Hh as ->. contradiction.
              ** eauto.
        -- rewrite elem_of_cons, IH, elem_of_union, elem_of_singleton. split.
           ++ intros [->|(Hx & n & Hn & Hs & Hh)].
              ** split; [assumption|]. exists name. split; [left|].
                 split; [assumption|]. now rewrite Ep.
              ** split; [tauto|]. exists n. split; [now right|auto].
           ++ intros (Hx & n & Hn & Hs & Hh).
              destruct (decide (x = r)) as [->|Hne]; [now left|]. right.
              split; [tauto|]. apply elem_of_cons in Hn as [->|Hn].
              ** rewrite Ep in Hh. injection Hh as ->. congruence.
              ** eauto.
    + rewrite IH. split; intros (Hx & n & Hn & Hs & Hh).
      * split; [assumption|]. exists n. split; [now right|auto].
      * split; [assumption|]. apply elem_of_cons in Hn as [->|Hn]; [congruence|].
        eauto.
Qed.

Lemma zip_iterdir_nodup relpath names :
  forall seen : gset string, NoDup (_ZipArchive.iterdir_loop relpath seen names).
Proof.
  induction names as [|name names IH]; intros seen; [constructor|].
  cbn [_ZipArchive.iterdir_loop].
  destruct (Str.startswith name relpath); [|apply IH].
  destruct (PosixPath.parts name) as [|r rest]; [apply IH|].
  destruct (bool_decide (r ∈ seen)); [apply IH|].
  constructor; [|apply IH].
  rewrite zip_iterdir_spec. intros [Hr _]. apply Hr. set_solver.
Qed.

Lemma noop_iterdir_spec relpath names (seen : gset string) x :
  x ∈ _NoOpArchive.iterdir_loop relpath seen names
  <-> ((x ∉ seen) /\ x ∈ names /\ Str.startswith x relpath = true).
Proof.
  revert seen. induction names as [|name names IH]; intros seen.
  - simpl. split; [intros H; inversion H|intros (_ & H & _); inversion H].
  - cbn [_NoOpArchive.iterdir_loop].
    destruct (Str.startswith name relpath) eqn:Es;
      [destruct (bool_decide_reflect (name ∈ seen)) as [Hin|Hout]|];
      cbn [andb negb].
    + rewrite IH, elem_of_cons. split; [tauto|].
      intros (Hx & [->|Hn] & Hs); [contradiction|tauto].
    + rewrite !elem_of_cons, IH, elem_of_union, elem_of_singleton. split.
      * intros [->|(Hx & Hn & Hs)]; [tauto|]. tauto.
      * intros (Hx & [->|Hn] & Hs); [now left|].
        destruct (decide (x = name)) as [->|Hne]; [now left|]. right. tauto.
    + rewrite IH, elem_of_cons. split; [tauto|].
      intros (Hx & [->|Hn] & Hs); [congruence|tauto].
Qed.

Lemma noop_iterdir_nodup relpath names :
  forall seen : gset string, NoDup (_NoOpArchive.iterdir_loop relpath seen names).
Proof.
  induction names as [|name names IH]; intros seen; [constructor|].
  cbn [_NoOpArchive.iterdir_loop].
  destruct (Str.startswith name relpath && negb (bool_decide (name ∈ seen)));
    [|apply IH].
  constructor; [|apply IH].
  rewrite noop_iterdir_spec. intros [Hr _]. apply Hr. set_solver.
Qed.

End Listing.

(** [relative_iterdir] yields every name once.  For a container, the
    names are the first components of the members whose name starts with
    the text of the relative path -- top-level names, whatever the path
    asked for; for a directory, the entries of the directory whose name
    starts with that text. *)
Theorem relative_iterdir_yields_each_name_once :
  (forall (fs : FS) (p : Path) z relpath,
     fs !! p = Some (ZipFile z) ->
     exists names,
       _ZipArchive.relative_iterdir fs p relpath = Ok names
       /\ NoDup names
       /\ forall x,
            x ∈ names
            <-> exists name,
                  name ∈ Zipfile.namelist z
                  /\ Str.startswith name
                       (_ZipArchive._as_zip_path (PosixPath.parts relpath)) = true
                  /\ head (PosixPath.parts name) = Some x)
  /\ (forall (fs : FS) (p : Path) relpath,
        Os.isdir fs p = true ->
        NoDup (_NoOpArchive.relative_iterdir fs p relpath)
        /\ forall x,
             x ∈ _NoOpArchive.relative_iterdir fs p relpath
             <-> x ∈ Os.listdir fs p /\ Str.startswith x relpath = true).
Proof.
  split.
  - intros fs p z relpath Hz. unfold _ZipArchive.relative_iterdir, Zipfile.open_zip.
    rewrite Hz. simpl rbind. eexists. split; [reflexivity|].
    split; [apply zip_iterdir_nodup|].
    intros x. rewrite zip_iterdir_spec. split; [tauto|].
    intros H. split; [set_solver|exact H].
  - intros fs p relpath _. unfold _NoOpArchive.relative_iterdir.
    split; [apply noop_iterdir_nodup|].
    intros x. rewrite noop_iterdir_spec. split; [tauto|].
    intros H. split; [set_solver|exact H].
Qed.

(** The sample container lists its one root, though three members lie
    under it. *)
Lemma relative_iterdir_yields_each_name_once_witness :
  exists names,
    _ZipArchive.relative_iterdir Sample.disk ["in"; "a.qza"] "" = Ok names
    /\ NoDup names
    /\ forall x,
         x ∈ names
         <-> exists name,
               name ∈ Zipfile.namelist Sample.members
               /\ Str.startswith name
                    (_ZipArchive._as_zip_path (PosixPath.parts "")) = true
               /\ head (PosixPath.parts name) = Some x.
Proof.
  apply (proj1 relative_iterdir_yields_each_name_once Sample.disk ["in"; "a.qza"]
           Sample.members "").
  vm_compute. reflexivity.
Defined.

(* ===================================================================== *)
(** ** Extracting what is no container *)
(* ===================================================================== *)

Section DirectoryArchive.

(** [get_archive] on a directory is the construction of a directory
    backend. *)
Lemma get_archive_dir (fs : FS) (filepath : Path) a :
  Archiver.get_archive fs filepath = Ok a ->
  Os.isdir fs filepath = true ->
  kind a = NoOpKind /\ path a = filepath /\ uuid a = Os.basename filepath.
Proof.
  unfold Archiver.get_archive, Os.exists_, _ZipArchive.is_archive_type,
    _NoOpArchive.is_archive_type, Zipfile.is_zipfile, Os.isdir.
  destruct (fs !! filepath) as [[]|]; try discriminate.
  simpl negb. cbv iota. unfold _NoOpArchive.__init__.
  destruct (_Archive._get_versions _) as [vs|e]; simpl; [|discriminate].
  intros [= <-] _. auto.
Qed.

End DirectoryArchive.

(** [Archiver.extract] works for containers only.  Asked to extract an
    unzipped archive (a directory), it creates [destination/<name of the
    directory>] and then fails on the missing [extract] method of the
    directory backend: the new, empty directory is what it leaves
    behind. *)
Theorem extract_of_directory_archive
    (c : Collab) (filepath dest : Path) (w : World) (a : Archive) :
  Archiver.get_archive (fs w) filepath = Ok a ->
  Os.isdir (fs w) filepath = true ->
  Os.basename filepath <> "" ->
  fs w !! dest = Some Dir ->
  fs w !! (dest ++ [Os.basename filepath]) = None ->
  Archiver.extract c filepath dest w
  = (Raise (AttributeError "extract"),
     mkWorld (<[dest ++ [Os.basename filepath] := Dir]> (fs w)) (pool w)).
Proof.
  intros Hga Hdir Hne Hd Hnone.
  destruct (get_archive_dir _ _ _ Hga Hdir) as (Hk & _ & Hu).
  unfold Archiver.extract. cbv beta iota delta [bind get lift_result].
  rewrite Hga. cbv beta iota zeta. rewrite Hk, Hu.
  unfold Os.join. apply String.eqb_neq in Hne. rewrite Hne.
  unfold on_fs. rewrite makedirs_child by assumption.
  reflexivity.
Qed.

(** The unzipped archive of the samples, extracted into [out]. *)
Lemma extract_of_directory_archive_witness :
  Archiver.extract Sample.calm ["pool"; "not-a-uuid"] ["out"] Sample.world
  = (Raise (AttributeError "extract"),
     mkWorld (<[["out"] ++ [Os.basename ["pool"; "not-a-uuid"]] := Dir]>
                (fs Sample.world)) (pool Sample.world)).
Proof.
  apply (extract_of_directory_archive Sample.calm ["pool"; "not-a-uuid"] ["out"]
           Sample.world
           (mkArchive NoOpKind ["pool"; "not-a-uuid"] "not-a-uuid" "5" "2023.2.0")).
  - vm_compute. reflexivity.
  - vm_compute. reflexivity.
  - vm_compute. discriminate.
  - vm_compute. reflexivity.
  - vm_compute. reflexivity.
Defined.

(* ===================================================================== *)
(** ** Binding a handle in place *)
(* ===================================================================== *)

Section InPlace.

Lemma get_archive_zip (fs : FS) (filepath : Path) a :
  Archiver.get_archive fs filepath = Ok a ->
  Zipfile.is_zipfile fs filepath = true ->
  kind a = ZipKind /\ path a = filepath /\ Util.is_uuid4 (uuid a) = true.
Proof.
  unfold Archiver.get_archive, Os.exists_, _ZipArchive.is_archive_type,
    Zipfile.is_zipfile.
  destruct (fs !! filepath) as [[]|]; try discriminate.
  simpl negb. cbv iota. intros Ha _.
  destruct (zip_init_facts _ _ _ Ha) as (Hk & Hp & Hu & _). auto.
Qed.

End InPlace.

(** [load_raw] binds a handle onto the archive where it lies.  For an
    unzipped archive of a registered version it returns a handle on the
    directory itself, whose record carries the UUID and the versions of
    the archive; the file system is not touched and the pool gains the
    alias and nothing else.  A zip container is mounted onto its own path,
    which trips the assertion of [extract] unless the file is named by the
    UUID: the call raises [AssertionError], with the alias already made. *)
Theorem load_raw_binds_in_place
    (c : Collab) (filepath : Path) (w : World) (a : Archive) (F : FormatClass) :
  Archiver.get_archive (fs w) filepath = Ok a ->
  alias_fault c (uuid a) = None ->
  Archiver.get_format_class (version a) = Ok (Some F) ->
  let rec := mkArchiveRecord filepath (filepath ++ ["VERSION"])
               (uuid a) (version a) (framework_version a) in
  let w1 := mkWorld (fs w) (<[alias_name c (uuid a) := uuid a]> (pool w)) in
  (Os.isdir (fs w) filepath = true ->
   fmt_init_fault c F rec (fs w) = None ->
   Archiver.load_raw c filepath w
   = (Ok (mkHandle filepath (alias_name c (uuid a)) (mkFmt F rec)), w1))
  /\ (Zipfile.is_zipfile (fs w) filepath = true ->
      Os.basename filepath <> uuid a ->
      fs w !! (filepath ++ ["VERSION"]) = None ->
      Archiver.load_raw c filepath w = (Raise AssertionError, w1)).
Proof.
  intros Hga Halias Hgf rec w1.
  split.
  - intros Hdir Hinit.
    destruct (get_archive_dir _ _ _ Hga Hdir) as (Hk & _ & _).
    unfold Archiver.load_raw. cbv beta iota delta [bind get lift_result].
    rewrite Hga. cbv beta iota. unfold Cache._alias. rewrite Halias.
    cbv beta iota delta [bind on_pool ret]. rewrite Hgf. cbv beta iota.
    unfold Archiver.mount. rewrite Hk. unfold _NoOpArchive.mount.
    unfold on_fs. cbv beta iota delta [ret]. cbn [fs pool].
    unfold Archiver.Format_init. cbv beta iota delta [bind get].
    change [_Archive.VERSION_FILE] with ["VERSION"]. fold rec.
    rewrite Hinit. reflexivity.
  - intros Hzip Hname Hver.
    destruct (get_archive_zip _ _ _ Hga Hzip) as (Hk & _ & _).
    unfold Archiver.load_raw. cbv beta iota delta [bind get lift_result].
    rewrite Hga. cbv beta iota. unfold Cache._alias. rewrite Halias.
    cbv beta iota delta [bind on_pool ret]. rewrite Hgf. cbv beta iota.
    unfold Archiver.mount. rewrite Hk. unfold _ZipArchive.mount.
    unfold on_fs. cbv beta iota delta [bind get]. cbn [fs pool].
    unfold Os.exists_.
    rewrite Hver. simpl negb. cbv iota.
    unfold _ZipArchive.extract. cbv beta iota delta [bind].
    apply String.eqb_neq in Hname. rewrite Hname.
    reflexivity.
Qed.

(** The unzipped archive of the samples is bound where it lies; the sample
    container, called [a.qza], is not. *)
Lemma load_raw_binds_in_place_witness :
  Archiver.load_raw Sample.calm ["pool"; "not-a-uuid"] Sample.world
  = (Ok (mkHandle ["pool"; "not-a-uuid"] "alias-not-a-uuid"
           (mkFmt ("qiime2.core.archive.format.v5", "ArchiveFormat")
              (mkArchiveRecord ["pool"; "not-a-uuid"]
                 (["pool"; "not-a-uuid"] ++ ["VERSION"])
                 "not-a-uuid" "5" "2023.2.0"))),
     mkWorld Sample.disk (<["alias-not-a-uuid" := "not-a-uuid"]> ∅))
  /\ Archiver.load_raw Sample.calm ["in"; "a.qza"] Sample.world
     = (Raise AssertionError,
        mkWorld Sample.disk (<["alias-" +:+ Sample.U := Sample.U]> ∅)).
Proof.
  split.
  - refine (proj1 (load_raw_binds_in_place Sample.calm ["pool"; "not-a-uuid"]
                     Sample.world
                     (mkArchive NoOpKind ["pool"; "not-a-uuid"] "not-a-uuid"
                        "5" "2023.2.0")
                     ("qiime2.core.archive.format.v5", "ArchiveFormat") _ _ _) _ _);
      vm_compute; reflexivity.
  - refine (proj2 (load_raw_binds_in_place Sample.calm ["in"; "a.qza"]
                     Sample.world Sample.archive_a
                     ("qiime2.core.archive.format.v5", "ArchiveFormat") _ _ _) _ _ _);
      try (vm_compute; reflexivity).
    vm_compute. discriminate.
Defined.

(* ===================================================================== *)
(** ** Reading a checksum diff *)
(* ===================================================================== *)

Section ChecksumDiffs.

Lemma validate_checksums_v5 (self : Handle) (checksum_file : string)
    (md5sums : gmap string string) (manifest : list (string * string)) :
  fmt_class (_fmt self) = ("qiime2.core.archive.format.v5", "ArchiveFormat") ->
  let obs : gmap string string := filter (fun x => x.1 ≠ checksum_file) md5sums in
  let exp := Archiver.dict_of_pairs manifest in
  exists d,
    Archiver.validate_checksums self checksum_file md5sums manifest = Ok d
    /\ (forall k x, added d !! k = Some x <-> obs !! k = Some x /\ exp !! k = None)
    /\ (forall k x, removed d !! k = Some x <-> exp !! k = Some x /\ obs !! k = None)
    /\ (forall k e o, changed d !! k = Some (e, o)
                      <-> exp !! k = Some e /\ obs !! k = Some o /\ e ≠ o).
Proof.
  intros He obs exp.
  unfold Archiver.validate_checksums.
  change (Archiver.get_format_class "5")
    with (@Ok (option FormatClass)
            (Some ("qiime2.core.archive.format.v5", "ArchiveFormat"))).
  simpl rbind.
  unfold Archiver.isinstance. rewrite bool_decide_eq_true_2 by exact He.
  simpl negb. cbv iota. fold obs. fold exp.
  eexists. split; [reflexivity|]. simpl added. simpl removed. simpl changed.
  split; [|split].
  - intros k x. rewrite lookup_keyed, elem_of_difference, elem_of_dom,
      not_elem_of_dom.
    split.
    + intros [[[y Hy] Hn] Ht]. rewrite (total_of_lookup _ _ _ Hy) in Ht.
      subst. split; assumption.
    + intros [Ho Hn]. split; [split; [eauto|assumption]|].
      now apply total_of_lookup.
  - intros k x. rewrite lookup_keyed, elem_of_difference, elem_of_dom,
      not_elem_of_dom.
    split.
    + intros [[[y Hy] Hn] Ht]. rewrite (total_of_lookup _ _ _ Hy) in Ht.
      subst. split; assumption.
    + intros [Ho Hn]. split; [split; [eauto|assumption]|].
      now apply total_of_lookup.
  - intros k e o. rewrite lookup_keyed, elem_of_filter, elem_of_intersection,
      !elem_of_dom.
    split.
    + intros [[Hd [[e' He'] [o' Ho']]] Ht].
      rewrite (total_of_lookup _ _ _ He'), (total_of_lookup _ _ _ Ho') in Ht, Hd.
      injection Ht as <- <-. repeat split; assumption.
    + intros (He' & Ho' & Hd).
      rewrite (total_of_lookup _ _ _ He'), (total_of_lookup _ _ _ Ho').
      repeat split; eauto.
Qed.

End ChecksumDiffs.

(** How to read the diff of a version-5 handle.  A path is reported in none
    of the three maps exactly when the directory and the manifest agree on
    it -- both lack it or both hold the same digest -- so the diff is empty
    exactly when the observed digests are the manifest; no path is reported
    twice; and the manifest file itself is never reported as added or
    changed. *)
Theorem checksum_diff_reports_each_difference_once
    (self : Handle) (checksum_file : string)
    (md5sums : gmap string string) (manifest : list (string * string)) :
  fmt_class (_fmt self) = ("qiime2.core.archive.format.v5", "ArchiveFormat") ->
  let obs : gmap string string := filter (fun x => x.1 ≠ checksum_file) md5sums in
  let exp := Archiver.dict_of_pairs manifest in
  exists d,
    Archiver.validate_checksums self checksum_file md5sums manifest = Ok d
    /\ (forall k, obs !! k = exp !! k
                  <-> added d !! k = None /\ removed d !! k = None
                      /\ changed d !! k = None)
    /\ (d = mkChecksumDiff ∅ ∅ ∅ <-> obs = exp)
    /\ (forall k, (is_Some (added d !! k) ->
                   removed d !! k = None /\ changed d !! k = None)
                  /\ (is_Some (removed d !! k) -> changed d !! k = None))
    /\ added d !! checksum_file = None
    /\ changed d !! checksum_file = None.
Proof.
  intros He obs exp.
  destruct (validate_checksums_v5 self checksum_file md5sums manifest He)
    as (d & Hd & Ha & Hr & Hc).
  fold obs in Ha, Hr, Hc. fold exp in Ha, Hr, Hc.
  exists d. split; [exact Hd|].
  assert (Hkey : forall k, obs !! k = exp !! k
                  <-> added d !! k = None /\ removed d !! k = None
                      /\ changed d !! k = None).
  { intros k. split.
    - intros E. split; [|split].
      + destruct (added d !! k) as [x|] eqn:Ex; [|reflexivity].
        apply Ha in Ex as [H1 H2]. congruence.
      + destruct (removed d !! k) as [x|] eqn:Ex; [|reflexivity].
        apply Hr in Ex as [H1 H2]. congruence.
      + destruct (changed d !! k) as [[e o]|] eqn:Ex; [|reflexivity].
        apply Hc in Ex as (H1 & H2 & H3). congruence.
    - intros (H1 & H2 & H3).
      destruct (obs !! k) as [o|] eqn:Eo; destruct (exp !! k) as [e|] eqn:Ee.
      + destruct (decide (e = o)) as [->|Hne]; [reflexivity|].
        assert (changed d !! k = Some (e, o)) by (apply Hc; auto). congruence.
      + assert (added d !! k = Some o) by (apply Ha; auto). congruence.
      + assert (removed d !! k = Some e) by (apply Hr; auto). congruence.
      + reflexivity. }
  split; [exact Hkey|]. split; [|split; [|split]].
  - split.
    + intros ->. apply map_eq. intros k. apply Hkey. simpl.
      rewrite !lookup_empty. auto.
    + intros E. destruct d as [ad rm ch]. simpl in *.
      f_equal; apply map_eq; intros k; rewrite lookup_empty;
        apply Hkey; now rewrite E.
  - intros k. split.
    + intros [x Hx]. apply Ha in Hx as [H1 H2]. split.
      * destruct (removed d !! k) as [y|] eqn:Ey; [|reflexivity].
        apply Hr in Ey as [H3 _]. congruence.
      * destruct (changed d !! k) as [[e o]|] eqn:Ey; [|reflexivity].
        apply Hc in Ey as (H3 & _). congruence.
    + intros [x Hx]. apply Hr in Hx as [H1 H2].
      destruct (changed d !! k) as [[e o]|] eqn:Ey; [|reflexivity].
      apply Hc in Ey as (_ & H3 & _). congruence.
  - destruct (added d !! checksum_file) as [x|] eqn:Ex; [|reflexivity].
    apply Ha in Ex as [H1 _]. unfold obs in H1.
    apply map_lookup_filter_Some in H1 as [_ H1]. now elim H1.
  - destruct (changed d !! checksum_file) as [[e o]|] eqn:Ex; [|reflexivity].
    apply Hc in Ex as (_ & H1 & _). unfold obs in H1.
    apply map_lookup_filter_Some in H1 as [_ H1]. now elim H1.
Qed.

(** A directory that matches its manifest, the manifest file apart. *)
Lemma checksum_diff_reports_each_difference_once_witness :
  exists d,
    Archiver.validate_checksums Sample.v5_handle "checksums.md5"
      (<["checksums.md5" := "m"]> (<["data/x.txt" := "d1"]> ∅))
      [("data/x.txt", "d1")] = Ok d
    /\ d = mkChecksumDiff ∅ ∅ ∅.
Proof.
  destruct (checksum_diff_reports_each_difference_once Sample.v5_handle
              "checksums.md5"
              (<["checksums.md5" := "m"]> (<["data/x.txt" := "d1"]> ∅))
              [("data/x.txt", "d1")] eq_refl) as (d & Hd & _ & Hempty & _).
  exists d. split; [exact Hd|].
  apply Hempty. vm_compute. reflexivity.
Defined.

(* ===================================================================== *)
(** ** What a successful load hands over *)
(* ===================================================================== *)

Section Success.
Variable c : Collab.

Lemma tail_ok u F rec (p : Path) (w2 : World) (h : Handle) f :
  bind (in_world (on_fs (Archiver.Format_init c F rec)))
       (fun fmt : Fmt => ret (mkHandle p (rename_alias c u) fmt))
       (w2, Some (rename_alias c u)) = (Ok h, f) ->
  h = mkHandle p (rename_alias c u) (mkFmt F rec) /\ pool f.1 = pool w2.
Proof.
  unfold bind, in_world. simpl fst. simpl snd.
  destruct (on_fs (Archiver.Format_init c F rec) w2) as [[fmt|e] w3] eqn:E;
    [|discriminate].
  pose proof (on_fs_run _ _ _ _ E) as Hp.
  unfold on_fs, Archiver.Format_init in E. cbv beta iota delta [bind get] in E.
  destruct (fmt_init_fault c F rec (fs w2)); [discriminate E|].
  injection E as <- _. intros [= <- <-]. split; [reflexivity|exact Hp].
Qed.

Lemma load_try_ok filepath a path w1 (h : Handle) f :
  Archiver.load_try c filepath a path (w1, None) = (Ok h, f) ->
  exists F,
    Archiver.get_format_class (version a) = Ok (Some F)
    /\ h = mkHandle (data_path c (uuid a)) (rename_alias c (uuid a))
             (mkFmt F (mkArchiveRecord (data_path c (uuid a))
                         (data_path c (uuid a) ++ ["VERSION"])
                         (uuid a) (version a) (framework_version a)))
    /\ pool f.1 = <[rename_alias c (uuid a) := uuid a]> (delete (uuid a) (pool w1)).
Proof.
  unfold Archiver.load_try.
  destruct (get_format_class_never_raises (version a)) as [o Ho]. rewrite Ho.
  unfold bind at 1. unfold lift_result at 1.
  unfold bind at 1.
  destruct o as [F|].
  2:{ run_st. discriminate. }
  unfold ret at 1. unfold bind at 1. unfold in_world at 1. simpl fst. simpl snd.
  destruct (on_fs (Archiver.mount c a path) w1) as [[rec|e] w2] eqn:Em;
    [|discriminate].
  apply on_fs_run in Em.
  unfold bind at 1. unfold in_world at 1. simpl fst. simpl snd.
  destruct (Cache._rename_to_data c (uuid a) path w2) as [rr w3] eqn:Er.
  apply rename_run in Er. destruct Er as [(e & -> & ->)|[-> Hp]]; [discriminate|].
  unfold bind at 1. unfold bind_process_alias at 1. simpl fst. simpl snd.
  intros H. apply tail_ok in H as [-> Hf].
  exists F. split; [reflexivity|]. split; [reflexivity|]. congruence.
Qed.

Lemma from_data_try_ok u path w1 (h : Handle) f :
  Archiver.from_data_try c u path (w1, None) = (Ok h, f) ->
  h = mkHandle (data_path c u) (rename_alias c u)
        (mkFmt ("qiime2.core.archive.format.v5", "ArchiveFormat")
           (mkArchiveRecord (data_path c u) (data_path c u ++ ["VERSION"])
              u "5" (qiime2_version c)))
  /\ pool f.1 = <[rename_alias c u := u]> (delete u (pool w1)).
Proof.
  unfold Archiver.from_data_try.
  unfold bind at 1. unfold in_world at 1. simpl fst. simpl snd.
  destruct (on_fs _ w1) as [[rec|e] w2] eqn:Es; [|discriminate].
  apply on_fs_run in Es.
  change (Archiver.get_format_class Archiver.CURRENT_FORMAT_VERSION)
    with (@Ok (option FormatClass)
            (Some ("qiime2.core.archive.format.v5", "ArchiveFormat"))).
  unfold bind at 1. unfold lift_result at 1.
  unfold bind at 1. unfold in_world at 1. simpl fst. simpl snd.
  destruct (on_fs (fmt_write c _ rec) w2) as [[[]|e] w3] eqn:Ew; [|discriminate].
  apply on_fs_run in Ew.
  unfold bind at 1. unfold in_world at 1. simpl fst. simpl snd.
  destruct (Cache._rename_to_data c u path w3) as [rr w4] eqn:Er.
  apply rename_run in Er. destruct Er as [(e & -> & ->)|[-> Hp]]; [discriminate|].
  unfold bind at 1. unfold bind_process_alias at 1. simpl fst. simpl snd.
  intros H. apply tail_ok in H as [-> Hf].
  split; [reflexivity|]. congruence.
Qed.

Lemma framed_ok {A} (body : St Frame A) (handler : St Frame unit) w1 (x : A) w' :
  Archiver.with_frame (try_except_reraise body handler) w1 = (Ok x, w') ->
  exists f, body (w1, None) = (Ok x, f) /\ w' = f.1.
Proof.
  unfold Archiver.with_frame, try_except_reraise.
  destruct (body (w1, None)) as [[y|e] f].
  - intros [= <- <-]. eauto.
  - destruct (handler f) as [[[]|e'] f']; discriminate.
Qed.

End Success.

(** A [load] or a [from_data] that succeeds returns a handle on the data
    path of the cache, holding the alias the rename returned and a format
    handler of the archive's version (version 5 for new data) whose record
    carries the UUID and the versions; in the pool, the temporary slot has
    given way to that alias. *)
Theorem successful_load_hands_over_the_alias (c : Collab) :
  (forall filepath w h w',
     Archiver.load c filepath w = (Ok h, w') ->
     exists a F,
       Archiver.get_archive (fs w) filepath = Ok a
       /\ Archiver.get_format_class (version a) = Ok (Some F)
       /\ h = mkHandle (data_path c (uuid a)) (rename_alias c (uuid a))
                (mkFmt F (mkArchiveRecord (data_path c (uuid a))
                            (data_path c (uuid a) ++ ["VERSION"])
                            (uuid a) (version a) (framework_version a)))
       /\ pool w' = <[rename_alias c (uuid a) := uuid a]> (delete (uuid a) (pool w)))
  /\ (forall w h w',
        Archiver.from_data c w = (Ok h, w') ->
        h = mkHandle (data_path c (uuid4 c)) (rename_alias c (uuid4 c))
              (mkFmt ("qiime2.core.archive.format.v5", "ArchiveFormat")
                 (mkArchiveRecord (data_path c (uuid4 c))
                    (data_path c (uuid4 c) ++ ["VERSION"])
                    (uuid4 c) "5" (qiime2_version c)))
        /\ pool w' = <[rename_alias c (uuid4 c) := uuid4 c]>
                       (delete (uuid4 c) (pool w))).
Proof.
  split.
  - intros filepath w h w' H. unfold Archiver.load in H.
    apply bind_run in H as [(w0 & s0 & [= <- <-] & H)|(e & _ & [=])].
    apply bind_run in H as [(a & s1 & Hga & H)|(e & _ & [=])].
    unfold lift_result in Hga. injection Hga as Hga <-.
    apply bind_run in H as [(p & w1 & Halloc & H)|(e & _ & [=])].
    apply allocate_pool in Halloc.
    apply framed_ok in H as (f & Htry & ->).
    apply load_try_ok in Htry as (F & HF & -> & Hp).
    exists a, F. repeat split; try assumption.
    rewrite Hp, Halloc. now rewrite delete_insert_eq.
  - intros w h w' H. unfold Archiver.from_data in H.
    cbv zeta in H.
    apply bind_run in H as [(p & w1 & Halloc & H)|(e & _ & [=])].
    apply allocate_pool in Halloc.
    apply framed_ok in H as (f & Htry & ->).
    apply from_data_try_ok in Htry as (-> & Hp).
    split; [reflexivity|].
    rewrite Hp, Halloc. now rewrite delete_insert_eq.
Qed.

(** Loading the sample container with collaborators that do not fail. *)
Lemma successful_load_hands_over_the_alias_witness :
  let h := mkHandle ["cache"; "data"; Sample.U] ("alias-" +:+ Sample.U)
             (mkFmt ("qiime2.core.archive.format.v5", "ArchiveFormat")
                (mkArchiveRecord ["cache"; "data"; Sample.U]
                   ["cache"; "data"; Sample.U; "VERSION"] Sample.U "5" "2023.2.0")) in
  let w' := (Archiver.load Sample.calm ["in"; "a.qza"] Sample.world).2 in
  exists a F,
    Archiver.get_archive (fs Sample.world) ["in"; "a.qza"] = Ok a
    /\ Archiver.get_format_class (version a) = Ok (Some F)
    /\ h = mkHandle (data_path Sample.calm (uuid a))
             (rename_alias Sample.calm (uuid a))
             (mkFmt F (mkArchiveRecord (data_path Sample.calm (uuid a))
                         (data_path Sample.calm (uuid a) ++ ["VERSION"])
                         (uuid a) (version a) (framework_version a)))
    /\ pool w' = <[rename_alias Sample.calm (uuid a) := uuid a]>
                   (delete (uuid a) (pool Sample.world)).
Proof.
  intros h w'.
  apply (proj1 (successful_load_hands_over_the_alias Sample.calm)
           ["in"; "a.qza"] Sample.world h w').
  unfold w', h. by_outcome.
Defined.

(* ===================================================================== *)
(** ** Extraction stays below the destination *)
(* ===================================================================== *)

Section Confined.

Lemma split_first_component c n' :
  Ascii.eqb c "/" = false ->
  exists x rest, Str.split "/" (String c n') = String c x :: rest.
Proof.
  intros Hc. cbn [Str.split]. rewrite Hc.
  destruct (Str.split "/" n') as [|hd tl]; eauto.
Qed.

Lemma prefix_head (d : Path) (x : string) (rest q : Path) :
  (d ++ x :: rest) `prefix_of` q -> (d ++ [x]) `prefix_of` q.
Proof.
  intros [k ->]. exists (rest ++ k). now rewrite <- !app_assoc.
Qed.

(** Creating the directories that lead to a target below [d] touches
    nothing outside the first component of the way. *)
Lemma makedirs_confined (d rest : Path) (fs : FS) r fs1 q :
  is_Some (fs !! d) ->
  (if Os.exists_ fs (d ++ rest) then ret tt else Os.makedirs (d ++ rest)) fs
  = (r, fs1) ->
  (forall x, head rest = Some x -> ~ (d ++ [x]) `prefix_of` q) ->
  fs1 !! q = fs !! q.
Proof.
  intros Hd Hrun Hq. destruct (Os.exists_ fs (d ++ rest)) eqn:Ex.
  - injection Hrun as _ <-. reflexivity.
  - unfold Os.makedirs in Hrun.
    eapply makedirs_rev_frame; [|exact Hrun|]; rewrite rev_involutive.
    + unfold Os.exists_ in Ex. destruct (fs !! (d ++ rest)); [discriminate|reflexivity].
    + destruct (decide (q `prefix_of` d ++ rest)) as [Hp|Hn]; [|now left].
      apply prefix_app_cases in Hp as [Hp|(rest' & Hne & -> & [k ->])].
      * right. exists d. repeat split; [assumption| |assumption].
        now apply prefix_app_r.
      * exfalso. destruct rest' as [|x rest'']; [congruence|].
        apply (Hq x eq_refl). apply prefix_snoc_cons.
Qed.

Lemma zip_extract_confined (fault : Path -> option Exn)
    (z : list (string * string)) (name : string) (d : Path)
    (fs : FS) r fs' q x (arc' : Path) :
  is_Some (fs !! d) -> Zipfile.sanitize name = x :: arc' ->
  Zipfile.extract fault z name d fs = (r, fs') ->
  ~ (d ++ [x]) `prefix_of` q -> fs' !! q = fs !! q.
Proof.
  intros Hd Harc Hrun Hq.
  assert (Htarget : q <> d ++ x :: arc').
  { intros ->. apply Hq. apply prefix_snoc_cons. }
  unfold Zipfile.extract in Hrun. rewrite Harc in Hrun.
  apply bind_run in Hrun as [(data & s1 & [= _ <-] & Hrun)|(e & [= _ <-] & _)];
    [|reflexivity].
  apply bind_run in Hrun as [([] & s1 & H0 & Hrun)|(e & H0 & _)];
    rewrite bool_decide_eq_false_2 in H0 by discriminate;
    change (false && negb (Str.endswith_char name "/")) with false in H0;
    cbv beta iota delta [ret] in H0; [injection H0 as <-|discriminate H0].
  apply bind_run in Hrun as [(s0 & s1 & [= <- <-] & Hrun)|(e & [=] & _)].
  rewrite dirname_app in Hrun by discriminate.
  assert (Hup : forall r1 fs1,
            (if Os.exists_ fs (d ++ removelast (x :: arc')) then ret tt
             else Os.makedirs (d ++ removelast (x :: arc'))) fs = (r1, fs1) ->
            fs1 !! q = fs !! q).
  { intros r1 fs1 E1. eapply makedirs_confined; [exact Hd|exact E1|].
    intros y Hy. destruct arc' as [|a arc'']; [discriminate Hy|].
    change (removelast (x :: a :: arc'')) with (x :: removelast (a :: arc'')) in Hy.
    injection Hy as <-. exact Hq. }
  apply bind_run in Hrun as [([] & fs1 & E1 & Hrun)|(e & E1 & _)];
    pose proof (Hup _ _ E1) as H1; [|exact H1].
  rewrite <- H1.
  destruct (Str.endswith_char name "/").
  - apply bind_run in Hrun as [(s2 & s3 & [= <- <-] & Hrun)|(e & [=] & _)].
    apply bind_run in Hrun as [([] & fs2 & E2 & [= _ <-])|(e & E2 & _)];
      (destruct (Os.isdir fs1 (d ++ x :: arc'));
       [cbv beta delta [ret] in E2;
        first [discriminate E2|injection E2 as <-; reflexivity]
       |eapply mkdir_other; eassumption]).
  - apply bind_run in Hrun as [([] & fs2 & E2 & [= _ <-])|(e & E2 & _)];
      (apply write_file_frame in E2 as [[-> _]|[_ ->]]; [reflexivity|];
       now rewrite lookup_insert_ne).
Qed.

(** In a container with the one visible root [u], a member whose name
    starts with [u] lies under [u]. *)
Lemma member_under_root (z : list (string * string)) u name :
  Spec.visible_roots z = {[u]} -> Util.is_uuid4 u = true ->
  name ∈ Zipfile.namelist z -> Str.startswith name u = true ->
  exists arc', Zipfile.sanitize name = u :: arc'.
Proof.
  intros Hroots Hu Hin Hs.
  destruct (uuid4_first u Hu) as (c & u' & E & Hc).
  rewrite E in Hs.
  destruct (startswith_cons_inv _ _ _ Hs) as (n' & -> & _).
  pose proof (hex_not_slash c Hc) as Hcs.
  pose proof (hex_not_dot c Hc) as Hcd.
  destruct (split_first_component c n' Hcs) as (x & rest & Hsplit).
  assert (Hx : String c x = u).
  { assert (Hmem : String c x ∈ Spec.visible_roots z).
    { unfold Spec.visible_roots, Spec.top_level_entries.
      rewrite elem_of_filter, elem_of_list_to_set, list_elem_of_omap. split.
      - change (Str.startswith (String c x) ".")
          with (if Ascii.eqb "." c then true else false).
        destruct (Ascii.eqb_spec "." c) as [<-|]; [congruence|reflexivity].
      - exists (String c n'). split; [assumption|].
        unfold PosixPath.parts, PosixPath.components.
        rewrite root_of_plain by exact Hcs. rewrite Hsplit.
        rewrite filter_cons_True; [reflexivity|].
        rewrite !elem_of_cons, elem_of_nil. intros [H|[H|[]]]; inversion H.
        congruence. }
    rewrite Hroots in Hmem. now apply elem_of_singleton in Hmem. }
  unfold Zipfile.sanitize. rewrite Hsplit, Hx.
  rewrite filter_cons_True; [eauto|].
  apply (uuid4_nonempty_components u Hu).
Qed.

Lemma zip_init_roots (fs : FS) (p : Path) a z :
  _ZipArchive.__init__ fs p = Ok a -> fs !! p = Some (ZipFile z) ->
  Spec.visible_roots z = {[uuid a]}.
Proof.
  intros Ha Hz. apply zip_init_uuid in Ha.
  rewrite (zip_get_uuid fs p z Hz) in Ha. cbv zeta in Ha.
  destruct (size (Spec.visible_roots z)) as [|[|n]] eqn:Es;
    simpl in Ha; try discriminate.
  destruct (singleton_size_elements _ Es) as (u & Hr & He).
  rewrite He in Ha. destruct (Util.is_uuid4 u); simpl in Ha; [|discriminate].
  injection Ha as <-. exact Hr.
Qed.


(** The loop of [_ZipArchive.extract], for a backend whose container has
    the one visible root [u]. *)
Lemma zip_archive_extract_confined (fault : Path -> option Exn) (a : Archive)
    (d : Path) (z : list (string * string)) (fs : FS) r fs' :
  Util.is_uuid4 (uuid a) = true ->
  fs !! path a = Some (ZipFile z) ->
  Spec.visible_roots z = {[uuid a]} ->
  is_Some (fs !! d) ->
  _ZipArchive.extract fault a (d ++ [uuid a]) fs = (r, fs') ->
  forall q, ~ (d ++ [uuid a]) `prefix_of` q -> fs' !! q = fs !! q.
Proof.
  intros Hu Hz Hroots Hd Hrun. unfold _ZipArchive.extract in Hrun.
  cbv beta iota delta [bind get lift_result] in Hrun.
  destruct (String.eqb (Os.basename (d ++ [uuid a])) (uuid a));
    cbv beta iota delta [ret raise] in Hrun;
    [|injection Hrun as _ <-; auto].
  unfold Zipfile.open_zip in Hrun. rewrite Hz in Hrun.
  unfold Os.dirname in Hrun. rewrite removelast_snoc in Hrun.
  destruct (for_each (Zipfile.namelist z) _ fs) as [r1 fs1] eqn:E1.
  assert (H1 : is_Some (fs1 !! d)
               /\ forall q, ~ (d ++ [uuid a]) `prefix_of` q -> fs1 !! q = fs !! q).
  { eapply (for_each_frame (fun s => is_Some (s !! d))); [|exact Hd|exact E1].
    intros name s r2 s2 Hin Hs Hbody.
    assert (Hf : forall q, ~ (d ++ [uuid a]) `prefix_of` q -> s2 !! q = s !! q).
    { intros q Hq. cbv beta in Hbody.
      destruct (Str.startswith name (uuid a)) eqn:Est.
      - unfold bind in Hbody.
        destruct (Zipfile.extract fault z name d s) as [r3 s3] eqn:E3.
        assert (s3 !! q = s !! q).
        { destruct (member_under_root z (uuid a) name Hroots Hu Hin Est)
            as [arc' Harc].
          eapply zip_extract_confined; eassumption. }
        destruct r3; cbv beta iota delta [ret] in Hbody;
          injection Hbody as _ <-; assumption.
      - cbv beta iota delta [ret] in Hbody. injection Hbody as _ <-. reflexivity. }
    split; [|exact Hf]. rewrite Hf; [assumption|].
    intros [k Hk]. apply (f_equal length) in Hk.
    rewrite !length_app in Hk. simpl in Hk. lia. }
  destruct r1 as [[]|e1]; injection Hrun as _ <-; apply H1.
Qed.

End Confined.

(** [Archiver.extract] of a container into an existing directory changes
    nothing but [destination/<uuid>] and what lies below it, whatever the
    names of the members and whether the extraction succeeds or stops half
    way; the pool is not touched.  When the container is no archive, nothing
    changes at all. *)
Theorem extract_confined_to_destination
    (c : Collab) (filepath dest : Path) (w : World)
    (r : result Path) (w' : World) :
  Zipfile.is_zipfile (fs w) filepath = true ->
  fs w !! dest = Some Dir ->
  Archiver.extract c filepath dest w = (r, w') ->
  pool w' = pool w
  /\ match Archiver.get_archive (fs w) filepath with
     | Ok a => forall q, ~ (dest ++ [uuid a]) `prefix_of` q ->
                         fs w' !! q = fs w !! q
     | Raise e => r = Raise e /\ w' = w
     end.
Proof.
  intros Hzip Hdest Hrun. unfold Archiver.extract in Hrun.
  cbv beta iota delta [bind get lift_result] in Hrun.
  destruct (Archiver.get_archive (fs w) filepath) as [a|e] eqn:Hga;
    cbv beta iota zeta in Hrun; [|injection Hrun as <- <-; auto].
  destruct (get_archive_zip _ _ _ Hga Hzip) as (Hk & Hp & Hu).
  assert (Hinit : _ZipArchive.__init__ (fs w) filepath = Ok a).
  { unfold Archiver.get_archive, Os.exists_, _ZipArchive.is_archive_type in Hga.
    unfold Zipfile.is_zipfile in Hzip, Hga.
    destruct (fs w !! filepath) as [[]|]; try discriminate Hzip. exact Hga. }
  destruct (zip_init_facts _ _ _ Hinit) as (_ & _ & _ & z & Hz & _).
  pose proof (zip_init_roots _ _ _ _ Hinit Hz) as Hroots.
  pose proof (uuid4_valid_name _ Hu) as (Hne & _).
  unfold Os.join in Hrun. apply String.eqb_neq in Hne. rewrite Hne in Hrun.
  rewrite Hk in Hrun. unfold on_fs at 1 in Hrun.
  destruct (fs w !! (dest ++ [uuid a])) as [n|] eqn:Ex.
  - rewrite makedirs_exists in Hrun.
    + injection Hrun as _ <-. cbn [fs pool]. auto.
    + rewrite Ex. eauto.
    + unfold Os.dirname. rewrite removelast_snoc, Hdest. eauto.
  - rewrite makedirs_child in Hrun by assumption.
    unfold on_fs in Hrun. cbn [fs pool] in Hrun.
    destruct (_ZipArchive.extract (io_fault c) a (dest ++ [uuid a]) _)
      as [r2 fs2] eqn:Eex.
    injection Hrun as _ <-. cbn [fs pool]. split; [reflexivity|].
    intros q Hq.
    rewrite (zip_archive_extract_confined (io_fault c) a dest z
               (<[dest ++ [uuid a] := Dir]> (fs w)) r2 fs2 Hu) with (q := q);
      try assumption.
    + rewrite lookup_insert_ne; [reflexivity|].
      intros <-. apply Hq. reflexivity.
    + rewrite Hp, lookup_insert_ne by congruence. exact Hz.
    + rewrite lookup_insert_ne, Hdest; [eauto|].
      intros E. apply (f_equal length) in E. rewrite length_app in E.
      simpl in E. lia.
Qed.

(** The sample container, whose member [<uuid>/../../evil] points above
    the destination, extracted into [pool]. *)
Lemma extract_confined_to_destination_witness :
  let run := Archiver.extract Sample.calm ["in"; "a.qza"] ["pool"] Sample.world in
  pool run.2 = pool Sample.world
  /\ match Archiver.get_archive (fs Sample.world) ["in"; "a.qza"] with
     | Ok a => forall q, ~ (["pool"] ++ [uuid a]) `prefix_of` q ->
                         fs run.2 !! q = fs Sample.world !! q
     | Raise e => run.1 = Raise e /\ run.2 = Sample.world
     end.
Proof.
  intros run.
  apply (extract_confined_to_destination Sample.calm ["in"; "a.qza"] ["pool"]
           Sample.world run.1 run.2).
  - vm_compute. reflexivity.
  - vm_compute. reflexivity.
  - apply surjective_pairing.
Defined.

(* ===================================================================== *)
(** ** What a successful extraction returns *)
(* ===================================================================== *)

Section Returned.

Lemma mkdir_keeps (p : Path) (fs : FS) r fs' q :
  Os.mkdir p fs = (r, fs') -> is_Some (fs !! q) -> fs' !! q = fs !! q.
Proof.
  intros H [n Hq]. apply mkdir_frame in H as [->|[Hn ->]]; [reflexivity|].
  rewrite lookup_insert_ne; [reflexivity|]. intros ->. congruence.
Qed.

(** [makedirs] leaves what exists as it is. *)
Lemma makedirs_rev_keeps rp :
  forall (fs : FS) r fs' q,
    Os.makedirs_rev rp fs = (r, fs') -> is_Some (fs !! q) -> fs' !! q = fs !! q.
Proof.
  induction rp as [|tail rhead IH]; intros fs r fs' q Hrun Hq.
  - simpl in Hrun. eapply mkdir_keeps; eassumption.
  - cbn [Os.makedirs_rev] in Hrun.
    destruct (Os.exists_ fs (rev rhead)).
    + eapply mkdir_keeps; eassumption.
    + destruct (Os.makedirs_rev rhead fs) as [r1 fs1] eqn:E1.
      assert (H1 : fs1 !! q = fs !! q) by (eapply IH; eassumption).
      assert (Hstep : forall r2 fs2,
                 (if String.eqb tail "." then (Ok tt, fs1)
                  else Os.mkdir (rev (tail :: rhead)) fs1) = (r2, fs2) ->
                 fs2 !! q = fs !! q).
      { intros r2 fs2 H2. destruct (String.eqb tail ".").
        - injection H2 as _ <-. exact H1.
        - rewrite <- H1. eapply mkdir_keeps; [exact H2|].
          rewrite H1. exact Hq. }
      destruct r1 as [[]|e1].
      * eapply Hstep; exact Hrun.
      * destruct e1; try (injection Hrun as _ <-; exact H1).
        eapply Hstep; exact Hrun.
Qed.

Lemma mkdir_ok_fresh (p : Path) (fs fs' : FS) :
  Os.mkdir p fs = (Ok tt, fs') -> fs !! p = None.
Proof.
  unfold Os.mkdir. destruct (fs !! p); [discriminate|reflexivity].
Qed.

(** A [makedirs] that succeeds has made its last directory. *)
Lemma makedirs_ok_fresh (d : Path) (x : string) (fs fs1 : FS) :
  x <> "." ->
  Os.makedirs (d ++ [x]) fs = (Ok tt, fs1) -> fs !! (d ++ [x]) = None.
Proof.
  intros Hx Hrun. unfold Os.makedirs in Hrun.
  rewrite rev_app_distr in Hrun. simpl rev at 1 in Hrun. simpl app in Hrun.
  cbn [Os.makedirs_rev] in Hrun.
  assert (Hp : rev (x :: rev d) = d ++ [x]) by (simpl; now rewrite rev_involutive).
  rewrite Hp in Hrun.
  apply String.eqb_neq in Hx. rewrite Hx in Hrun.
  destruct (Os.exists_ fs (rev (rev d))); [now apply mkdir_ok_fresh in Hrun|].
  destruct (Os.makedirs_rev (rev d) fs) as [r1 fs0] eqn:E1.
  assert (Hstep : Os.mkdir (d ++ [x]) fs0 = (Ok tt, fs1) -> fs !! (d ++ [x]) = None).
  { intros H. apply mkdir_ok_fresh in H.
    destruct (fs !! (d ++ [x])) as [n|] eqn:E; [|reflexivity].
    assert (is_Some (fs0 !! (d ++ [x])))
      by (eapply makedirs_rev_mono; [exact E1|rewrite E; eauto]).
    rewrite H in H0. now destruct H0. }
  destruct r1 as [[]|e1]; [exact (Hstep Hrun)|].
  destruct e1; try discriminate Hrun. exact (Hstep Hrun).
Qed.

(** The construction of a container backend looks at the container
    only. *)
Lemma zip_init_stable (fs fs' : FS) (p : Path) :
  fs' !! p = fs !! p -> _ZipArchive.__init__ fs' p = _ZipArchive.__init__ fs p.
Proof.
  intros H.
  unfold _ZipArchive.__init__, _Archive._get_uuid, _ZipArchive.relative_iterdir,
    _ZipArchive.open, Os.exists_, Zipfile.open_zip.
  rewrite H. reflexivity.
Qed.

Lemma get_archive_of_kind_zip (fs : FS) (filepath : Path) a :
  Archiver.get_archive fs filepath = Ok a -> kind a = ZipKind ->
  _ZipArchive.__init__ fs filepath = Ok a /\ is_Some (fs !! filepath).
Proof.
  unfold Archiver.get_archive, Os.exists_.
  destruct (fs !! filepath) as [n|]; [|discriminate]. simpl negb. cbv iota.
  destruct (_ZipArchive.is_archive_type fs filepath); [eauto|].
  destruct (_NoOpArchive.is_archive_type fs filepath); [|discriminate].
  unfold _NoOpArchive.__init__.
  destruct (_Archive._get_versions _); simpl; [|discriminate].
  intros [= <-]. discriminate.
Qed.

End Returned.

(** An [Archiver.extract] that succeeds was given a container; the path
    it returns is [destination/<uuid>], which did not exist before the call
    and holds the VERSION file of the archive after it. *)
Theorem extract_returns_fresh_destination
    (c : Collab) (filepath dest : Path) (w : World) (p : Path) (w' : World) :
  Archiver.extract c filepath dest w = (Ok p, w') ->
  exists a,
    Archiver.get_archive (fs w) filepath = Ok a
    /\ kind a = ZipKind
    /\ p = dest ++ [uuid a]
    /\ fs w !! p = None
    /\ is_Some (fs w' !! (p ++ ["VERSION"])).
Proof.
  intros Hrun. unfold Archiver.extract in Hrun.
  apply bind_run in Hrun as [(w0 & s0 & [= <- <-] & Hrun)|(e & _ & [=])].
  apply bind_run in Hrun as [(a & s1 & Hga & Hrun)|(e & _ & [=])].
  unfold lift_result in Hga. injection Hga as Hga <-.
  cbv zeta in Hrun.
  apply bind_run in Hrun as [([] & w1 & Hmk & Hrun)|(e & _ & [=])].
  destruct (kind a) eqn:Hk; [|discriminate Hrun].
  destruct (get_archive_of_kind_zip _ _ _ Hga Hk) as [Hinit Hex].
  pose proof (zip_init_uuid4 _ _ _ Hinit) as Hu.
  pose proof (uuid4_valid_name _ Hu) as (Hne & Hdot & _).
  unfold Os.join in Hmk, Hrun. apply String.eqb_neq in Hne.
  rewrite Hne in Hmk, Hrun.
  unfold on_fs in Hmk.
  destruct (Os.makedirs (dest ++ [uuid a]) (fs w)) as [r1 fs1] eqn:Emk.
  injection Hmk as -> <-.
  unfold on_fs in Hrun. cbn [fs pool] in Hrun.
  destruct (_ZipArchive.extract (io_fault c) a (dest ++ [uuid a]) fs1)
    as [r2 fs2] eqn:Eex.
  injection Hrun as -> <-. cbn [fs].
  assert (Hsame : fs1 !! filepath = fs w !! filepath).
  { unfold Os.makedirs in Emk. eapply makedirs_rev_keeps; eassumption. }
  exists a. split; [exact Hga|]. split; [exact Hk|].
  assert (Hp : p = dest ++ [uuid a]).
  { unfold _ZipArchive.extract in Eex.
    apply bind_run in Eex as [([] & s2 & _ & Eex)|(e & _ & [=])].
    apply bind_run in Eex as [(s3 & s4 & _ & Eex)|(e & _ & [=])].
    apply bind_run in Eex as [(z & s5 & _ & Eex)|(e & _ & [=])].
    apply bind_run in Eex as [([] & s6 & _ & [= <- _])|(e & _ & [=])].
    reflexivity. }
  split; [exact Hp|]. subst p. split.
  - eapply makedirs_ok_fresh; eassumption.
  - eapply extract_leaves_version; [|exact Eex].
    rewrite (zip_init_stable _ _ _ Hsame). exact Hinit.
Qed.

(** The sample container extracted into [pool]. *)
Lemma extract_returns_fresh_destination_witness :
  exists a,
    Archiver.get_archive (fs Sample.world) ["in"; "a.qza"] = Ok a
    /\ kind a = ZipKind
    /\ ["pool"; Sample.U] = ["pool"] ++ [uuid a]
    /\ fs Sample.world !! ["pool"; Sample.U] = None
    /\ is_Some (fs (Archiver.extract Sample.calm ["in"; "a.qza"] ["pool"]
                      Sample.world).2
                !! (["pool"; Sample.U] ++ ["VERSION"])).
Proof.
  apply (extract_returns_fresh_destination Sample.calm ["in"; "a.qza"] ["pool"]
           Sample.world ["pool"; Sample.U]).
  by_outcome.
Defined.

(* ===================================================================== *)
(** ** Line endings of the VERSION file *)
(* ===================================================================== *)

Section LineEndings.

Lemma crlf_app (x : string) :
  String "013" (String "010" "") +:+ x = String "013" (String "010" x).
Proof. reflexivity. Qed.

(** A carriage return followed by a newline reads as one newline. *)
Lemma universal_newlines_crlf a b :
  Str.contains "013" a = false ->
  Os.universal_newlines (a +:+ String "013" (String "010" b))
  = a +:+ String "010" (Os.universal_newlines b).
Proof.
  induction a as [|c a IH]; [reflexivity|].
  intros H. cbn [Str.contains] in H. apply orb_false_iff in H as [Hc Ha].
  specialize (IH Ha). rewrite !app_cons.
  destruct c as [[] [] [] [] [] [] [] []];
    try discriminate Hc; cbn [Os.universal_newlines]; now rewrite IH.
Qed.

Lemma crlf_template_reads_as_template v fv :
  Str.contains "013" v = false -> Str.contains "013" fv = false ->
  let crlf := String "013" (String "010" "") in
  Os.universal_newlines
    ("QIIME 2" +:+ crlf +:+ "archive: " +:+ v +:+ crlf
     +:+ "framework: " +:+ fv +:+ crlf)
  = _Archive._VERSION_TEMPLATE v fv.
Proof.
  intros Hv Hf crlf. unfold crlf, _Archive._VERSION_TEMPLATE.
  rewrite !crlf_app, !nl_app.
  change _Archive.nl with (String "010" "").
  rewrite <- !(app_assoc_str "archive: " v).
  rewrite <- !(app_assoc_str "framework: " fv).
  rewrite universal_newlines_crlf by reflexivity.
  rewrite universal_newlines_crlf by (rewrite contains_app, Hv; reflexivity).
  rewrite universal_newlines_crlf by (rewrite contains_app, Hf; reflexivity).
  reflexivity.
Qed.

End LineEndings.



(* ===================================================================== *)
(** ** The variant of the Jupyter handlers *)
(* ===================================================================== *)

Section Check.

Lemma NoDup_omap_inj {A B : Type} (f : A -> option B) (l : list A) :
  NoDup l ->
  (forall x y z, x ∈ l -> y ∈ l -> f x = Some z -> f y = Some z -> x = y) ->
  NoDup (omap f l).
Proof.
  induction 1 as [|x l Hx Hnd IH]; intros Hinj; [constructor|].
  cbn [omap list_omap]. destruct (f x) as [z|] eqn:Ez.
  - constructor.
    + rewrite list_elem_of_omap. intros (y & Hy & Hfy).
      apply Hx. rewrite (Hinj x y z); auto; [left|now right].
    + apply IH. intros a b c Ha Hb. apply Hinj; now right.
  - apply IH. intros a b c Ha Hb. apply Hinj; now right.
Qed.

Lemma path_split (q : Path) : q <> [] -> q = Os.dirname q ++ [Os.basename q].
Proof.
  intros Hq. destruct q as [|x l _] using rev_ind; [congruence|].
  unfold Os.dirname, Os.basename. now rewrite removelast_snoc, last_last.
Qed.

(** A directory listing names every entry once. *)
Lemma listdir_nodup (fs : FS) (p : Path) : NoDup (Os.listdir fs p).
Proof.
  unfold Os.listdir. apply NoDup_omap_inj; [apply NoDup_fst_map_to_list|].
  intros x y z _ _ Hx Hy.
  destruct (bool_decide_reflect (Os.dirname x = p)) as [Hdx|]; [|discriminate Hx].
  destruct (bool_decide_reflect (x = [])) as [|Hnx]; [discriminate Hx|].
  destruct (bool_decide_reflect (Os.dirname y = p)) as [Hdy|]; [|discriminate Hy].
  destruct (bool_decide_reflect (y = [])) as [|Hny]; [discriminate Hy|].
  simpl in Hx, Hy. injection Hx as Hx. injection Hy as Hy.
  rewrite (path_split x Hnx), (path_split y Hny). congruence.
Qed.

Lemma startswith_empty s : Str.startswith s "" = true.
Proof. destruct s; reflexivity. Qed.

Lemma noop_iterdir_all names :
  forall seen : gset string,
    NoDup names -> (forall x, x ∈ names -> x ∉ seen) ->
    _NoOpArchive.iterdir_loop "" seen names = names.
Proof.
  induction names as [|name names IH]; intros seen Hnd Hseen; [reflexivity|].
  apply NoDup_cons in Hnd as [Hn Hnd].
  cbn [_NoOpArchive.iterdir_loop]. rewrite startswith_empty.
  rewrite bool_decide_eq_false_2 by (apply Hseen; left).
  cbn [andb negb]. f_equal. apply IH; [assumption|].
  intros x Hx. rewrite elem_of_union, elem_of_singleton.
  intros [->|Hs]; [contradiction|]. apply (Hseen x); [now right|assumption].
Qed.

End Check.

(** [ArchiveCheck] sees a directory as the directory backend does: built
    on the same path it has the same UUID -- the base name -- and the same
    versions, or fails with the same error; and whatever relative path it
    is asked for, it lists what the directory backend lists by default:
    every entry of the directory, once. *)
Theorem archive_check_agrees_with_directory_backend (fs : FS) (p : Path) :
  ArchiveCheck.__init__ fs p
  = match _NoOpArchive.__init__ fs p with
    | Ok a => Ok (path a, uuid a, version a, framework_version a)
    | Raise e => Raise e
    end
  /\ (forall relpath,
        Os.isdir fs p = true ->
        ArchiveCheck.relative_iterdir fs p relpath
        = _NoOpArchive.relative_iterdir fs p ""
        /\ NoDup (ArchiveCheck.relative_iterdir fs p relpath)
        /\ forall x, x ∈ ArchiveCheck.relative_iterdir fs p relpath
                     <-> x ∈ Os.listdir fs p).
Proof.
  split.
  - unfold ArchiveCheck.__init__, _NoOpArchive.__init__, ArchiveCheck.open,
      _NoOpArchive.open, ArchiveCheck._get_uuid, _NoOpArchive._get_uuid.
    destruct (_Archive._get_versions _) as [vs|e]; reflexivity.
  - intros relpath _.
    unfold ArchiveCheck.relative_iterdir, _NoOpArchive.relative_iterdir.
    split; [|split; [apply listdir_nodup|reflexivity]].
    symmetry. apply noop_iterdir_all; [apply listdir_nodup|set_solver].
Qed.

(** The unzipped archive of the samples holds three entries. *)
Lemma archive_check_agrees_with_directory_backend_witness :
  ArchiveCheck.relative_iterdir Sample.disk ["pool"; "not-a-uuid"] "data"
  = _NoOpArchive.relative_iterdir Sample.disk ["pool"; "not-a-uuid"] ""
  /\ length (ArchiveCheck.relative_iterdir Sample.disk ["pool"; "not-a-uuid"] "data")
     = 3.
Proof.
  destruct (proj2 (archive_check_agrees_with_directory_backend Sample.disk
                     ["pool"; "not-a-uuid"]) "data") as (H & _ & _).
  - vm_compute. reflexivity.
  - split; [exact H|]. vm_compute. reflexivity.
Defined.

(* ===================================================================== *)
(** ** Mounting what was saved *)
(* ===================================================================== *)

Section MountSaved.

(** [_ZipArchive.extract] on a container made of the files [files], into
    a place that agrees with them. *)
Lemma zip_extract_files (a : Archive) (d : Path) (files : list (Path * string))
    (fs : FS) :
  (forall A data, (A, data) ∈ files ->
     head A = Some (uuid a) /\ Forall Spec.valid_name A) ->
  (forall A r d1 d2, (A, d1) ∈ files -> (A ++ r, d2) ∈ files -> r = [] /\ d1 = d2) ->
  fs !! path a = Some (ZipFile (Spec.members_of files)) ->
  Spec.agrees d (uuid a) files fs ->
  exists fs2,
    _ZipArchive.extract (fun _ => None) a (d ++ [uuid a]) fs
    = (Ok (d ++ [uuid a]), fs2)
    /\ Spec.agrees d (uuid a) files fs2
    /\ (forall A data, (A, data) ∈ files -> fs2 !! (d ++ A) = Some (File data))
    /\ (forall q, ~ (exists B, head B = Some (uuid a) /\ q = d ++ B) ->
                  fs2 !! q = fs !! q).
Proof.
  intros Hvalid Hpf Hz Hag.
  destruct (extract_all d (uuid a) files Hvalid Hpf files) with (fs := fs)
    as (fs2 & Hloop & Hag2 & Hall & _ & Hout2); [|exact Hag|].
  { intros A data HA. split; [assumption|].
    apply member_starts_with_root. now destruct (Hvalid _ _ HA). }
  exists fs2. split; [|auto].
  unfold _ZipArchive.extract. cbv beta iota delta [bind get lift_result ret].
  unfold Os.basename. rewrite last_last, String.eqb_refl.
  unfold Zipfile.open_zip. rewrite Hz.
  unfold Os.dirname. rewrite removelast_snoc.
  cbv beta iota delta [bind ret] in Hloop. rewrite Hloop. reflexivity.
Qed.

End MountSaved.



(* ===================================================================== *)
(** ** After a failed extraction *)
(* ===================================================================== *)

Section NoCleanup.

Lemma write_file_keeps_dir (fault : Path -> option Exn) (p : Path)
    (data : string) (fs : FS) r fs' q :
  Os.write_file fault p data fs = (r, fs') ->
  fs !! q = Some Dir -> fs' !! q = Some Dir.
Proof.
  unfold Os.write_file. intros H Hq. destruct (fault p); [now injection H as _ <-|].
  destruct (fs !! p) as [[]|] eqn:Ep; destruct (fs !! Os.dirname p) as [[]|];
    injection H as _ <-; try assumption;
    (rewrite lookup_insert_ne; [assumption|intros ->; congruence]).
Qed.

Lemma mkdir_keeps_dir (p : Path) (fs : FS) r fs' q :
  Os.mkdir p fs = (r, fs') -> fs !! q = Some Dir -> fs' !! q = Some Dir.
Proof.
  intros H Hq. rewrite (mkdir_keeps p fs r fs' q H); [assumption|].
  rewrite Hq. eauto.
Qed.

(** Extracting a member never replaces a directory. *)
Lemma zip_extract_keeps_dir (fault : Path -> option Exn)
    (z : list (string * string)) (name : string) (d : Path)
    (fs : FS) r fs' q :
  Zipfile.extract fault z name d fs = (r, fs') ->
  fs !! q = Some Dir -> fs' !! q = Some Dir.
Proof.
  intros Hrun Hq. unfold Zipfile.extract in Hrun.
  apply bind_run in Hrun as [(data & s1 & [= _ <-] & Hrun)|(e & [= _ <-] & _)];
    [|assumption].
  apply bind_run in Hrun as [([] & s1 & H0 & Hrun)|(e & H0 & _)].
  2:{ destruct (_ && _); cbv beta delta [raise ret] in H0;
      injection H0 as _ <-; assumption. }
  assert (s1 = fs) as ->.
  { destruct (_ && _); cbv beta delta [raise ret] in H0;
      [discriminate H0|injection H0 as <-; reflexivity]. }
  apply bind_run in Hrun as [(s0 & s1 & [= <- <-] & Hrun)|(e & [=] & _)].
  assert (Hup : forall r1 fs1,
            (if Os.exists_ fs (Os.dirname (d ++ Zipfile.sanitize name))
             then ret tt
             else Os.makedirs (Os.dirname (d ++ Zipfile.sanitize name))) fs
            = (r1, fs1) -> fs1 !! q = Some Dir).
  { intros r1 fs1 E1. destruct (Os.exists_ fs _).
    - injection E1 as _ <-. assumption.
    - unfold Os.makedirs in E1.
      rewrite (makedirs_rev_keeps _ _ _ _ q E1); [assumption|].
      rewrite Hq. eauto. }
  apply bind_run in Hrun as [([] & fs1 & E1 & Hrun)|(e & E1 & _)];
    pose proof (Hup _ _ E1) as H1; [|exact H1].
  destruct (Str.endswith_char name "/").
  - apply bind_run in Hrun as [(s2 & s3 & [= <- <-] & Hrun)|(e & [=] & _)].
    apply bind_run in Hrun as [([] & fs2 & E2 & [= _ <-])|(e & E2 & _)];
      (destruct (Os.isdir fs1 _);
       [cbv beta delta [ret] in E2;
        first [discriminate E2|injection E2 as <-; assumption]
       |eapply mkdir_keeps_dir; eassumption]).
  - apply bind_run in Hrun as [([] & fs2 & E2 & [= _ <-])|(e & E2 & _)];
      eapply write_file_keeps_dir; eassumption.
Qed.

Lemma zip_archive_extract_keeps_dir (fault : Path -> option Exn) (a : Archive)
    (filepath : Path) (fs : FS) r fs' q :
  _ZipArchive.extract fault a filepath fs = (r, fs') ->
  fs !! q = Some Dir -> fs' !! q = Some Dir.
Proof.
  intros Hrun Hq. unfold _ZipArchive.extract in Hrun.
  cbv beta iota delta [bind get lift_result] in Hrun.
  destruct (String.eqb (Os.basename filepath) (uuid a));
    cbv beta iota delta [ret raise] in Hrun;
    [|injection Hrun as _ <-; assumption].
  destruct (Zipfile.open_zip fs (path a)) as [z|e];
    [|injection Hrun as _ <-; assumption].
  destruct (for_each (Zipfile.namelist z) _ fs) as [r1 fs1] eqn:E1.
  assert (H1 : fs1 !! q = Some Dir /\ forall q0 : Path, False -> fs1 !! q0 = fs !! q0).
  { eapply (for_each_frame (fun s => s !! q = Some Dir) (fun _ => False));
      [|exact Hq|exact E1].
    intros name s r2 s2 _ Hs Hbody. split; [|intros ? []].
    cbv beta in Hbody. destruct (Str.startswith name (uuid a)).
    - unfold bind in Hbody.
      destruct (Zipfile.extract fault z name (Os.dirname filepath) s)
        as [r3 s3] eqn:E3.
      pose proof (zip_extract_keeps_dir _ _ _ _ _ _ _ q E3 Hs) as H3.
      destruct r3; cbv beta iota delta [ret] in Hbody;
        injection Hbody as _ <-; assumption.
    - cbv beta iota delta [ret] in Hbody. injection Hbody as _ <-. assumption. }
  destruct r1 as [[]|e1]; injection Hrun as _ <-; apply H1.
Qed.

(** [get_archive] on a zip file looks at that file only. *)
Lemma get_archive_zip_stable (fs fs' : FS) (p : Path) :
  fs' !! p = fs !! p -> Zipfile.is_zipfile fs p = true ->
  Archiver.get_archive fs' p = Archiver.get_archive fs p.
Proof.
  intros H Hz.
  unfold Archiver.get_archive, Os.exists_, _ZipArchive.is_archive_type.
  rewrite (zip_init_stable _ _ _ H).
  unfold Zipfile.is_zipfile in *. rewrite H.
  destruct (fs !! p) as [[]|]; try discriminate Hz. reflexivity.
Qed.

End NoCleanup.

(** [Archiver.extract] does not clean up.  When the extraction of a
    container into a fresh [destination/<uuid>] fails half way, that
    directory stays behind, and a second attempt with the same destination
    fails on it, with the error of creating a directory that exists. *)
Theorem failed_extract_blocks_retry
    (c : Collab) (filepath dest : Path) (w : World) (a : Archive)
    (e : Exn) (w' : World) :
  Archiver.get_archive (fs w) filepath = Ok a ->
  Zipfile.is_zipfile (fs w) filepath = true ->
  fs w !! dest = Some Dir ->
  fs w !! (dest ++ [uuid a]) = None ->
  ~ (dest ++ [uuid a]) `prefix_of` filepath ->
  Archiver.extract c filepath dest w = (Raise e, w') ->
  fs w' !! (dest ++ [uuid a]) = Some Dir
  /\ Archiver.extract c filepath dest w'
     = (Raise (FileExistsError (dest ++ [uuid a])), w').
Proof.
  intros Hga Hzip Hdest Hfresh Hout Hrun.
  destruct (get_archive_zip _ _ _ Hga Hzip) as (Hk & Hp & Hu).
  assert (Hinit : _ZipArchive.__init__ (fs w) filepath = Ok a).
  { unfold Archiver.get_archive, Os.exists_, _ZipArchive.is_archive_type in Hga.
    unfold Zipfile.is_zipfile in Hzip, Hga.
    destruct (fs w !! filepath) as [[]|]; try discriminate Hzip. exact Hga. }
  destruct (zip_init_facts _ _ _ Hinit) as (_ & _ & _ & z & Hz & _).
  pose proof (zip_init_roots _ _ _ _ Hinit Hz) as Hroots.
  pose proof (uuid4_valid_name _ Hu) as (Hne & _).
  apply String.eqb_neq in Hne.
  assert (Hdu : dest ++ [uuid a] <> dest).
  { intros E. apply (f_equal length) in E. rewrite length_app in E.
    simpl in E. lia. }
  unfold Archiver.extract in Hrun.
  cbv beta iota delta [bind get lift_result] in Hrun.
  rewrite Hga in Hrun. cbv beta iota zeta in Hrun.
  unfold Os.join in Hrun. rewrite Hne, Hk in Hrun.
  unfold on_fs at 1 in Hrun. rewrite makedirs_child in Hrun by assumption.
  unfold on_fs in Hrun. cbn [fs pool] in Hrun.
  destruct (_ZipArchive.extract (io_fault c) a (dest ++ [uuid a]) _)
    as [r2 fs2] eqn:Eex.
  injection Hrun as _ <-. cbn [fs].
  assert (Hslot : fs2 !! (dest ++ [uuid a]) = Some Dir).
  { eapply zip_archive_extract_keeps_dir; [exact Eex|apply lookup_insert_eq]. }
  assert (Hdest2 : fs2 !! dest = Some Dir).
  { eapply zip_archive_extract_keeps_dir; [exact Eex|].
    rewrite lookup_insert_ne by exact Hdu. exact Hdest. }
  assert (Hsame : fs2 !! filepath = fs w !! filepath).
  { rewrite (zip_archive_extract_confined (io_fault c) a dest z
               (<[dest ++ [uuid a] := Dir]> (fs w)) r2 fs2 Hu)
      with (q := filepath); try assumption.
    - apply lookup_insert_ne. intros E. apply Hout. rewrite E. reflexivity.
    - rewrite Hp, lookup_insert_ne; [exact Hz|].
      intros E. apply Hout. rewrite E. reflexivity.
    - rewrite lookup_insert_ne, Hdest by exact Hdu. eauto. }
  split; [exact Hslot|].
  unfold Archiver.extract. cbv beta iota delta [bind get lift_result]. cbn [fs].
  rewrite (get_archive_zip_stable _ _ _ Hsame Hzip), Hga. cbv beta iota zeta.
  unfold Os.join. rewrite Hne. unfold on_fs. cbn [fs pool].
  rewrite makedirs_exists; [reflexivity|rewrite Hslot; eauto|].
  unfold Os.dirname. rewrite removelast_snoc, Hdest2. eauto.
Qed.

(** A container whose second member lies below its first one, a file. *)
Lemma failed_extract_blocks_retry_witness :
  let bad := [(Sample.U +:+ "/VERSION", Sample.version_text);
              (Sample.U +:+ "/VERSION/x", "")] in
  let w := mkWorld (<[["in"; "bad.qza"] := ZipFile bad]> Sample.disk) ∅ in
  let w' := (Archiver.extract Sample.calm ["in"; "bad.qza"] ["pool"] w).2 in
  fs w' !! (["pool"] ++ [Sample.U]) = Some Dir
  /\ Archiver.extract Sample.calm ["in"; "bad.qza"] ["pool"] w'
     = (Raise (FileExistsError (["pool"] ++ [Sample.U])), w').
Proof.
  intros bad w w'.
  apply (failed_extract_blocks_retry Sample.calm ["in"; "bad.qza"] ["pool"] w
           (mkArchive ZipKind ["in"; "bad.qza"] Sample.U "5" "2023.2.0")
           (NotADirectoryError ["pool"; Sample.U; "VERSION"; "x"]) w').
  - vm_compute. reflexivity.
  - vm_compute. reflexivity.
  - vm_compute. reflexivity.
  - vm_compute. reflexivity.
  - by_decide.
  - unfold w'. by_outcome.
Defined.

(* ===================================================================== *)
(** ** Reading a member of a saved archive *)
(* ===================================================================== *)

Section OpenSaved.

Lemma getinfo_absent (z : list (string * string)) name :
  name ∉ Zipfile.namelist z -> Zipfile.getinfo z name = Raise (KeyError name).
Proof.
  induction z as [|[n d0] z IH]; intros Hn; [reflexivity|].
  cbn [Zipfile.getinfo]. unfold Zipfile.namelist in *. simpl in Hn.
  apply not_elem_of_cons in Hn as [Hne Hn]. rewrite (IH Hn).
  destruct (String.eqb_spec n name) as [->|]; [congruence|reflexivity].
Qed.

Lemma parts_uuid u : Util.is_uuid4 u = true -> PosixPath.parts u = [u].
Proof.
  intros Hu. pose proof (uuid4_valid_name u Hu) as Hv.
  change u with (Str.join "/" [u]) at 1. apply parts_join; [discriminate|].
  constructor; [assumption|constructor].
Qed.

(** The member [open] looks for, given the components of the relative
    path. *)
Lemma open_member_name u (q : Path) :
  Util.is_uuid4 u = true -> q <> [] -> Forall Spec.valid_name q ->
  _ZipArchive._as_zip_path
    (PosixPath.joinpath (PosixPath.parts u) (Str.join "/" q))
  = Str.join "/" (u :: q).
Proof.
  intros Hu Hq Vq. pose proof (uuid4_valid_name u Hu) as Hv.
  unfold PosixPath.joinpath. rewrite parts_uuid by exact Hu.
  assert (Hroot : PosixPath.root_of (Str.join "/" q) = "").
  { destruct q as [|n q']; [congruence|].
    inversion Vq as [|? ? Hn _]; subst.
    destruct (valid_first_char n Hn) as (c & n' & E & Hc).
    destruct (join_first_char n q' c n' E) as [s ->].
    now apply root_of_plain. }
  rewrite Hroot. change (String.eqb "" "") with true. cbv iota.
  rewrite parts_join by assumption.
  apply as_zip_path_valid; [discriminate|]. now constructor.
Qed.

End OpenSaved.


